(** * The Iris bridge of the Electron SDK: call marshaling and event dispatch

    A shallow embedding of [ts/Private/internal/IrisApiEngine.ts]
    ([handleEvent], [emitEvent], [callIrisApi], the [EVENT_PROCESSORS] table)
    and of the listener and registry methods of [RtcEngineExInternal].

    JavaScript values are a small inductive type, mutation of the payload is
    threaded explicitly, and every observable action (log lines, calls of the
    generated [processI...] functions, calls across the native boundary) is
    appended to a trace kept in the state.  Exceptions are a second outcome
    of every computation, so that "never throws" is a statement one can prove
    or refute.  The table of families is an object as well: the one
    assignment the source makes to its entries is kept in a [session]. *)

From stdpp Require Import base option list gmap strings pretty.
From Stdlib Require Import ZArith Lia.

Local Open Scope string_scope.
Local Open Scope list_scope.
Local Open Scope Z_scope.

(** ** JavaScript values *)

(** Numbers are integers: the bridge hands numbers on and compares them
    with [0], it does no arithmetic on them.  [VBytes] is a [Uint8Array] or
    a [Buffer].  [VArr] carries the named properties an array may be given
    next to its elements.  [VFun] is a function object taking no argument
    ([toJSON], [getMediaPlayerId]): calling it returns the captured value,
    or throws when there is none. *)
#[warnings="-register-all"] Inductive value : Type :=
| VUndefined
| VNull
| VBool (b : bool)
| VNum (n : Z)
| VStr (s : string)
| VBytes (b : list Z)
| VArr (elems : list value) (props : list (string * value))
| VObj (props : list (string * value))
| VFun (body : option value).

(** A computation either returns or throws a JavaScript value. *)
Inductive outcome (A : Type) : Type :=
| Return (a : A)
| Throw (e : value).
Arguments Return {A} a.
Arguments Throw {A} e.

Definition TypeError : value := VStr "TypeError".
Definition Error : value := VStr "Error".

Definition is_return {A} (o : outcome A) : bool :=
  match o with Return _ => true | Throw _ => false end.

(** Truthiness, as [if (x)] and [!x] read it. *)
Definition truthy (v : value) : bool :=
  match v with
  | VUndefined | VNull => false
  | VBool b => b
  | VNum n => negb (n =? 0)
  | VStr s => negb (String.eqb s EmptyString)
  | _ => true
  end.

(** [a ?? b] *)
Definition nullish (v : value) : bool :=
  match v with VUndefined | VNull => true | _ => false end.

Definition coalesce (a b : value) : value := if nullish a then b else a.

Fixpoint lookup_prop (k : string) (ps : list (string * value)) : option value :=
  match ps with
  | [] => None
  | (k', v) :: ps' => if String.eqb k k' then Some v else lookup_prop k ps'
  end.

Fixpoint assign_prop (k : string) (v : value) (ps : list (string * value))
  : list (string * value) :=
  match ps with
  | [] => [(k, v)]
  | (k', v') :: ps' =>
      if String.eqb k k' then (k, v) :: ps' else (k', v') :: assign_prop k v ps'
  end.

(** [o.k] for the property names the bridge reads, none of which is an
    index, [length] or inherited: reading a property of [undefined] or
    [null] throws; a primitive, a byte array or a function has none of
    these names. *)
Definition get_prop (o : value) (k : string) : outcome value :=
  match o with
  | VUndefined | VNull => Throw TypeError
  | VObj ps | VArr _ ps => Return (default VUndefined (lookup_prop k ps))
  | _ => Return VUndefined
  end.

(** [o.k = v] : the module is compiled in strict mode, so assigning to a
    property of a primitive throws as it does for [undefined] and [null].
    The result is the object after the assignment.  A property given to a
    byte array or to a function object is not tracked. *)
Definition set_prop (o : value) (k : string) (v : value) : outcome value :=
  match o with
  | VObj ps => Return (VObj (assign_prop k v ps))
  | VArr es ps => Return (VArr es (assign_prop k v ps))
  | VBytes _ | VFun _ => Return o
  | _ => Throw TypeError
  end.

(** ['k' in o], for a name that is not inherited: throws unless [o] is an
    object. *)
Definition has_prop (k : string) (o : value) : outcome bool :=
  match o with
  | VObj ps | VArr _ ps => Return (bool_decide (is_Some (lookup_prop k ps)))
  | VBytes _ | VFun _ => Return false
  | _ => Throw TypeError
  end.

(** [f()] : calling what is not a function throws. *)
Definition call_fn (f : value) : outcome value :=
  match f with
  | VFun (Some r) => Return r
  | VFun None => Throw Error
  | _ => Throw TypeError
  end.

(** [buffers[i]] on the list of raw buffers of an event. *)
Definition buffer_at (buffers : list (list Z)) (i : nat) : value :=
  match buffers !! i with
  | Some b => VBytes b
  | None => VUndefined
  end.

(** [Buffer.from('')] *)
Definition Buffer_from_empty : value := VBytes [].

(** [s.startsWith(p)], [s.endsWith(p)], and the two [replace] calls of
    [handleEvent], which cut a known prefix and a known suffix. *)
Definition startsWith (s p : string) : bool := String.prefix p s.

Definition endsWith (s p : string) : bool :=
  (Nat.leb (String.length p) (String.length s)) &&
  String.eqb (String.substring (String.length s - String.length p)
                               (String.length p) s) p.

Definition drop_prefix (p s : string) : string :=
  String.substring (String.length p) (String.length s - String.length p) s.

Definition drop_suffix (p s : string) : string :=
  String.substring 0 (String.length s - String.length p) s.

(** ** Observers, listeners and the trace of observable actions *)

(** Observers and listener functions are objects: what the registries compare
    ([===]) is their identity.  An observer is an object the caller made, or
    one of the empty objects [{}] that [_addListenerPreCheck] makes. *)
Inductive observer : Type :=
| UserObserver (id : nat)
| EmptyObserver (id : nat).

#[global] Instance observer_eq_dec : EqDecision observer.
Proof. solve_decision. Defined.

Definition listener := nat.

Inductive EVENT_TYPE : Type :=
| IMediaEngine
| IMediaPlayer
| IMediaRecorder
| IRtcEngine
| IMusicContentCenter.

#[global] Instance EVENT_TYPE_eq_dec : EqDecision EVENT_TYPE.
Proof. solve_decision. Defined.

(** The keys of [EVENT_PROCESSORS]. *)
Inductive family : Type :=
| IAudioFrameObserver
| IVideoFrameObserver
| IAudioSpectrumObserver
| IAudioEncodedFrameObserver
| IVideoEncodedFrameObserver
| IMediaPlayerSourceObserver
| IAudioPcmFrameSink
| IMediaPlayerVideoFrameObserver
| IMediaRecorderObserver
| IMetadataObserver
| IDirectCdnStreamingEventHandler
| IRtcEngineEventHandler
| IMusicContentCenterEventHandler.

#[global] Instance family_eq_dec : EqDecision family.
Proof. solve_decision. Defined.

(** The generated functions listed in the [func] arrays. *)
Inductive process_fn : Type :=
| processIAudioFrameObserver
| processIAudioFrameObserverBase
| processIVideoFrameObserver
| processIAudioSpectrumObserver
| processIAudioEncodedFrameObserver
| processIVideoEncodedFrameObserver
| processIMediaPlayerSourceObserver
| processIAudioPcmFrameSink
| processIMediaPlayerVideoFrameObserver
| processIMediaRecorderObserver
| processIMetadataObserver
| processIDirectCdnStreamingEventHandler
| processIRtcEngineEventHandler
| processIMusicContentCenterEventHandler.

(** What a [processI...] function is applied to: a registered observer, or
    the one-method object [{ [eventType]: listener }] that a bus callback
    builds around a listener. *)
Inductive target : Type :=
| TObserver (o : observer)
| TListener (eventType : string) (l : listener).

Inductive log_level : Type := LInfo | LDebug | LWarn | LError.

Inductive effect : Type :=
| ELog (lvl : log_level) (args : list value)
| EConsoleError (arg : value)
| EPreprocess (f : family) (event : string)
| EApply (fn : process_fn) (t : target) (event : string) (data : value)
| EEmit (event : string)
| ECallApi (funcName : string) (json : value) (buffers : list value) (n : Z)
| EInitializeEnv
| EReleaseEnv
| ESuper (method : string).

(** The callback [addListener] builds and hands to the bus.  [cb_id] is the
    identity of the function object; the other fields are what the closure
    captured, [cb_kind] being the event type it lets through. *)
Record callback : Type := {
  cb_id : nat;
  cb_kind : EVENT_TYPE;
  cb_eventType : string;
  cb_listener : listener
}.

#[global] Instance callback_eq_dec : EqDecision callback.
Proof. solve_decision. Defined.

(** What is handed to [DeviceEventEmitter.removeListener]: nothing, a
    callback built by [addListener], or the listener function itself. *)
Inductive bus_fn : Type :=
| FnCallback (c : callback)
| FnListener (l : listener).

(** ** The state *)

Module AgoraEnv.
Record t : Type := {
  enableLogging : bool;
  enableDebugLogging : bool
}.
End AgoraEnv.

Module RtcEngineExInternal.
Record statics : Type := {
  _event_handlers : list observer;
  _direct_cdn_streaming_event_handler : list observer;
  _metadata_observer : list observer;
  _audio_encoded_frame_observers : list observer;
  _audio_spectrum_observers : list observer
}.
Definition empty : statics := Build_statics [] [] [] [] [].
End RtcEngineExInternal.

Module MediaEngineInternal.
Record statics : Type := {
  _audio_frame_observers : list observer;
  _video_frame_observers : list observer;
  _video_encoded_frame_observers : list observer
}.
Definition empty : statics := Build_statics [] [] [].
End MediaEngineInternal.

Module MediaPlayerInternal.
Record statics : Type := {
  _source_observers : gmap Z (list observer);
  _audio_frame_observers : gmap Z (list observer);
  _video_frame_observers : gmap Z (list observer);
  _audio_spectrum_observers : gmap Z (list observer)
}.
Definition empty : statics := Build_statics ∅ ∅ ∅ ∅.
End MediaPlayerInternal.

Module MediaRecorderInternal.
Record statics : Type := {
  _observers : gmap string observer
}.
Definition empty : statics := Build_statics ∅.
End MediaRecorderInternal.

Module MusicContentCenterInternal.
Record statics : Type := {
  _event_handlers : list observer
}.
Definition empty : statics := Build_statics [].
End MusicContentCenterInternal.

(** [DeviceEventEmitter] is the list of subscriptions in the order they were
    added; [agoraCallback] is the property of that name on each listener
    object; [next_id] is the next unused object identity. *)
Record world : Type := {
  env : AgoraEnv.t;
  rtc : RtcEngineExInternal.statics;
  media_engine : MediaEngineInternal.statics;
  media_player : MediaPlayerInternal.statics;
  media_recorder : MediaRecorderInternal.statics;
  music : MusicContentCenterInternal.statics;
  DeviceEventEmitter : list (string * callback);
  agoraCallback : gmap listener callback;
  next_id : nat;
  trace : list effect
}.

Definition set_env (e : AgoraEnv.t) (w : world) : world :=
  Build_world e (rtc w) (media_engine w) (media_player w) (media_recorder w)
    (music w) (DeviceEventEmitter w) (agoraCallback w) (next_id w) (trace w).

Definition set_rtc (r : RtcEngineExInternal.statics) (w : world) : world :=
  Build_world (env w) r (media_engine w) (media_player w) (media_recorder w)
    (music w) (DeviceEventEmitter w) (agoraCallback w) (next_id w) (trace w).

Definition set_bus (b : list (string * callback)) (w : world) : world :=
  Build_world (env w) (rtc w) (media_engine w) (media_player w)
    (media_recorder w) (music w) b (agoraCallback w) (next_id w) (trace w).

Definition set_agoraCallback (m : gmap listener callback) (w : world) : world :=
  Build_world (env w) (rtc w) (media_engine w) (media_player w)
    (media_recorder w) (music w) (DeviceEventEmitter w) m (next_id w) (trace w).

Definition set_next_id (n : nat) (w : world) : world :=
  Build_world (env w) (rtc w) (media_engine w) (media_player w)
    (media_recorder w) (music w) (DeviceEventEmitter w) (agoraCallback w) n
    (trace w).

Definition set_trace (t : list effect) (w : world) : world :=
  Build_world (env w) (rtc w) (media_engine w) (media_player w)
    (media_recorder w) (music w) (DeviceEventEmitter w) (agoraCallback w)
    (next_id w) t.

(** ** Computations over a state, with exceptions

    The state survives a throw: what was logged or registered before the
    exception stays logged or registered. *)
Definition M (S A : Type) : Type := S -> outcome A * S.

Definition ret {S A} (a : A) : M S A := fun s => (Return a, s).

Definition throw {S A} (e : value) : M S A := fun s => (Throw e, s).

Definition bind {S A B} (m : M S A) (k : A -> M S B) : M S B :=
  fun s =>
    match m s with
    | (Return a, s') => k a s'
    | (Throw e, s') => (Throw e, s')
    end.

Definition lift_outcome {S A} (o : outcome A) : M S A := fun s => (o, s).

Definition gets {S A} (f : S -> A) : M S A := fun s => (Return (f s), s).

Definition modify {S} (f : S -> S) : M S unit := fun s => (Return tt, f s).

(** [try { body } catch (e) { handler e }] *)
Definition try_catch {S A} (body : M S A) (handler : value -> M S A) : M S A :=
  fun s =>
    match body s with
    | (Return a, s') => (Return a, s')
    | (Throw e, s') => handler e s'
    end.

Declare Scope js_scope.
Delimit Scope js_scope with js.
Notation "x <- m ; k" := (bind m (fun x => k))
  (at level 100, m at next level, right associativity) : js_scope.
Notation "m ;; k" := (bind m (fun _ => k))
  (at level 100, right associativity) : js_scope.

(** [xs.map(f)] used for its effects only. *)
Fixpoint for_each {S A} (f : A -> M S unit) (xs : list A) : M S unit :=
  match xs with
  | [] => ret tt
  | x :: xs' => bind (f x) (fun _ => for_each f xs')
  end.

Definition perform (e : effect) : M world unit :=
  modify (fun w => set_trace (trace w ++ [e]) w).

(** [isDebuggable()] and [setDebuggable(flag)] *)
Definition isDebuggable : M world bool :=
  gets (fun w => AgoraEnv.enableLogging (env w) &&
                 AgoraEnv.enableDebugLogging (env w)).

Definition setDebuggable (flag : bool) : M world unit :=
  modify (set_env (AgoraEnv.Build_t flag flag)).

(** ** The event families *)

(** One entry of [EVENT_PROCESSORS].  [name] is the key the entry is stored
    under; [handlers] reads the static registries, hence the state. *)
Record EventProcessor : Type := {
  name : family;
  suffix : string;
  type : value -> outcome EVENT_TYPE;
  func : list process_fn;
  preprocess : option (string -> value -> list (list Z) -> outcome value);
  handlers : string -> value -> M world (option (list (option observer)))
}.

(** [processor.preprocess = undefined] *)
Definition clear_preprocess (p : EventProcessor) : EventProcessor :=
  {| name := name p; suffix := suffix p; type := type p; func := func p;
     preprocess := None; handlers := handlers p |}.

Definition on_outcome {A B} (o : outcome A) (k : A -> outcome B) : outcome B :=
  match o with
  | Return a => k a
  | Throw e => Throw e
  end.

(** [if (data.f) { data.f.k1 = v1; ... }] : the assignments go to the object
    found under [f], which stays where it is in [data]. *)
Fixpoint assign_all (o : value) (kvs : list (string * value)) : outcome value :=
  match kvs with
  | [] => Return o
  | (k, v) :: kvs' => on_outcome (set_prop o k v) (fun o' => assign_all o' kvs')
  end.

Definition assign_under (data : value) (f : string) (kvs : list (string * value))
  : outcome value :=
  on_outcome (get_prop data f) (fun child =>
    if truthy child
    then on_outcome (assign_all child kvs) (fun child' =>
           match data with
           | VObj ps => Return (VObj (assign_prop f child' ps))
           | VArr es ps => Return (VArr es (assign_prop f child' ps))
           | _ => Return data
           end)
    else Return data).

Definition frame_buffers (buffers : list (list Z)) : list (string * value) :=
  [("yBuffer", buffer_at buffers 0); ("uBuffer", buffer_at buffers 1);
   ("vBuffer", buffer_at buffers 2); ("metadata_buffer", buffer_at buffers 3);
   ("alphaBuffer", buffer_at buffers 4)].

(** [Array.from(buffers[0] ?? [])] *)
Definition Array_from_buffer (buffers : list (list Z)) : value :=
  match buffers !! 0%nat with
  | Some b => VArr (map VNum b) []
  | None => VArr [] []
  end.

(** [map.get(key)] on the registries keyed by player id and by recorder
    handle: only numbers, respectively strings, are ever used as keys. *)
Definition get_by_playerId {A} (m : gmap Z A) (key : value) : option A :=
  match key with
  | VNum n => m !! n
  | _ => None
  end.

Definition get_by_nativeHandle {A} (m : gmap string A) (key : value) : option A :=
  match key with
  | VStr s => m !! s
  | _ => None
  end.

Definition static_handlers (f : world -> list observer)
  : M world (option (list (option observer))) :=
  gets (fun w => Some (map Some (f w))).

Definition player_handlers (f : world -> gmap Z (list observer)) (data : value)
  : M world (option (list (option observer))) :=
  bind (lift_outcome (get_prop data "playerId")) (fun id =>
    gets (fun w => map Some <$> get_by_playerId (f w) id)).

(** [x === 0] *)
Definition is_zero (v : value) : bool :=
  match v with VNum 0 => true | _ => false end.

(** [{ ...v }] : the own properties of [v], the indices first. *)
Fixpoint indexed {A} (i : nat) (xs : list A) : list (string * A) :=
  match xs with
  | [] => []
  | x :: xs' => (pretty i, x) :: indexed (S i) xs'
  end.

Fixpoint chars (s : string) : list value :=
  match s with
  | EmptyString => []
  | String c s' => VStr (String c EmptyString) :: chars s'
  end.

Definition spread (v : value) : list (string * value) :=
  match v with
  | VObj ps => ps
  | VArr es ps => indexed 0 es ++ ps
  | VBytes b => indexed 0 (map VNum b)
  | VStr s => indexed 0 (chars s)
  | _ => []
  end.

(** The state of one call of [callIrisApi]: the world and the [params]
    object, which the call modifies in place. *)
Record call_state : Type := {
  cs_world : world;
  cs_params : value
}.

(** ** Sample collaborators and states

    One choice of a JSON codec, of native answers and of interface
    membership, on which the properties below are exercised. *)
Module Sample.

(** A parser that knows four texts (written without their inner quotes)
    and rejects the others. *)
Definition JSON_parse (text : value) : outcome value :=
  match text with
  | VStr "{}" => Return (VObj [])
  | VStr "null" => Return VNull
  | VStr "{audioFrame:{}}" =>
      Return (VObj [("audioFrame", VObj [])])
  | VStr "{connection:{}}" =>
      Return (VObj [("connection", VObj [])])
  | _ => Throw (VStr "SyntaxError")
  end.

(** A parser for which every text is [{}]. *)
Definition JSON_parse_empty (text : value) : outcome value :=
  Return (VObj []).

(** A serializer that honours a [toJSON] method, and so throws when that
    method does. *)
Definition JSON_stringify (v : value) : outcome value :=
  match v with
  | VUndefined => Return VUndefined
  | VObj ps =>
      match lookup_prop "toJSON" ps with
      | Some f =>
          match call_fn f with
          | Return _ => Return (VStr "<json>")
          | Throw e => Throw e
          end
      | None => Return (VStr "<json>")
      end
  | _ => Return (VStr "<json>")
  end.

Definition MusicCollectionInternal (collection : value) : outcome value :=
  Return collection.

Definition process (w : world) (it : process_fn) (t : target)
           (event : string) (data : value) : outcome unit :=
  Return tt.

(** A native side that answers every call with the code [-7] and an empty
    result text. *)
Definition CallApi (w : world) (funcName : string) (json : value)
           (buffers : list value) (n : Z) : outcome value :=
  Return (VObj [("callApiReturnCode", VNum (-7)); ("callApiResult", VStr EmptyString)]).

Definition strictTest (interface : family) (eventType : string) : bool :=
  match interface with
  | IMetadataObserver => String.eqb eventType "onMetadataReceived"
  | IRtcEngineEventHandler => String.eqb eventType "onLocalVideoStats"
  | _ => false
  end.

Definition super_result (method : string) : value := VNum 0.

Definition initial : world :=
  {| env := AgoraEnv.Build_t false false;
     rtc := RtcEngineExInternal.empty;
     media_engine := MediaEngineInternal.empty;
     media_player := MediaPlayerInternal.empty;
     media_recorder := MediaRecorderInternal.empty;
     music := MusicContentCenterInternal.empty;
     DeviceEventEmitter := [];
     agoraCallback := ∅;
     next_id := 0;
     trace := [] |}.

(** Two audio frame observers are registered and one listener is
    subscribed to [onRecordAudioFrame]. *)
Definition two_observers : world :=
  {| env := AgoraEnv.Build_t false false;
     rtc := RtcEngineExInternal.empty;
     media_engine :=
       MediaEngineInternal.Build_statics
         [UserObserver 1; UserObserver 2] [] [];
     media_player := MediaPlayerInternal.empty;
     media_recorder := MediaRecorderInternal.empty;
     music := MusicContentCenterInternal.empty;
     DeviceEventEmitter :=
       [("onRecordAudioFrame",
         {| cb_id := 0; cb_kind := IMediaEngine;
            cb_eventType := "onRecordAudioFrame"; cb_listener := 7%nat |})];
     agoraCallback := ∅;
     next_id := 1;
     trace := [] |}.

(** One engine event handler is registered and one listener is subscribed
    to [onLocalVideoStats]. *)
Definition stats_listener : world :=
  {| env := AgoraEnv.Build_t false false;
     rtc := RtcEngineExInternal.Build_statics [UserObserver 1] [] [] [] [];
     media_engine := MediaEngineInternal.empty;
     media_player := MediaPlayerInternal.empty;
     media_recorder := MediaRecorderInternal.empty;
     music := MusicContentCenterInternal.empty;
     DeviceEventEmitter :=
       [("onLocalVideoStats",
         {| cb_id := 0; cb_kind := IRtcEngine;
            cb_eventType := "onLocalVideoStats"; cb_listener := 7%nat |})];
     agoraCallback := ∅;
     next_id := 1;
     trace := [] |}.

Definition call (params : value) : call_state :=
  {| cs_world := initial; cs_params := params |}.

(** [{ frame: { buffer: <1,2,3> } }] : a video frame without [alphaBuffer]. *)
Definition video_frame : value :=
  VObj [("frame", VObj [("buffer", VBytes [1; 2; 3])])].

(** An argument object whose [toJSON] method throws. *)
Definition unserializable : value := VObj [("toJSON", VFun None)].

End Sample.

(** The slots of a pushed video frame in the words of the specification:
    "frame buffer, three empty placeholders, alpha buffer or empty". *)
Definition claimed_pushVideoFrame_slots (fields : list (string * value))
  : list value :=
  [ default VUndefined (lookup_prop "buffer" fields);
    Buffer_from_empty;
    Buffer_from_empty;
    Buffer_from_empty;
    default Buffer_from_empty (lookup_prop "alphaBuffer" fields) ].

Section Bridge.

Set Default Proof Using "Type".

(** What the bridge calls but does not define: the JSON codec
    ([json-bigint]), the constructor of [MusicCollectionInternal], the
    generated [processI...] functions (which call into user code and may
    throw), the native [CallApi], the interface checkers of
    [ts-interface-checker], and the value a method of the generated
    superclass returns. *)
Variable JSON_parse : value -> outcome value.
Variable JSON_stringify : value -> outcome value.
Variable MusicCollectionInternal : value -> outcome value.
Variable process : world -> process_fn -> target -> string -> value -> outcome unit.
Variable CallApi : world -> string -> value -> list value -> Z -> outcome value.
Variable strictTest : family -> string -> bool.
Variable super_result : string -> value.

Definition EVENT_PROCESSORS (k : family) : EventProcessor :=
  match k with
  | IAudioFrameObserver =>
      {| name := IAudioFrameObserver;
         suffix := "AudioFrameObserver_";
         type := fun _ => Return IMediaEngine;
         func := [processIAudioFrameObserver; processIAudioFrameObserverBase];
         preprocess := Some (fun event data buffers =>
           assign_under data "audioFrame" [("buffer", buffer_at buffers 0)]);
         handlers := fun event data =>
           static_handlers (fun w =>
             MediaEngineInternal._audio_frame_observers (media_engine w)) |}
  | IVideoFrameObserver =>
      {| name := IVideoFrameObserver;
         suffix := "VideoFrameObserver_";
         type := fun _ => Return IMediaEngine;
         func := [processIVideoFrameObserver];
         preprocess := Some (fun event data buffers =>
           assign_under data "videoFrame" (frame_buffers buffers));
         handlers := fun event data =>
           static_handlers (fun w =>
             MediaEngineInternal._video_frame_observers (media_engine w)) |}
  | IAudioSpectrumObserver =>
      {| name := IAudioSpectrumObserver;
         suffix := "AudioSpectrumObserver_";
         type := fun data =>
           on_outcome (get_prop data "playerId") (fun id =>
             Return (if is_zero id then IRtcEngine else IMediaPlayer));
         func := [processIAudioSpectrumObserver];
         preprocess := None;
         handlers := fun event data =>
           bind (lift_outcome (get_prop data "playerId")) (fun id =>
             if is_zero id
             then static_handlers (fun w =>
                    RtcEngineExInternal._audio_spectrum_observers (rtc w))
             else gets (fun w => map Some <$>
                    get_by_playerId
                      (MediaPlayerInternal._audio_spectrum_observers
                         (media_player w)) id)) |}
  | IAudioEncodedFrameObserver =>
      {| name := IAudioEncodedFrameObserver;
         suffix := "AudioEncodedFrameObserver_";
         type := fun _ => Return IRtcEngine;
         func := [processIAudioEncodedFrameObserver];
         preprocess := Some (fun event data buffers =>
           if String.eqb event "OnRecordAudioEncodedFrame"
              || String.eqb event "OnPlaybackAudioEncodedFrame"
              || String.eqb event "OnMixedAudioEncodedFrame"
           then set_prop data "frameBuffer" (buffer_at buffers 0)
           else Return data);
         handlers := fun event data =>
           static_handlers (fun w =>
             RtcEngineExInternal._audio_encoded_frame_observers (rtc w)) |}
  | IVideoEncodedFrameObserver =>
      {| name := IVideoEncodedFrameObserver;
         suffix := "VideoEncodedFrameObserver_";
         type := fun _ => Return IMediaEngine;
         func := [processIVideoEncodedFrameObserver];
         preprocess := Some (fun event data buffers =>
           if String.eqb event "onEncodedVideoFrameReceived"
           then set_prop data "imageBuffer" (buffer_at buffers 0)
           else Return data);
         handlers := fun event data =>
           static_handlers (fun w =>
             MediaEngineInternal._video_encoded_frame_observers
               (media_engine w)) |}
  | IMediaPlayerSourceObserver =>
      {| name := IMediaPlayerSourceObserver;
         suffix := "MediaPlayerSourceObserver_";
         type := fun _ => Return IMediaPlayer;
         func := [processIMediaPlayerSourceObserver];
         preprocess := None;
         handlers := fun event data =>
           player_handlers (fun w =>
             MediaPlayerInternal._source_observers (media_player w)) data |}
  | IAudioPcmFrameSink =>
      {| name := IAudioPcmFrameSink;
         suffix := "AudioPcmFrameSink_";
         type := fun _ => Return IMediaPlayer;
         func := [processIAudioPcmFrameSink];
         preprocess := Some (fun event data buffers =>
           assign_under data "frame" [("data_", Array_from_buffer buffers)]);
         handlers := fun event data =>
           player_handlers (fun w =>
             MediaPlayerInternal._audio_frame_observers (media_player w))
             data |}
  | IMediaPlayerVideoFrameObserver =>
      {| name := IMediaPlayerVideoFrameObserver;
         suffix := "MediaPlayerVideoFrameObserver_";
         type := fun _ => Return IMediaPlayer;
         func := [processIMediaPlayerVideoFrameObserver];
         preprocess := Some (fun event data buffers =>
           assign_under data "frame" (frame_buffers buffers));
         handlers := fun event data =>
           player_handlers (fun w =>
             MediaPlayerInternal._video_frame_observers (media_player w))
             data |}
  | IMediaRecorderObserver =>
      {| name := IMediaRecorderObserver;
         suffix := "MediaRecorderObserver_";
         type := fun _ => Return IMediaRecorder;
         func := [processIMediaRecorderObserver];
         preprocess := None;
         handlers := fun event data =>
           bind (lift_outcome (get_prop data "nativeHandle")) (fun h =>
             gets (fun w => Some
               [get_by_nativeHandle
                  (MediaRecorderInternal._observers (media_recorder w)) h])) |}
  | IMetadataObserver =>
      {| name := IMetadataObserver;
         suffix := "MetadataObserver_";
         type := fun _ => Return IRtcEngine;
         func := [processIMetadataObserver];
         preprocess := Some (fun event data buffers =>
           if String.eqb event "onMetadataReceived"
           then assign_under data "metadata" [("buffer", buffer_at buffers 0)]
           else Return data);
         handlers := fun event data =>
           static_handlers (fun w =>
             RtcEngineExInternal._metadata_observer (rtc w)) |}
  | IDirectCdnStreamingEventHandler =>
      {| name := IDirectCdnStreamingEventHandler;
         suffix := "DirectCdnStreamingEventHandler_";
         type := fun _ => Return IRtcEngine;
         func := [processIDirectCdnStreamingEventHandler];
         preprocess := None;
         handlers := fun event data =>
           static_handlers (fun w =>
             RtcEngineExInternal._direct_cdn_streaming_event_handler (rtc w)) |}
  | IRtcEngineEventHandler =>
      {| name := IRtcEngineEventHandler;
         suffix := "RtcEngineEventHandler_";
         type := fun _ => Return IRtcEngine;
         func := [processIRtcEngineEventHandler];
         preprocess := Some (fun event data buffers =>
           if String.eqb event "onStreamMessage"
              || String.eqb event "onStreamMessageEx"
           then set_prop data "data" (buffer_at buffers 0)
           else Return data);
         handlers := fun event data =>
           if String.eqb event "onLocalVideoStats"
           then bind (lift_outcome (has_prop "connection" data)) (fun c =>
                  if c then ret None
                  else static_handlers (fun w =>
                         RtcEngineExInternal._event_handlers (rtc w)))
           else static_handlers (fun w =>
                  RtcEngineExInternal._event_handlers (rtc w)) |}
  | IMusicContentCenterEventHandler =>
      {| name := IMusicContentCenterEventHandler;
         suffix := "MusicContentCenterEventHandler_";
         type := fun _ => Return IMusicContentCenter;
         func := [processIMusicContentCenterEventHandler];
         preprocess := Some (fun event data buffers =>
           if String.eqb event "onMusicCollectionResult"
           then on_outcome (get_prop data "result") (fun result =>
                  on_outcome (MusicCollectionInternal result) (fun c =>
                    set_prop data "result" c))
           else Return data);
         handlers := fun event data =>
           static_handlers (fun w =>
             MusicContentCenterInternal._event_handlers (music w)) |}
  end.

(** [Object.values(EVENT_PROCESSORS)] : the entries in the order the object
    literal lists them. *)
Definition EVENT_PROCESSORS_values : list EventProcessor :=
  map EVENT_PROCESSORS
    [IAudioFrameObserver; IVideoFrameObserver; IAudioSpectrumObserver;
     IAudioEncodedFrameObserver; IVideoEncodedFrameObserver;
     IMediaPlayerSourceObserver; IAudioPcmFrameSink;
     IMediaPlayerVideoFrameObserver; IMediaRecorderObserver;
     IMetadataObserver; IDirectCdnStreamingEventHandler;
     IRtcEngineEventHandler; IMusicContentCenterEventHandler].

(** [it(target, event, data)] for [it] in a [func] array: the call is
    recorded, and what it does is up to the generated function and the
    user code behind it. *)
Definition apply_fn (it : process_fn) (t : target) (event : string)
           (data : value) : M world unit :=
  (perform (EApply it t event data);;
   fun w => (process w it t event data, w))%js.

(** *** The publish/subscribe bus

    [DeviceEventEmitter] is an [EventEmitter] of the [eventemitter3]
    package; its methods are written here as that package implements
    them. *)

Definition subscribed (event : string) (sub : string * callback) : bool :=
  String.eqb (fst sub) event.

Definition listenerCount (event : string) : M world nat :=
  gets (fun w => length (filter (fun sub => subscribed event sub)
                                (DeviceEventEmitter w))).

(** The body of the callback built by [addListener]:
    [(eventProcessor, data) => { if (eventProcessor.type(data) !== kind)
    return; eventProcessor.func.map(it => it({ [eventType]: listener },
    eventType, data)); }] *)
Definition run_callback (c : callback) (eventProcessor : EventProcessor)
           (data : value) : M world unit :=
  (t <- lift_outcome (type eventProcessor data);
   if bool_decide (t = cb_kind c)
   then for_each (fun it =>
          apply_fn it (TListener (cb_eventType c) (cb_listener c))
                   (cb_eventType c) data)
          (func eventProcessor)
   else ret tt)%js.

(** [DeviceEventEmitter.emit(event, eventProcessor, data)] calls the
    subscriptions of [event] in the order they were added. *)
Definition emit (event : string) (eventProcessor : EventProcessor)
           (data : value) : M world unit :=
  (perform (EEmit event);;
   subs <- gets (fun w => filter (fun sub => subscribed event sub)
                                 (DeviceEventEmitter w));
   for_each (fun sub => run_callback (snd sub) eventProcessor data) subs)%js.

(** [preprocess(event, data, buffers)] : the call is recorded, then the
    payload is rewritten. *)
Definition run_preprocess (f : family)
           (p : string -> value -> list (list Z) -> outcome value)
           (event : string) (data : value) (buffers : list (list Z))
  : M world value :=
  (perform (EPreprocess f event);;
   lift_outcome (p event data buffers))%js.

(** [emitEvent(eventType, eventProcessor, data, buffers)] on a descriptor
    of the caller's own, as [handleEvent] hands it one: the assignment
    [eventProcessor.preprocess = undefined] shows in the descriptor handed to
    [emit].  The call on an entry of the exported table, where the
    assignment changes the table, is [emitEvent_entry] below. *)
Definition emitEvent (eventType : string) (eventProcessor : EventProcessor)
           (data : value) (buffers : option (list (list Z))) : M world unit :=
  (n <- listenerCount eventType;
   if Nat.eqb n 0 then ret tt
   else
     match preprocess eventProcessor with
     | Some p =>
         data' <- run_preprocess (name eventProcessor) p eventType data
                                 (default [] buffers);
         (* call preprocess only once *)
         emit eventType (clear_preprocess eventProcessor) data'
     | None => emit eventType eventProcessor data
     end)%js.

Definition logInfo (args : list value) : M world unit := perform (ELog LInfo args).
Definition logDebug (args : list value) : M world unit := perform (ELog LDebug args).
Definition logWarn (args : list value) : M world unit := perform (ELog LWarn args).
Definition logError (args : list value) : M world unit := perform (ELog LError args).

(** The event name without the family prefix and without a final [Ex]. *)
Definition normalize (processor : EventProcessor) (event : string) : string :=
  let _event := drop_prefix (suffix processor) event in
  if endsWith _event "Ex" then drop_suffix "Ex" _event else _event.

(** [JSON.parse(data) ?? {}], and [{}] when the parse throws. *)
Definition parse_payload (data : string) : value :=
  match JSON_parse (VStr data) with
  | Return v => coalesce v (VObj [])
  | Throw _ => VObj []
  end.

Definition find_processor (event : string) : option EventProcessor :=
  find (fun it => startsWith event (suffix it)) EVENT_PROCESSORS_values.

(** [handleEvent] on the table as the source text has it;
    [handleEvent_session] below reads the table as it is when an entry has
    been assigned to. *)
Definition handleEvent (event data : string) (buffers : list (list Z))
  : M world unit :=
  (dbg <- isDebuggable;
   (if dbg : bool
    then logInfo [VStr "onEvent"; VStr event; VStr data;
                  VArr (map VBytes buffers) []]
    else ret tt);;
   match find_processor event with
   | None => ret tt
   | Some processor =>
       let _event := normalize processor event in
       let _data := parse_payload data in
       hs <- handlers processor _event _data;
       pd <- match hs with
             | None => ret (processor, _data)
             | Some hs =>
                 pd <- match preprocess processor with
                       | Some p =>
                           d <- run_preprocess (name processor) p _event
                                               _data buffers;
                           (* call preprocess only once *)
                           ret (clear_preprocess processor, d)
                       | None => ret (processor, _data)
                       end;
                 for_each (fun v : option observer =>
                   match v with
                   | Some o =>
                       for_each (fun it =>
                         apply_fn it (TObserver o) _event (snd pd))
                         (func processor)
                   | None => ret tt
                   end) hs;;
                 ret pd
             end;
       emitEvent _event (fst pd) (snd pd) (Some buffers)
   end)%js.

(** The callback given to [AgoraRtcNg.OnEvent('call_back_with_buffer', ...)]. *)
Definition call_back_with_buffer (event data : string)
           (buffers : list (list Z)) : M world unit :=
  try_catch (handleEvent event data buffers)
            (fun e => perform (EConsoleError e)).

(** *** The call dispatcher *)

Definition in_world {A} (m : M world A) : M call_state A :=
  fun s =>
    let '(r, w) := m (cs_world s) in
    (r, {| cs_world := w; cs_params := cs_params s |}).

(** [params.k] and [params.k = v] *)
Definition param (k : string) : M call_state value :=
  fun s => (get_prop (cs_params s) k, s).

Definition set_param (k : string) (v : value) : M call_state unit :=
  fun s =>
    match set_prop (cs_params s) k v with
    | Return p => (Return tt, {| cs_world := cs_world s; cs_params := p |})
    | Throw e => (Throw e, s)
    end.

Definition stringify_params : M call_state value :=
  fun s => (JSON_stringify (cs_params s), s).

(** [AgoraRtcNg.CallApi(funcName, JSON.stringify(params), buffers,
    buffers.length)] *)
Definition call_native (funcName : string) (buffers : list value)
  : M call_state value :=
  (json <- stringify_params;
   in_world (perform (ECallApi funcName json buffers (Z.of_nat (length buffers))));;
   in_world (fun w =>
     (CallApi w funcName json buffers (Z.of_nat (length buffers)), w)))%js.

Definition one_of (s : string) (names : list string) : bool :=
  existsb (String.eqb s) names.

(** The part of the [try] block before the generic call.  [None] stands
    for the [return] of the release case; otherwise the result is the
    list of extracted buffers. *)
Definition marshal (this : value) (funcName : string)
  : M call_state (option (list value)) :=
  (if startsWith funcName "MediaEngine_" then
     if one_of funcName ["MediaEngine_pushAudioFrame";
                         "MediaEngine_pushCaptureAudioFrame";
                         "MediaEngine_pushReverseAudioFrame";
                         "MediaEngine_pushDirectAudioFrame"] then
       frame <- param "frame";
       b <- lift_outcome (get_prop frame "buffer");
       ret (Some [b])
     else if String.eqb funcName "MediaEngine_pushVideoFrame" then
       frame <- param "frame";
       b <- lift_outcome (get_prop frame "buffer");
       frame' <- param "frame";
       a <- lift_outcome (get_prop frame' "alphaBuffer");
       ret (Some [ b                   (* frame.buffer *)
                 ; Buffer_from_empty   (* frame.eglContext *)
                 ; Buffer_from_empty   (* frame.metadata_buffer *)
                 ; a                   (* frame.alphaBuffer *)
                 ; Buffer_from_empty   (* frame.d3d11_texture_2d *) ])
     else if String.eqb funcName "MediaEngine_pushEncodedVideoImage" then
       b <- param "imageBuffer";
       ret (Some [b])
     else ret (Some [])
   else if startsWith funcName "MediaPlayer_"
           || startsWith funcName "MusicPlayer_" then
     getter <- lift_outcome (get_prop this "getMediaPlayerId");
     id <- lift_outcome (call_fn getter);
     set_param "mediaPlayerId" id;;
     toJSON <- param "toJSON";
     json <- (if nullish toJSON then ret VUndefined
              else lift_outcome (call_fn toJSON));
     set_param "toJSON"
       (VFun (Some (VObj (assign_prop "playerId" id (spread json)))));;
     ret (Some [])
   else if startsWith funcName "MediaRecorder_" then
     h <- lift_outcome (get_prop this "nativeHandle");
     set_param "nativeHandle" h;;
     toJSON <- param "toJSON";
     json <- (if nullish toJSON then ret VUndefined
              else lift_outcome (call_fn toJSON));
     set_param "toJSON"
       (VFun (Some (VObj (assign_prop "nativeHandle" h (spread json)))));;
     ret (Some [])
   else if startsWith funcName "RtcEngine_" then
     if String.eqb funcName "RtcEngine_initialize" then
       in_world (perform EInitializeEnv);;
       ret (Some [])
     else if String.eqb funcName "RtcEngine_release" then
       call_native funcName [];;
       in_world (perform EReleaseEnv);;
       ret None
     else if String.eqb funcName "RtcEngine_sendMetaData" then
       metadata <- param "metadata";
       b <- lift_outcome (get_prop metadata "buffer");
       ret (Some [b])
     else if one_of funcName ["RtcEngine_sendStreamMessage";
                              "RtcEngine_sendStreamMessageEx"] then
       b <- param "data";
       ret (Some [b])
     else if String.eqb funcName "RtcEngine_destroyMediaPlayer" then
       media_player <- param "media_player";
       getter <- lift_outcome (get_prop media_player "getMediaPlayerId");
       id <- lift_outcome (call_fn getter);
       set_param "mediaPlayerId" id;;
       set_param "toJSON" (VFun (Some (VObj [("playerId", id)])));;
       ret (Some [])
     else if String.eqb funcName "RtcEngine_destroyMediaRecorder" then
       h <- lift_outcome (get_prop this "nativeHandle");
       set_param "nativeHandle" h;;
       set_param "toJSON" (VFun (Some (VObj [("nativeHandle", h)])));;
       ret (Some [])
     else ret (Some [])
   else ret (Some []))%js.

(** [typeof v === 'number' && v < 0] *)
Definition negative_number (v : value) : bool :=
  match v with VNum n => n <? 0 | _ => false end.

(** [ret !== undefined && ret !== null && ret !== ''] *)
Definition present (v : value) : bool :=
  match v with
  | VUndefined | VNull => false
  | VStr s => negb (String.eqb s EmptyString)
  | _ => true
  end.

(** The generic call and the decoding of its answer. *)
Definition invoke (funcName : string) (buffers : list value)
  : M call_state value :=
  (answer <- call_native funcName buffers;
   callApiReturnCode <- lift_outcome (get_prop answer "callApiReturnCode");
   callApiResult <- lift_outcome (get_prop answer "callApiResult");
   if present callApiResult then
     retObj <- lift_outcome (JSON_parse callApiResult);
     dbg <- in_world isDebuggable;
     (if dbg : bool then
        result <- lift_outcome (get_prop retObj "result");
        json <- stringify_params;
        if negative_number result
        then in_world (logError [VStr "callApi"; VStr funcName; json; callApiResult])
        else in_world (logDebug [VStr "callApi"; VStr funcName; json; callApiResult])
      else ret tt);;
     ret retObj
   else
     dbg <- in_world isDebuggable;
     json <- stringify_params;
     (if dbg : bool
      then in_world (logError [VStr "callApi"; VStr funcName; json; callApiReturnCode])
      else in_world (logWarn [VStr "callApi"; VStr funcName; json; callApiReturnCode]));;
     ret (VObj [("result", callApiReturnCode)]))%js.

(** The [catch] block: it serializes [params] once more for the log line. *)
Definition on_failure (funcName : string) (e : value) : M call_state unit :=
  (dbg <- in_world isDebuggable;
   json <- stringify_params;
   if dbg : bool
   then in_world (logError [VStr "callApi"; VStr funcName; json; e])
   else in_world (logWarn [VStr "callApi"; VStr funcName; json; e]))%js.

(** [callIrisApi.call(this, funcName, params)] : the state holds the
    [params] object, which the call may modify.  The [return {}] after the
    [try] statement is reached from the [catch] block only. *)
Definition try_block (this : value) (funcName : string)
  : M call_state value :=
  (buffers <- marshal this funcName;
   match buffers with
   | None => ret VUndefined
   | Some buffers => invoke funcName buffers
   end)%js.

Definition callIrisApi (this : value) (funcName : string)
  : M call_state value :=
  try_catch (try_block this funcName)
            (fun e => on_failure funcName e;; ret (VObj []))%js.

(** *** The registries and the listeners of [RtcEngineExInternal] *)

(** [if (!registry.find(value => value === o)) registry.push(o)] *)
Definition register_observer (o : observer) (registry : list observer)
  : list observer :=
  match find (fun v => bool_decide (v = o)) registry with
  | Some _ => registry
  | None => registry ++ [o]
  end.

(** [registry.filter(value => value !== o)] *)
Definition unregister_observer (o : observer) (registry : list observer)
  : list observer :=
  filter (fun v => v <> o) registry.

(** A method of the generated superclass: it talks to the native side and
    leaves the registries alone. *)
Definition super (method : string) : M world value :=
  (perform (ESuper method);; ret (super_result method))%js.

Definition update_rtc
           (f : RtcEngineExInternal.statics -> RtcEngineExInternal.statics)
  : M world unit :=
  modify (fun w => set_rtc (f (rtc w)) w).

Definition registerEventHandler (eventHandler : observer) : M world value :=
  (update_rtc (fun r =>
     {| RtcEngineExInternal._event_handlers :=
          register_observer eventHandler (RtcEngineExInternal._event_handlers r);
        RtcEngineExInternal._direct_cdn_streaming_event_handler :=
          RtcEngineExInternal._direct_cdn_streaming_event_handler r;
        RtcEngineExInternal._metadata_observer :=
          RtcEngineExInternal._metadata_observer r;
        RtcEngineExInternal._audio_encoded_frame_observers :=
          RtcEngineExInternal._audio_encoded_frame_observers r;
        RtcEngineExInternal._audio_spectrum_observers :=
          RtcEngineExInternal._audio_spectrum_observers r |});;
   super "registerEventHandler")%js.

Definition unregisterEventHandler (eventHandler : observer) : M world value :=
  (update_rtc (fun r =>
     {| RtcEngineExInternal._event_handlers :=
          unregister_observer eventHandler (RtcEngineExInternal._event_handlers r);
        RtcEngineExInternal._direct_cdn_streaming_event_handler :=
          RtcEngineExInternal._direct_cdn_streaming_event_handler r;
        RtcEngineExInternal._metadata_observer :=
          RtcEngineExInternal._metadata_observer r;
        RtcEngineExInternal._audio_encoded_frame_observers :=
          RtcEngineExInternal._audio_encoded_frame_observers r;
        RtcEngineExInternal._audio_spectrum_observers :=
          RtcEngineExInternal._audio_spectrum_observers r |});;
   super "unregisterEventHandler")%js.

Definition startDirectCdnStreaming (eventHandler : observer) : M world value :=
  (update_rtc (fun r =>
     {| RtcEngineExInternal._event_handlers :=
          RtcEngineExInternal._event_handlers r;
        RtcEngineExInternal._direct_cdn_streaming_event_handler :=
          register_observer eventHandler
            (RtcEngineExInternal._direct_cdn_streaming_event_handler r);
        RtcEngineExInternal._metadata_observer :=
          RtcEngineExInternal._metadata_observer r;
        RtcEngineExInternal._audio_encoded_frame_observers :=
          RtcEngineExInternal._audio_encoded_frame_observers r;
        RtcEngineExInternal._audio_spectrum_observers :=
          RtcEngineExInternal._audio_spectrum_observers r |});;
   super "startDirectCdnStreaming")%js.

Definition registerMediaMetadataObserver (o : observer) : M world value :=
  (update_rtc (fun r =>
     {| RtcEngineExInternal._event_handlers :=
          RtcEngineExInternal._event_handlers r;
        RtcEngineExInternal._direct_cdn_streaming_event_handler :=
          RtcEngineExInternal._direct_cdn_streaming_event_handler r;
        RtcEngineExInternal._metadata_observer :=
          register_observer o (RtcEngineExInternal._metadata_observer r);
        RtcEngineExInternal._audio_encoded_frame_observers :=
          RtcEngineExInternal._audio_encoded_frame_observers r;
        RtcEngineExInternal._audio_spectrum_observers :=
          RtcEngineExInternal._audio_spectrum_observers r |});;
   super "registerMediaMetadataObserver")%js.

Definition unregisterMediaMetadataObserver (o : observer) : M world value :=
  (update_rtc (fun r =>
     {| RtcEngineExInternal._event_handlers :=
          RtcEngineExInternal._event_handlers r;
        RtcEngineExInternal._direct_cdn_streaming_event_handler :=
          RtcEngineExInternal._direct_cdn_streaming_event_handler r;
        RtcEngineExInternal._metadata_observer :=
          unregister_observer o (RtcEngineExInternal._metadata_observer r);
        RtcEngineExInternal._audio_encoded_frame_observers :=
          RtcEngineExInternal._audio_encoded_frame_observers r;
        RtcEngineExInternal._audio_spectrum_observers :=
          RtcEngineExInternal._audio_spectrum_observers r |});;
   super "unregisterMediaMetadataObserver")%js.

Definition registerAudioEncodedFrameObserver (o : observer) : M world value :=
  (update_rtc (fun r =>
     {| RtcEngineExInternal._event_handlers :=
          RtcEngineExInternal._event_handlers r;
        RtcEngineExInternal._direct_cdn_streaming_event_handler :=
          RtcEngineExInternal._direct_cdn_streaming_event_handler r;
        RtcEngineExInternal._metadata_observer :=
          RtcEngineExInternal._metadata_observer r;
        RtcEngineExInternal._audio_encoded_frame_observers :=
          register_observer o
            (RtcEngineExInternal._audio_encoded_frame_observers r);
        RtcEngineExInternal._audio_spectrum_observers :=
          RtcEngineExInternal._audio_spectrum_observers r |});;
   super "registerAudioEncodedFrameObserver")%js.

Definition unregisterAudioEncodedFrameObserver (o : observer) : M world value :=
  (update_rtc (fun r =>
     {| RtcEngineExInternal._event_handlers :=
          RtcEngineExInternal._event_handlers r;
        RtcEngineExInternal._direct_cdn_streaming_event_handler :=
          RtcEngineExInternal._direct_cdn_streaming_event_handler r;
        RtcEngineExInternal._metadata_observer :=
          RtcEngineExInternal._metadata_observer r;
        RtcEngineExInternal._audio_encoded_frame_observers :=
          unregister_observer o
            (RtcEngineExInternal._audio_encoded_frame_observers r);
        RtcEngineExInternal._audio_spectrum_observers :=
          RtcEngineExInternal._audio_spectrum_observers r |});;
   super "unregisterAudioEncodedFrameObserver")%js.

Definition registerAudioSpectrumObserver (o : observer) : M world value :=
  (update_rtc (fun r =>
     {| RtcEngineExInternal._event_handlers :=
          RtcEngineExInternal._event_handlers r;
        RtcEngineExInternal._direct_cdn_streaming_event_handler :=
          RtcEngineExInternal._direct_cdn_streaming_event_handler r;
        RtcEngineExInternal._metadata_observer :=
          RtcEngineExInternal._metadata_observer r;
        RtcEngineExInternal._audio_encoded_frame_observers :=
          RtcEngineExInternal._audio_encoded_frame_observers r;
        RtcEngineExInternal._audio_spectrum_observers :=
          register_observer o
            (RtcEngineExInternal._audio_spectrum_observers r) |});;
   super "registerAudioSpectrumObserver")%js.

Definition unregisterAudioSpectrumObserver (o : observer) : M world value :=
  (update_rtc (fun r =>
     {| RtcEngineExInternal._event_handlers :=
          RtcEngineExInternal._event_handlers r;
        RtcEngineExInternal._direct_cdn_streaming_event_handler :=
          RtcEngineExInternal._direct_cdn_streaming_event_handler r;
        RtcEngineExInternal._metadata_observer :=
          RtcEngineExInternal._metadata_observer r;
        RtcEngineExInternal._audio_encoded_frame_observers :=
          RtcEngineExInternal._audio_encoded_frame_observers r;
        RtcEngineExInternal._audio_spectrum_observers :=
          unregister_observer o
            (RtcEngineExInternal._audio_spectrum_observers r) |});;
   super "unregisterAudioSpectrumObserver")%js.

(** A new object identity. *)
Definition fresh : M world nat :=
  fun w => (Return (next_id w), set_next_id (S (next_id w)) w).

Definition registry_empty (f : RtcEngineExInternal.statics -> list observer)
  : M world bool :=
  gets (fun w => Nat.eqb (length (f (rtc w))) 0).

Definition diagnostic (api : string) : value :=
  VStr ("Please call `" +:+ api +:+
        "` before you want to receive event by `addListener`").

(** The five checks run one after the other; a failed strict check
    returns at once. *)
Definition _addListenerPreCheck (eventType : string) : M world bool :=
  ((if strictTest IRtcEngineEventHandler eventType then
      e <- registry_empty RtcEngineExInternal._event_handlers;
      if e : bool
      then (id <- fresh; registerEventHandler (EmptyObserver id);; ret tt)
      else ret tt
    else ret tt);;
   stop <- (if strictTest IDirectCdnStreamingEventHandler eventType then
              e <- registry_empty
                     RtcEngineExInternal._direct_cdn_streaming_event_handler;
              if e : bool
              then perform (EConsoleError (diagnostic "startDirectCdnStreaming"));;
                   ret true
              else ret false
            else ret false);
   if stop : bool then ret false else
   stop <- (if strictTest IMetadataObserver eventType then
              e <- registry_empty RtcEngineExInternal._metadata_observer;
              if e : bool
              then perform (EConsoleError
                              (diagnostic "registerMediaMetadataObserver"));;
                   ret true
              else ret false
            else ret false);
   if stop : bool then ret false else
   stop <- (if strictTest IAudioEncodedFrameObserver eventType then
              e <- registry_empty
                     RtcEngineExInternal._audio_encoded_frame_observers;
              if e : bool
              then perform (EConsoleError
                              (diagnostic "registerAudioEncodedFrameObserver"));;
                   ret true
              else ret false
            else ret false);
   if stop : bool then ret false else
   (if strictTest IAudioSpectrumObserver eventType then
      e <- registry_empty RtcEngineExInternal._audio_spectrum_observers;
      if e : bool
      then (id <- fresh; registerAudioSpectrumObserver (EmptyObserver id);;
            ret tt)
      else ret tt
    else ret tt);;
   ret true)%js.

(** [DeviceEventEmitter.addListener(event, fn)] *)
Definition DeviceEventEmitter_addListener (event : string) (c : callback)
  : M world unit :=
  modify (fun w => set_bus (DeviceEventEmitter w ++ [(event, c)]) w).

Definition same_fn (fn : bus_fn) (c : callback) : bool :=
  match fn with
  | FnCallback c' => Nat.eqb (cb_id c') (cb_id c)
  | FnListener _ => false
  end.

(** [DeviceEventEmitter.removeListener(event, fn)] : without [fn] every
    subscription of [event] goes, with it those whose function is [fn]. *)
Definition removed (event : string) (fn : option bus_fn)
           (sub : string * callback) : bool :=
  match fn with
  | None => subscribed event sub
  | Some f => subscribed event sub && same_fn f (snd sub)
  end.

Definition DeviceEventEmitter_removeListener (event : string)
           (fn : option bus_fn) : M world unit :=
  modify (fun w =>
    set_bus (filter (fun sub => negb (removed event fn sub))
                    (DeviceEventEmitter w)) w).

(** [DeviceEventEmitter.removeAllListeners(event)] *)
Definition DeviceEventEmitter_removeAllListeners (event : option string)
  : M world unit :=
  modify (fun w =>
    set_bus
      match event with
      | Some ev => filter (fun sub => negb (subscribed ev sub))
                          (DeviceEventEmitter w)
      | None => []
      end w).

(** The result of [_addListenerPreCheck] is not looked at. *)
Definition addListener (eventType : string) (l : listener) : M world unit :=
  (_addListenerPreCheck eventType;;
   id <- fresh;
   let callback := {| cb_id := id; cb_kind := IRtcEngine;
                      cb_eventType := eventType; cb_listener := l |} in
   modify (fun w => set_agoraCallback (<[l := callback]> (agoraCallback w)) w);;
   DeviceEventEmitter_addListener eventType callback)%js.

(** [listener?.agoraCallback ?? listener] *)
Definition removeListener (eventType : string) (l : option listener)
  : M world unit :=
  (fn <- gets (fun w =>
           match l with
           | None => None
           | Some l =>
               match agoraCallback w !! l with
               | Some c => Some (FnCallback c)
               | None => Some (FnListener l)
               end
           end);
   DeviceEventEmitter_removeListener eventType fn)%js.

Definition removeAllListeners (eventType : option string) : M world unit :=
  DeviceEventEmitter_removeAllListeners eventType.

(** ** Properties *)

(** *** Family resolution *)

Lemma find_first {A} (f : A -> bool) (l : list A) (x : A) :
  find f l = Some x <->
  exists i : nat,
    l !! i = Some x /\ f x = true /\
    forall (j : nat) (y : A), (j < i)%nat -> l !! j = Some y -> f y = false.
Proof.
  induction l as [|a l IH]; simpl.
  - split; [discriminate | intros (i & Hi & _); destruct i; discriminate].
  - destruct (f a) eqn:Ha.
    + split.
      * intros [= <-]. exists 0%nat. repeat split; auto. intros j y Hj; lia.
      * intros (i & Hi & Hx & Hlt). destruct i as [|i]; simpl in Hi.
        -- congruence.
        -- specialize (Hlt 0%nat a ltac:(lia) eq_refl). congruence.
    + rewrite IH. split.
      * intros (i & Hi & Hx & Hlt). exists (S i). repeat split; auto.
        intros [|j] y Hj Hy; simpl in Hy; [congruence|].
        apply (Hlt j); [lia | assumption].
      * intros (i & Hi & Hx & Hlt). destruct i as [|i]; simpl in Hi.
        -- congruence.
        -- exists i. repeat split; auto.
           intros j y Hj Hy. apply (Hlt (S j)); [lia | assumption].
Qed.

Lemma find_none_iff {A} (f : A -> bool) (l : list A) :
  find f l = None <-> forall x, x ∈ l -> f x = false.
Proof.
  induction l as [|a l IH]; simpl.
  - split; [intros _ x Hx; inversion Hx | reflexivity].
  - destruct (f a) eqn:Ha.
    + split; [discriminate|]. intros H.
      specialize (H a ltac:(left)). congruence.
    + rewrite IH. split.
      * intros H x Hx. apply elem_of_cons in Hx as [->|Hx]; auto.
      * intros H x Hx. apply H. now right.
Qed.

Lemma EVENT_PROCESSORS_values_spec (q : EventProcessor) :
  q ∈ EVENT_PROCESSORS_values <-> exists k, q = EVENT_PROCESSORS k.
Proof.
  unfold EVENT_PROCESSORS_values. rewrite list_elem_of_fmap. split.
  - intros (k & -> & _). now exists k.
  - intros (k & ->). exists k. split; [reflexivity|].
    destruct k; repeat (first [left; reflexivity | right]).
Qed.

Lemma find_processor_family (event : string) (p : EventProcessor) :
  find_processor event = Some p ->
  exists k, p = EVENT_PROCESSORS k /\ startsWith event (suffix p) = true.
Proof.
  unfold find_processor. intros H. apply find_some in H as [Hin Hs].
  apply list_elem_of_In, EVENT_PROCESSORS_values_spec in Hin as [k ->].
  eauto.
Qed.

(** In debug mode every event is logged before it is routed. *)
Definition onEvent_log (event data : string) (buffers : list (list Z))
           (w : world) : list effect :=
  if AgoraEnv.enableLogging (env w) && AgoraEnv.enableDebugLogging (env w)
  then [ELog LInfo [VStr "onEvent"; VStr event; VStr data;
                    VArr (map VBytes buffers) []]]
  else [].

(** C2: the family of an event is the first entry of [EVENT_PROCESSORS], in
    the order of the table, whose prefix starts the raw event name; and
    when no family's prefix does, [handleEvent] returns normally, leaving
    registries, bus and every other part of the state as they were, and
    having called no observer and published nothing: the only action is
    the [onEvent] log line that debug mode writes for every event. *)
Theorem C2_first_matching_family_or_drop (event : string) :
  (forall p : EventProcessor,
      find_processor event = Some p <->
      exists i : nat,
        EVENT_PROCESSORS_values !! i = Some p /\
        startsWith event (suffix p) = true /\
        forall (j : nat) (q : EventProcessor),
          (j < i)%nat -> EVENT_PROCESSORS_values !! j = Some q ->
          startsWith event (suffix q) = false) /\
  (forall (data : string) (buffers : list (list Z)) (w : world),
      (forall k : family,
          startsWith event (suffix (EVENT_PROCESSORS k)) = false) ->
      handleEvent event data buffers w =
        (Return tt,
         set_trace (trace w ++ onEvent_log event data buffers w) w)).
Proof.
  split.
  - intros p. unfold find_processor.
    apply (find_first (fun it => startsWith event (suffix it))).
  - intros data buffers w Hnone.
    assert (Hfind : find_processor event = None).
    { apply find_none_iff. intros q Hq.
      apply EVENT_PROCESSORS_values_spec in Hq as [k ->]. apply Hnone. }
    unfold handleEvent, onEvent_log, bind, isDebuggable, gets.
    rewrite Hfind.
    destruct (AgoraEnv.enableLogging (env w) &&
              AgoraEnv.enableDebugLogging (env w)); cbn.
    + reflexivity.
    + rewrite app_nil_r. destruct w; reflexivity.
Qed.

(** Whatever [handleEvent] throws stops at the callback registered with
    [OnEvent], which hands it to [console.error]. *)
Lemma call_back_with_buffer_returns (event data : string)
      (buffers : list (list Z)) (w : world) :
  fst (call_back_with_buffer event data buffers w) = Return tt.
Proof.
  unfold call_back_with_buffer, try_catch.
  destruct (handleEvent event data buffers w) as [[[]|e] w']; reflexivity.
Qed.

(** *** Preprocessing *)

(** How many times a trace shows a [preprocess] function being called. *)
Fixpoint preprocess_runs (t : list effect) : nat :=
  match t with
  | [] => 0
  | EPreprocess _ _ :: t' => S (preprocess_runs t')
  | _ :: t' => preprocess_runs t'
  end.

Lemma preprocess_runs_app (t1 t2 : list effect) :
  preprocess_runs (t1 ++ t2) = (preprocess_runs t1 + preprocess_runs t2)%nat.
Proof.
  induction t1 as [|e t1 IH]; simpl; [reflexivity|].
  destruct e; simpl; rewrite IH; reflexivity.
Qed.

Definition is_preprocess (e : effect) : bool :=
  match e with EPreprocess _ _ => true | _ => false end.

Definition is_observer_apply (e : effect) : bool :=
  match e with EApply _ (TObserver _) _ _ => true | _ => false end.

Lemma preprocess_runs_none (d : list effect) :
  Forall (fun e => is_preprocess e = false) d -> preprocess_runs d = 0%nat.
Proof.
  induction 1 as [|e d He _ IH]; [reflexivity|].
  destruct e; simpl in *; auto; discriminate.
Qed.

(** [appends P m]: whatever [m] does, it only adds actions to the end of
    the trace, and each of them satisfies [P]. *)
Definition appends (P : effect -> Prop) {A} (m : M world A) : Prop :=
  forall w, exists d, trace (snd (m w)) = trace w ++ d /\ Forall P d.

Section Appends.
Variable P : effect -> Prop.

Lemma appends_ret {A} (a : A) : appends P (ret a).
Proof. intros w. exists []. simpl. now rewrite app_nil_r. Qed.

Lemma appends_throw {A} (e : value) : appends P (@throw world A e).
Proof. intros w. exists []. simpl. now rewrite app_nil_r. Qed.

Lemma appends_lift_outcome {A} (o : outcome A) : appends P (lift_outcome o).
Proof. intros w. exists []. simpl. now rewrite app_nil_r. Qed.

Lemma appends_gets {A} (f : world -> A) : appends P (gets f).
Proof. intros w. exists []. simpl. now rewrite app_nil_r. Qed.

Lemma appends_read {A} (f : world -> outcome A) :
  appends P (fun w => (f w, w)).
Proof. intros w. exists []. simpl. now rewrite app_nil_r. Qed.

Lemma appends_perform (e : effect) : P e -> appends P (perform e).
Proof.
  intros He w. exists [e]. split; [destruct w; reflexivity|].
  now constructor.
Qed.

Lemma appends_bind {A B} (m : M world A) (k : A -> M world B) :
  appends P m -> (forall a, appends P (k a)) -> appends P (bind m k).
Proof.
  intros Hm Hk w. unfold bind. destruct (Hm w) as (d1 & E1 & R1).
  destruct (m w) as [[a|e] w1]; simpl in *.
  - destruct (Hk a w1) as (d2 & E2 & R2). exists (d1 ++ d2).
    rewrite E2, E1, app_assoc. split; [reflexivity|].
    now apply Forall_app.
  - exists d1. auto.
Qed.

Lemma appends_for_each {A} (f : A -> M world unit) (xs : list A) :
  (forall x, appends P (f x)) -> appends P (for_each f xs).
Proof.
  intros Hf. induction xs as [|x xs IH]; simpl.
  - apply appends_ret.
  - apply appends_bind; [apply Hf | intros _; exact IH].
Qed.

Lemma appends_if {A} (b : bool) (m1 m2 : M world A) :
  appends P m1 -> appends P m2 -> appends P (if b then m1 else m2).
Proof. destruct b; auto. Qed.

Lemma appends_apply_fn it t event data :
  P (EApply it t event data) -> appends P (apply_fn it t event data).
Proof.
  intros HP. unfold apply_fn. apply appends_bind; [now apply appends_perform|].
  intros _. apply (appends_read (fun w => process w it t event data)).
Qed.

(** What the bus does: it publishes and calls listeners. *)
Hypothesis P_emit : forall event, P (EEmit event).
Hypothesis P_listener :
  forall it eventType l event data,
    P (EApply it (TListener eventType l) event data).

Lemma appends_run_callback c p data : appends P (run_callback c p data).
Proof using P_emit P_listener.
  unfold run_callback. apply appends_bind; [apply appends_lift_outcome|].
  intros t. apply appends_if; [|apply appends_ret].
  apply appends_for_each. intros it. apply appends_apply_fn, P_listener.
Qed.

Lemma appends_emit event p data : appends P (emit event p data).
Proof using P_emit P_listener.
  unfold emit. apply appends_bind; [apply appends_perform, P_emit|].
  intros _. apply appends_bind; [apply appends_gets|]. intros subs.
  apply appends_for_each. intros sub. apply appends_run_callback.
Qed.

(** Once the [preprocess] reference is cleared, republishing does what
    the bus does and no more. *)
Lemma appends_emitEvent_cleared event p data buffers :
  preprocess p = None -> appends P (emitEvent event p data buffers).
Proof using P_emit P_listener.
  intros Hp. unfold emitEvent, listenerCount.
  apply appends_bind; [apply appends_gets|]. intros n.
  apply appends_if; [apply appends_ret|]. rewrite Hp. apply appends_emit.
Qed.

Lemma appends_emitEvent event p data buffers :
  (forall f ev, P (EPreprocess f ev)) ->
  appends P (emitEvent event p data buffers).
Proof using P_emit P_listener.
  intros HP. unfold emitEvent, listenerCount.
  apply appends_bind; [apply appends_gets|]. intros n.
  apply appends_if; [apply appends_ret|].
  destruct (preprocess p) as [pp|]; [|apply appends_emit].
  apply appends_bind; [|intros d; apply appends_emit].
  unfold run_preprocess.
  apply appends_bind; [apply appends_perform, HP|].
  intros _. apply appends_lift_outcome.
Qed.

Lemma appends_apply_loop (fs : list process_fn) (event : string)
      (data : value) (hs : list (option observer)) :
  (forall it o, P (EApply it (TObserver o) event data)) ->
  appends P (for_each (fun v : option observer =>
           match v with
           | Some o =>
               for_each (fun it => apply_fn it (TObserver o) event data) fs
           | None => ret tt
           end) hs).
Proof.
  intros HP. apply appends_for_each. intros [o|]; [|apply appends_ret].
  apply appends_for_each. intros it. apply appends_apply_fn, HP.
Qed.

End Appends.

(** Target resolution only reads the registries: its answer does not
    depend on the trace, and it leaves the state alone. *)
Lemma handlers_reads (k : family) (event : string) (data : value)
      (w : world) (t : list effect) :
  handlers (EVENT_PROCESSORS k) event data (set_trace t w) =
    (fst (handlers (EVENT_PROCESSORS k) event data w), set_trace t w).
Proof.
  destruct k; simpl;
    unfold static_handlers, player_handlers, bind, gets, lift_outcome, ret;
    try reflexivity;
    repeat match goal with
           | |- context [match ?x with _ => _ end] =>
               lazymatch x with
               | get_prop _ _ => destruct x
               | has_prop _ _ => destruct x as [[|]|]
               | String.eqb _ _ => destruct x
               | is_zero _ => destruct x
               | (if _ then _ else _) => fail
               end
           | |- context [if ?x then _ else _] =>
               lazymatch x with
               | String.eqb _ _ => destruct x
               | is_zero _ => destruct x
               end
           end; simpl; try reflexivity.
Qed.

Lemma trace_set_trace (t : list effect) (w : world) :
  trace (set_trace t w) = t.
Proof. reflexivity. Qed.

Lemma preprocess_runs_onEvent_log event data buffers w :
  preprocess_runs (onEvent_log event data buffers w) = 0%nat.
Proof. unfold onEvent_log. now destruct (_ && _). Qed.

(** The first two statements of [handleEvent]: the debug log. *)
Lemma handleEvent_after_log event data buffers w :
  handleEvent event data buffers w =
    (match find_processor event with
     | None => ret tt
     | Some processor =>
         let _event := normalize processor event in
         let _data := parse_payload data in
         hs <- handlers processor _event _data;
         pd <- match hs with
               | None => ret (processor, _data)
               | Some hs =>
                   pd <- match preprocess processor with
                         | Some p =>
                             d <- run_preprocess (name processor) p _event
                                                 _data buffers;
                             ret (clear_preprocess processor, d)
                         | None => ret (processor, _data)
                         end;
                   for_each (fun v : option observer =>
                     match v with
                     | Some o =>
                         for_each (fun it =>
                           apply_fn it (TObserver o) _event (snd pd))
                           (func processor)
                     | None => ret tt
                     end) hs;;
                   ret pd
               end;
         emitEvent _event (fst pd) (snd pd) (Some buffers)
     end)%js
    (set_trace (trace w ++ onEvent_log event data buffers w) w).
Proof.
  unfold handleEvent at 1, onEvent_log.
  unfold bind at 1, isDebuggable, gets.
  destruct (AgoraEnv.enableLogging (env w) &&
            AgoraEnv.enableDebugLogging (env w)).
  - reflexivity.
  - unfold bind at 1. simpl. rewrite app_nil_r. destruct w; reflexivity.
Qed.

(** *** The table of families as an object

    [EVENT_PROCESSORS] is an exported object, and [emitEvent] assigns
    [undefined] to the [preprocess] field of the descriptor it is handed.
    [handleEvent] hands it a copy of the table entry
    ([processor = { ...processor }]); a caller that hands it the entry
    itself, as the tests of the repository do, changes the table.  No other
    field of an entry is ever assigned to, so the state of the table is the
    list of the families whose entry has lost its [preprocess]. *)

Definition families : list family :=
  [IAudioFrameObserver; IVideoFrameObserver; IAudioSpectrumObserver;
   IAudioEncodedFrameObserver; IVideoEncodedFrameObserver;
   IMediaPlayerSourceObserver; IAudioPcmFrameSink;
   IMediaPlayerVideoFrameObserver; IMediaRecorderObserver;
   IMetadataObserver; IDirectCdnStreamingEventHandler;
   IRtcEngineEventHandler; IMusicContentCenterEventHandler].

Record session : Type := {
  ss_world : world;
  ss_cleared : list family
}.

(** [EVENT_PROCESSORS[k]] as the table has it now. *)
Definition entry (cleared : list family) (k : family) : EventProcessor :=
  if bool_decide (k ∈ cleared)
  then clear_preprocess (EVENT_PROCESSORS k)
  else EVENT_PROCESSORS k.

(** [Object.values(EVENT_PROCESSORS).find(it => event.startsWith(it.suffix))]
    on the table as it is now. *)
Definition find_entry (cleared : list family) (event : string)
  : option EventProcessor :=
  find (fun it => startsWith event (suffix it)) (map (entry cleared) families).

(** A computation that does not touch the table. *)
Definition on_world {A} (m : M world A) : M session A :=
  fun s =>
    (fst (m (ss_world s)),
     {| ss_world := snd (m (ss_world s)); ss_cleared := ss_cleared s |}).

(** [handleEvent] from the copy on: [processor] is the copy, and the
    assignment [processor.preprocess = undefined] shows in the descriptor
    handed to [emitEvent]. *)
Definition dispatch (processor : EventProcessor) (event data : string)
           (buffers : list (list Z)) : M world unit :=
  (let _event := normalize processor event in
   let _data := parse_payload data in
   hs <- handlers processor _event _data;
   pd <- match hs with
         | None => ret (processor, _data)
         | Some hs =>
             pd <- match preprocess processor with
                   | Some p =>
                       d <- run_preprocess (name processor) p _event
                                           _data buffers;
                       (* call preprocess only once *)
                       ret (clear_preprocess processor, d)
                   | None => ret (processor, _data)
                   end;
             for_each (fun v : option observer =>
               match v with
               | Some o =>
                   for_each (fun it =>
                     apply_fn it (TObserver o) _event (snd pd))
                     (func processor)
               | None => ret tt
               end) hs;;
             ret pd
         end;
   emitEvent _event (fst pd) (snd pd) (Some buffers))%js.

(** [handleEvent] reading the table as it is now.  What it writes, it
    writes to its copy. *)
Definition handleEvent_session (event data : string) (buffers : list (list Z))
  : M session unit :=
  (dbg <- on_world isDebuggable;
   (if dbg : bool
    then on_world (logInfo [VStr "onEvent"; VStr event; VStr data;
                            VArr (map VBytes buffers) []])
    else ret tt);;
   found <- gets (fun s => find_entry (ss_cleared s) event);
   match found with
   | None => ret tt
   | Some processor =>
       (* allow replace preprocess to undefined for avoid call more than
          once: processor = { ...processor } *)
       on_world (dispatch processor event data buffers)
   end)%js.

(** [emitEvent(eventType, EVENT_PROCESSORS[k], data, buffers)]: the
    descriptor is the table entry itself, and the assignment
    [eventProcessor.preprocess = undefined] changes the table. *)
Definition emitEvent_entry (eventType : string) (k : family) (data : value)
           (buffers : option (list (list Z))) : M session unit :=
  (n <- on_world (listenerCount eventType);
   if Nat.eqb n 0 then ret tt
   else
     eventProcessor <- gets (fun s => entry (ss_cleared s) k);
     match preprocess eventProcessor with
     | Some p =>
         data' <- on_world (run_preprocess (name eventProcessor) p eventType
                                           data (default [] buffers));
         (* call preprocess only once *)
         modify (fun s => {| ss_world := ss_world s;
                             ss_cleared := k :: ss_cleared s |});;
         eventProcessor' <- gets (fun s => entry (ss_cleared s) k);
         on_world (emit eventType eventProcessor' data')
     | None => on_world (emit eventType eventProcessor data)
     end)%js.

(** The payload every call recorded in [e] was made with is [d]. *)
Definition carries (d : value) (e : effect) : Prop :=
  forall it t ev d0, e = EApply it t ev d0 -> d0 = d.

(** [starts_with e m]: the first thing [m] does is [e]. *)
Definition starts_with (e : effect) {A} (m : M world A) : Prop :=
  forall w, exists rest, trace (snd (m w)) = trace w ++ e :: rest.

Lemma EVENT_PROCESSORS_values_families :
  EVENT_PROCESSORS_values = map EVENT_PROCESSORS families.
Proof. reflexivity. Qed.

(** [handleEvent] is the log line, family resolution on the table as the
    source text has it, and [dispatch]. *)
Lemma handleEvent_dispatch (event data : string) (buffers : list (list Z)) :
  handleEvent event data buffers =
    (dbg <- isDebuggable;
     (if dbg : bool
      then logInfo [VStr "onEvent"; VStr event; VStr data;
                    VArr (map VBytes buffers) []]
      else ret tt);;
     match find_processor event with
     | None => ret tt
     | Some processor => dispatch processor event data buffers
     end)%js.
Proof. reflexivity. Qed.

Lemma entry_intact (k : family) : entry [] k = EVENT_PROCESSORS k.
Proof. reflexivity. Qed.

Lemma find_entry_intact (event : string) :
  find_entry [] event = find_processor event.
Proof. reflexivity. Qed.

(** As long as no entry of the table has been assigned to, [handleEvent]
    on the table is the [handleEvent] of the properties below. *)
Lemma handleEvent_session_intact (event data : string)
      (buffers : list (list Z)) (s : session) :
  ss_cleared s = [] ->
  handleEvent_session event data buffers s =
    on_world (handleEvent event data buffers) s.
Proof.
destruct s as [w c]. cbn [ss_cleared]. intros ->.
rewrite handleEvent_dispatch.
unfold handleEvent_session, on_world, bind, isDebuggable, gets, ret.
cbn [fst snd ss_world ss_cleared].
destruct (AgoraEnv.enableLogging (env w) && AgoraEnv.enableDebugLogging (env w));
  cbn [fst snd ss_world ss_cleared logInfo perform modify];
  change (find_entry [] event) with (find_processor event);
  destruct (find_processor event) as [p|]; reflexivity.
Qed.

(** [handleEvent] leaves the table as it found it. *)
Lemma handleEvent_session_keeps_table (event data : string)
      (buffers : list (list Z)) (s : session) :
  ss_cleared (snd (handleEvent_session event data buffers s)) = ss_cleared s.
Proof.
unfold handleEvent_session, on_world, bind, isDebuggable, gets, ret.
cbn [fst snd ss_world ss_cleared].
destruct (AgoraEnv.enableLogging (env (ss_world s)) &&
          AgoraEnv.enableDebugLogging (env (ss_world s)));
  cbn [fst snd ss_world ss_cleared logInfo perform modify];
  destruct (find_entry (ss_cleared s) event) as [p|]; try reflexivity;
  match goal with
  | |- context [dispatch p event data buffers ?w] =>
      destruct (dispatch p event data buffers w) as [[[]|e] w']
  end; reflexivity.
Qed.

Lemma entry_family (cleared : list family) (event : string)
      (p : EventProcessor) :
  find_entry cleared event = Some p ->
  exists k, p = entry cleared k /\ name p = k /\
            handlers p = handlers (EVENT_PROCESSORS k).
Proof.
intros Hfind. apply find_some in Hfind as [Hin _].
apply in_map_iff in Hin as (k & <- & _). exists k.
unfold entry. destruct (bool_decide (k ∈ cleared)); destruct k; repeat split.
Qed.

Lemma starts_apply_fn it t event data :
  starts_with (EApply it t event data) (apply_fn it t event data).
Proof. intros w. exists []. reflexivity. Qed.

Lemma starts_bind (e : effect) {A B} (m : M world A) (k : A -> M world B) :
  starts_with e m -> (forall a, appends (fun _ => True) (k a)) ->
  starts_with e (bind m k).
Proof.
intros Hm Hk w. unfold bind. destruct (Hm w) as (rest & E).
destruct (m w) as [[a|x] w1]; cbn [snd] in *.
- destruct (Hk a w1) as (d & Ed & _). exists (rest ++ d).
  rewrite Ed, E, <- app_assoc. reflexivity.
- now exists rest.
Qed.

(** The apply loop starts with the first function on the first target. *)
Lemma apply_loop_starts (fs : list process_fn) (event : string) (data : value)
      (o : observer) (hs : list (option observer)) (it : process_fn) :
  starts_with (EApply it (TObserver o) event data)
    (for_each (fun v : option observer =>
       match v with
       | Some o =>
           for_each (fun it => apply_fn it (TObserver o) event data)
                    (it :: fs)
       | None => ret tt
       end) (Some o :: hs)).
Proof.
set (G := fun o (it : process_fn) => apply_fn it (TObserver o) event data).
set (F := fun v : option observer =>
            match v with
            | Some o => for_each (G o) (it :: fs)
            | None => ret tt
            end).
change (starts_with (EApply it (TObserver o) event data)
          (bind (bind (G o it) (fun _ => for_each (G o) fs))
                (fun _ => for_each F hs))).
apply starts_bind.
- apply starts_bind; [apply starts_apply_fn|].
  intros _. apply appends_for_each. intros it'.
  now apply appends_apply_fn.
- intros _. apply appends_for_each. intros [o'|]; [|apply appends_ret].
  apply appends_for_each. intros it'. now apply appends_apply_fn.
Qed.

(** Publishing on the bus with the payload [data]. *)
Lemma appends_emit_payload (P : effect -> Prop) event p data :
  P (EEmit event) -> (forall it t ev, P (EApply it t ev data)) ->
  appends P (emit event p data).
Proof.
intros Hemit Happly. unfold emit.
apply appends_bind; [now apply appends_perform|].
intros _. apply appends_bind; [apply appends_gets|]. intros subs.
apply appends_for_each. intros sub. unfold run_callback.
apply appends_bind; [apply appends_lift_outcome|].
intros t. apply appends_if; [|apply appends_ret].
apply appends_for_each. intros it. apply appends_apply_fn, Happly.
Qed.

(** For the bus and the trace, [emitEvent] on a table entry is [emitEvent]
    on the descriptor the entry holds; the entry loses its [preprocess]
    when the function was called and returned. *)
Lemma emitEvent_entry_world (eventType : string) (k : family) (data : value)
      (buffers : option (list (list Z))) (s : session) :
  let r := emitEvent_entry eventType k data buffers s in
  let r0 := emitEvent eventType (entry (ss_cleared s) k) data buffers
                      (ss_world s) in
  fst r = fst r0 /\ ss_world (snd r) = snd r0 /\
  (ss_cleared (snd r) = ss_cleared s \/
   ss_cleared (snd r) = k :: ss_cleared s /\
   EPreprocess k eventType ∈ trace (snd r0)).
Proof.
destruct s as [w c]. cbn zeta.
assert (Hname : name (EVENT_PROCESSORS k) = k) by now destruct k.
assert (Hnew : entry (k :: c) k = clear_preprocess (EVENT_PROCESSORS k)).
{ unfold entry. rewrite bool_decide_eq_true_2; [reflexivity | now left]. }
unfold emitEvent_entry, emitEvent, on_world, listenerCount, bind, gets, ret,
  modify.
cbn [fst snd ss_world ss_cleared].
destruct (Nat.eqb _ 0); [now repeat split; try left|].
cbn [fst snd ss_world ss_cleared].
destruct (bool_decide (k ∈ c)) eqn:Hk.
- assert (He : entry c k = clear_preprocess (EVENT_PROCESSORS k))
    by (unfold entry; now rewrite Hk).
  rewrite He. cbn [preprocess clear_preprocess fst snd ss_world ss_cleared].
  repeat split. now left.
- assert (He : entry c k = EVENT_PROCESSORS k)
    by (unfold entry; now rewrite Hk).
  rewrite He.
  destruct (preprocess (EVENT_PROCESSORS k)) as [pp|] eqn:Hpp;
    cbn [fst snd ss_world ss_cleared]; [|repeat split; now left].
  unfold run_preprocess, bind, perform, modify, lift_outcome.
  cbn [fst snd ss_world ss_cleared]. rewrite Hname.
  destruct (pp eventType data (default [] buffers)) as [d|e];
    cbn [fst snd ss_world ss_cleared]; [|repeat split; now left].
  rewrite Hnew. repeat split. right. split; [reflexivity|].
  assert (Happ : appends (fun _ => True)
                   (emit eventType (clear_preprocess (EVENT_PROCESSORS k)) d))
    by (apply appends_emit_payload; intros; exact I).
  destruct (Happ (set_trace (trace w ++ [EPreprocess k eventType]) w))
    as (delta & -> & _).
  rewrite trace_set_trace, !elem_of_app, list_elem_of_singleton. auto.
Qed.

(** A dispatch on a descriptor with a [preprocess] function and resolved
    targets: the function is called first, and everybody called afterwards
    is called with what it returned. *)
Lemma dispatch_preprocessed
      (p : EventProcessor)
      (pp : string -> value -> list (list Z) -> outcome value)
      (hs : list (option observer))
      (event data : string) (buffers : list (list Z)) (w : world) :
  preprocess p = Some pp ->
  handlers p (normalize p event) (parse_payload data) w =
    (Return (Some hs), w) ->
  let ev := normalize p event in
  (forall d',
      pp ev (parse_payload data) buffers = Return d' ->
      exists after,
        trace (snd (dispatch p event data buffers w)) =
          trace w ++ EPreprocess (name p) ev :: after /\
        Forall (fun e => is_preprocess e = false /\ carries d' e) after /\
        forall o hs' it fs,
          hs = Some o :: hs' -> func p = it :: fs ->
          exists rest, after = EApply it (TObserver o) ev d' :: rest) /\
  (forall e,
      pp ev (parse_payload data) buffers = Throw e ->
      dispatch p event data buffers w =
        (Throw e, set_trace (trace w ++ [EPreprocess (name p) ev]) w)).
Proof.
intros Hpp Hhs ev. change (normalize p event) with ev in Hhs.
assert (Hstart : forall r,
           pp ev (parse_payload data) buffers = r ->
           dispatch p event data buffers w =
             (pd <- (pd <- (fun w2 => (match r with
                                      | Return d => Return (clear_preprocess p, d)
                                      | Throw e => Throw e
                                      end, w2));
                     for_each (fun v : option observer =>
                       match v with
                       | Some o =>
                           for_each (fun it =>
                             apply_fn it (TObserver o) ev (snd pd)) (func p)
                       | None => ret tt
                       end) hs;;
                     ret pd);
              emitEvent ev (fst pd) (snd pd) (Some buffers))%js
             (set_trace (trace w ++ [EPreprocess (name p) ev]) w)).
{ intros r <-. unfold dispatch. cbv zeta. fold ev.
  unfold bind at 1. rewrite Hhs, Hpp.
  unfold bind at 1. unfold bind at 1. unfold bind at 1.
  unfold run_preprocess at 1. unfold bind at 1.
  unfold perform at 1, modify at 1.
  unfold lift_outcome at 1. unfold bind.
  destruct (pp ev (parse_payload data) buffers); reflexivity. }
split.
- intros d' Hd'. rewrite (Hstart _ Hd').
  unfold bind at 1. unfold bind at 1. unfold bind at 1. cbn [fst snd].
  set (P := fun e => is_preprocess e = false /\ carries d' e).
  set (w2 := set_trace (_ ++ [_]) _).
  set (loop := for_each _ hs).
  assert (HP : forall it t ev0, P (EApply it t ev0 d')).
  { intros it t ev0. split; [reflexivity|]. now intros ? ? ? ? [= _ _ _ <-]. }
  destruct (appends_apply_loop P (func p) ev d' hs
              ltac:(intros; apply HP) w2) as (d1 & E1 & R1).
  fold loop in E1.
  assert (Hfirst : forall o hs' it fs,
             hs = Some o :: hs' -> func p = it :: fs ->
             exists rest, d1 = EApply it (TObserver o) ev d' :: rest).
  { intros o hs' it fs Hhs' Hfs.
    destruct (apply_loop_starts fs ev d' o hs' it w2) as (rest & E).
    exists rest. apply (app_inv_head (trace w2)).
    rewrite <- E1, <- E. unfold loop. now rewrite Hhs', Hfs. }
  destruct (loop w2) as [[[]|e] w3]; cbn [fst snd] in E1.
  + unfold ret at 1. cbn [fst snd].
    assert (Hemit : appends P (emitEvent ev (clear_preprocess p) d'
                                         (Some buffers))).
    { unfold emitEvent, listenerCount.
      apply appends_bind; [apply appends_gets|]. intros n.
      apply appends_if; [apply appends_ret|]. cbn [preprocess clear_preprocess].
      apply appends_emit_payload; [|exact HP].
      split; [reflexivity|]. intros ? ? ? ?. discriminate. }
    destruct (Hemit w3) as (d2 & E2 & R2).
    exists (d1 ++ d2). rewrite E2, E1. subst w2. rewrite !trace_set_trace.
    split; [now rewrite <- !app_assoc|]. split; [now apply Forall_app|].
    intros o hs' it fs Hhs' Hfs.
    destruct (Hfirst o hs' it fs Hhs' Hfs) as (rest & ->).
    now exists (rest ++ d2).
  + exists d1. cbn [snd]. rewrite E1. subst w2. rewrite !trace_set_trace.
    split; [now rewrite <- !app_assoc|]. split; [exact R1|exact Hfirst].
- intros e He. rewrite (Hstart _ He). reflexivity.
Qed.

(** C1: when the name of an event matches a family whose table entry has
    its [preprocess] function, and target resolution returns a list, the
    dispatch runs that function exactly once and hands its result on.  The
    trace of the dispatch is what was there, the debug log line, the one
    call of [preprocess], and then actions none of which is a call of
    [preprocess]; every observer and listener called in those actions
    receives the payload that this one run of the function returned on the
    parsed payload and the raw buffers, the first function starting on the
    first target; and when the function throws, the dispatch ends with its
    exception and nobody is called.  This holds for any list of targets, any
    [func] array, any subscriptions on the bus, and whether or not the
    dispatch is cut short by an exception; the table is left as it was. *)
Theorem C1_preprocess_exactly_once
        (s : session) (event data : string) (buffers : list (list Z))
        (p : EventProcessor)
        (pp : string -> value -> list (list Z) -> outcome value)
        (hs : list (option observer)) :
  find_entry (ss_cleared s) event = Some p ->
  preprocess p = Some pp ->
  fst (handlers p (normalize p event) (parse_payload data) (ss_world s))
    = Return (Some hs) ->
  let w := ss_world s in
  let ev := normalize p event in
  let r := handleEvent_session event data buffers s in
  ss_cleared (snd r) = ss_cleared s /\
  (forall d',
      pp ev (parse_payload data) buffers = Return d' ->
      exists after : list effect,
        trace (ss_world (snd r)) =
          trace w ++ onEvent_log event data buffers w ++
            EPreprocess (name p) ev :: after /\
        preprocess_runs after = 0%nat /\
        Forall (carries d') after /\
        forall o hs' it fs,
          hs = Some o :: hs' -> func p = it :: fs ->
          exists rest, after = EApply it (TObserver o) ev d' :: rest) /\
  (forall e,
      pp ev (parse_payload data) buffers = Throw e ->
      r = (Throw e,
           {| ss_world :=
                set_trace (trace w ++ onEvent_log event data buffers w ++
                           [EPreprocess (name p) ev]) w;
              ss_cleared := ss_cleared s |})).
Proof.
intros Hfind Hpp Hhs w ev r.
split; [apply handleEvent_session_keeps_table|].
destruct (entry_family _ _ _ Hfind) as (k & _ & _ & Hk).
set (w1 := set_trace (trace w ++ onEvent_log event data buffers w) w).
assert (Hr : r = on_world (dispatch p event data buffers)
                   {| ss_world := w1; ss_cleared := ss_cleared s |}).
{ subst r w1. unfold handleEvent_session, onEvent_log.
  unfold bind at 1. unfold on_world at 1, isDebuggable, gets.
  cbn [fst snd ss_world ss_cleared]. fold w.
  destruct (AgoraEnv.enableLogging (env w) &&
            AgoraEnv.enableDebugLogging (env w)).
  - unfold bind at 1. unfold on_world at 1, logInfo, perform, modify.
    cbn [fst snd ss_world ss_cleared]. fold w.
    unfold bind at 1. cbn [fst snd ss_world ss_cleared].
    now rewrite Hfind.
  - unfold bind at 1. unfold ret at 1.
    unfold bind at 1. cbn [fst snd ss_world ss_cleared].
    rewrite Hfind, app_nil_r.
    replace (set_trace (trace w) w) with w by (destruct w; reflexivity).
    destruct s; reflexivity. }
assert (Hh : handlers p ev (parse_payload data) w1 = (Return (Some hs), w1)).
{ subst w1 ev w. rewrite Hk, handlers_reads, <- Hk, Hhs. reflexivity. }
destruct (dispatch_preprocessed p pp hs event data buffers w1 Hpp Hh)
  as [Hreturn Hthrow].
split.
- intros d' Hd'. destruct (Hreturn d' Hd') as (after & E & R & Hfirst).
  exists after. rewrite Hr. unfold on_world. cbn [snd ss_world].
  rewrite E. subst w1. rewrite trace_set_trace, <- app_assoc.
  split; [reflexivity|]. split; [|split; [|exact Hfirst]].
  + apply preprocess_runs_none. eapply Forall_impl; [exact R|].
    now intros e [He _].
  + eapply Forall_impl; [exact R|]. now intros e [_ He].
- intros e He. rewrite Hr. unfold on_world. cbn [ss_world ss_cleared].
  rewrite (Hthrow e He). cbn [fst snd]. subst w1.
  now rewrite trace_set_trace, <- app_assoc.
Qed.

(** *** Events without targets *)

(** The payload as the family's [preprocess] leaves it, when there is one. *)
Definition preprocessed (p : EventProcessor) (event : string) (data : value)
           (buffers : list (list Z)) : outcome value :=
  match preprocess p with
  | Some pp => pp event data buffers
  | None => Return data
  end.

Lemma appends_anything {A} (m : M world A) (e : effect) (w : world) :
  appends (fun _ => True) m -> e ∈ trace w -> e ∈ trace (snd (m w)).
Proof.
  intros Hm He. destruct (Hm w) as (d & -> & _).
  apply elem_of_app. now left.
Qed.

Lemma emit_calls_first_listener
      (event : string) (p : EventProcessor) (data : value) (w : world)
      (event0 : string) (c : callback) (rest : list (string * callback))
      (it : process_fn) (fs : list process_fn) :
  filter (fun sub => subscribed event sub) (DeviceEventEmitter w)
    = (event0, c) :: rest ->
  type p data = Return (cb_kind c) ->
  func p = it :: fs ->
  EApply it (TListener (cb_eventType c) (cb_listener c)) (cb_eventType c) data
    ∈ trace (snd (emit event p data w)).
Proof.
  intros Hsubs Htype Hfunc.
  unfold emit. unfold bind at 1. unfold perform at 1, modify at 1.
  unfold bind at 1. unfold gets at 1. cbn [DeviceEventEmitter set_trace].
  rewrite Hsubs. cbn [for_each snd].
  unfold bind at 1. unfold run_callback at 1.
  unfold bind at 1. unfold lift_outcome at 1. rewrite Htype.
  rewrite bool_decide_eq_true_2 by reflexivity. rewrite Hfunc.
  cbn [for_each]. unfold bind at 1. unfold apply_fn at 1.
  unfold bind at 1. unfold perform at 1, modify at 1.
  set (w2 := set_trace (_ ++ [EApply _ _ _ _]) _).
  assert (Hin : EApply it (TListener (cb_eventType c) (cb_listener c))
                       (cb_eventType c) data ∈ trace w2).
  { subst w2. rewrite trace_set_trace. apply elem_of_app. right.
    apply list_elem_of_singleton. reflexivity. }
  destruct (process w2 it _ _ _) as [[]|e]; cbn [snd].
  - set (more := for_each _ fs).
    pose proof (appends_anything more _ w2
                  ltac:(apply appends_for_each; intros;
                        now apply appends_apply_fn) Hin) as Hin3.
    destruct (more w2) as [[[]|e] w3]; cbn [snd] in *; [|exact Hin3].
    apply appends_anything; [|exact Hin3].
    apply appends_for_each. intros sub. now apply appends_run_callback.
  - exact Hin.
Qed.

(** C10: when the family matches but target resolution returns
    [undefined], [handleEvent] is, after the debug log, exactly the
    republishing step [emitEvent] on the untouched family entry (its
    [preprocess] reference still set, so that it runs there); no
    registered observer is called; and when a listener is subscribed to
    the normalized name, with a callback that lets the family's event type
    through, the listener is called with the preprocessed payload. *)
Theorem C10_no_targets_still_republished
        (w : world) (event data : string) (buffers : list (list Z))
        (p : EventProcessor) :
  find_processor event = Some p ->
  fst (handlers p (normalize p event) (parse_payload data) w)
    = Return None ->
  handleEvent event data buffers w =
    emitEvent (normalize p event) p (parse_payload data) (Some buffers)
      (set_trace (trace w ++ onEvent_log event data buffers w) w) /\
  (exists d : list effect,
      trace (snd (handleEvent event data buffers w)) = trace w ++ d /\
      Forall (fun e => is_observer_apply e = false) d) /\
  (forall (event0 : string) (c : callback) (rest : list (string * callback))
          (data' : value) (it : process_fn) (fs : list process_fn),
      filter (fun sub => subscribed (normalize p event) sub)
             (DeviceEventEmitter w) = (event0, c) :: rest ->
      preprocessed p (normalize p event) (parse_payload data) buffers
        = Return data' ->
      type p data' = Return (cb_kind c) ->
      func p = it :: fs ->
      EApply it (TListener (cb_eventType c) (cb_listener c))
             (cb_eventType c) data'
        ∈ trace (snd (handleEvent event data buffers w))).
Proof.
  intros Hfind Hhs.
  destruct (find_processor_family _ _ Hfind) as (k & Hk & _).
  assert (Hr : forall ev d t,
             handlers p ev d (set_trace t w) =
               (fst (handlers p ev d w), set_trace t w))
    by (intros; rewrite Hk; apply handlers_reads).
  assert (Heq : handleEvent event data buffers w =
            emitEvent (normalize p event) p (parse_payload data) (Some buffers)
              (set_trace (trace w ++ onEvent_log event data buffers w) w)).
  { rewrite handleEvent_after_log, Hfind. cbv zeta.
    unfold bind at 1. rewrite Hr, Hhs. reflexivity. }
  split; [exact Heq|]. rewrite Heq. split.
  - destruct (appends_emitEvent (fun e => is_observer_apply e = false)
                ltac:(reflexivity) ltac:(reflexivity)
                (normalize p event) p (parse_payload data) (Some buffers)
                ltac:(reflexivity)
                (set_trace (trace w ++ onEvent_log event data buffers w) w))
      as (d & E & R).
    exists (onEvent_log event data buffers w ++ d).
    rewrite E, trace_set_trace, app_assoc. split; [reflexivity|].
    apply Forall_app. split; [|exact R].
    unfold onEvent_log. destruct (_ && _); repeat constructor.
  - intros event0 c rest data' it fs Hsubs Hpre Htype Hfunc.
    unfold emitEvent. unfold bind at 1. unfold listenerCount, gets.
    cbn [DeviceEventEmitter set_trace]. rewrite Hsubs. cbn [length Nat.eqb].
    unfold preprocessed in Hpre.
    destruct (preprocess p) as [pp|] eqn:Hpp.
    + unfold bind at 1. unfold run_preprocess at 1. unfold bind at 1.
      unfold perform at 1, modify at 1. unfold lift_outcome at 1.
      change (default [] (Some buffers)) with buffers. rewrite Hpre.
      apply emit_calls_first_listener with (event0 := event0) (rest := rest) (fs := fs);
        auto.
    + injection Hpre as ->.
      apply emit_calls_first_listener with (event0 := event0) (rest := rest) (fs := fs);
        auto.
Qed.

(** *** The call dispatcher *)

Definition log_world (e : effect) (s : call_state) : call_state :=
  {| cs_world := set_trace (trace (cs_world s) ++ [e]) (cs_world s);
     cs_params := cs_params s |}.

Definition debuggable (w : world) : bool :=
  AgoraEnv.enableLogging (env w) && AgoraEnv.enableDebugLogging (env w).

(** The level of the log line of a failure or of an empty answer. *)
Definition failure_level (w : world) : log_level :=
  if debuggable w then LError else LWarn.

Lemma call_native_spec (funcName : string) (buffers : list value)
      (s : call_state) (json : value) :
  JSON_stringify (cs_params s) = Return json ->
  call_native funcName buffers s =
    (CallApi (cs_world (log_world
                (ECallApi funcName json buffers (Z.of_nat (length buffers))) s))
             funcName json buffers (Z.of_nat (length buffers)),
     log_world (ECallApi funcName json buffers (Z.of_nat (length buffers))) s).
Proof.
  intros Hjson. unfold call_native, bind, stringify_params.
  rewrite Hjson. unfold in_world, perform, modify. reflexivity.
Qed.

(** The slots of a pushed video frame, in the order the source pushes
    them: [frame.buffer], a placeholder for [frame.eglContext], one for
    [frame.metadata_buffer], [frame.alphaBuffer], and a placeholder for
    [frame.d3d11_texture_2d]. *)
Definition pushVideoFrame_slots (fields : list (string * value)) : list value :=
  [ default VUndefined (lookup_prop "buffer" fields);
    Buffer_from_empty;
    Buffer_from_empty;
    default VUndefined (lookup_prop "alphaBuffer" fields);
    Buffer_from_empty ].

(** C3, as the code has it: for [MediaEngine_pushVideoFrame] with an
    argument object whose [frame] is an object, marshaling extracts
    exactly five slots, in this order: the frame buffer, two empty
    placeholders, the value of [frame.alphaBuffer] ([undefined] when the
    field is absent), one empty placeholder; it changes nothing else, and
    the boundary endpoint is then called with these five slots and the
    count 5. *)
Theorem C3_pushVideoFrame_five_slots
        (this : value) (s : call_state) (fields : list (string * value))
        (json : value) :
  get_prop (cs_params s) "frame" = Return (VObj fields) ->
  JSON_stringify (cs_params s) = Return json ->
  marshal this "MediaEngine_pushVideoFrame" s
    = (Return (Some (pushVideoFrame_slots fields)), s) /\
  length (pushVideoFrame_slots fields) = 5%nat /\
  (lookup_prop "alphaBuffer" fields = None ->
   pushVideoFrame_slots fields !! 3%nat = Some VUndefined) /\
  callIrisApi this "MediaEngine_pushVideoFrame" s =
    try_catch (invoke "MediaEngine_pushVideoFrame" (pushVideoFrame_slots fields))
              (fun e => on_failure "MediaEngine_pushVideoFrame" e;;
                        ret (VObj []))%js s /\
  call_native "MediaEngine_pushVideoFrame" (pushVideoFrame_slots fields) s =
    (let s' := log_world (ECallApi "MediaEngine_pushVideoFrame" json
                                   (pushVideoFrame_slots fields) 5) s in
     (CallApi (cs_world s') "MediaEngine_pushVideoFrame" json
              (pushVideoFrame_slots fields) 5, s')).
Proof.
  intros Hframe Hjson.
  assert (Hm : marshal this "MediaEngine_pushVideoFrame" s
               = (Return (Some (pushVideoFrame_slots fields)), s)).
  { unfold marshal. simpl.
    unfold bind, param, lift_outcome, ret. rewrite Hframe. reflexivity. }
  split; [exact Hm|]. split; [reflexivity|]. split.
  - intros Halpha. unfold pushVideoFrame_slots. rewrite Halpha. reflexivity.
  - split.
    + unfold callIrisApi, try_catch, try_block. unfold bind at 1.
      rewrite Hm. reflexivity.
    + cbv zeta. rewrite (call_native_spec _ _ _ _ Hjson). reflexivity.
Qed.

Lemma on_failure_spec (funcName : string) (e : value) (s : call_state)
      (json : value) :
  JSON_stringify (cs_params s) = Return json ->
  on_failure funcName e s =
    (Return tt,
     log_world (ELog (failure_level (cs_world s))
                     [VStr "callApi"; VStr funcName; json; e]) s).
Proof.
  intros Hjson.
  unfold on_failure, bind, in_world, isDebuggable, gets, stringify_params,
    failure_level, debuggable.
  cbn [cs_world cs_params]. rewrite Hjson.
  destruct (AgoraEnv.enableLogging (env (cs_world s)) &&
            AgoraEnv.enableDebugLogging (env (cs_world s))); reflexivity.
Qed.

(** What the [try]/[catch] of [callIrisApi] achieves: an exception of the
    [try] block is logged and turned into [{}] provided [params] can be
    serialized for the log line. *)
Lemma callIrisApi_catches (this : value) (funcName : string)
      (s s1 : call_state) (e json : value) :
  try_block this funcName s = (Throw e, s1) ->
  JSON_stringify (cs_params s1) = Return json ->
  callIrisApi this funcName s =
    (Return (VObj []),
     log_world (ELog (failure_level (cs_world s1))
                     [VStr "callApi"; VStr funcName; json; e]) s1).
Proof.
  intros Hbody Hjson. unfold callIrisApi, try_catch. rewrite Hbody.
  unfold bind. now rewrite (on_failure_spec _ _ _ _ Hjson).
Qed.

(** And what it does not: when serializing [params] throws in the [catch]
    block, that exception leaves [callIrisApi]. *)
Lemma callIrisApi_rethrows (this : value) (funcName : string)
      (s s1 : call_state) (e e' : value) :
  try_block this funcName s = (Throw e, s1) ->
  JSON_stringify (cs_params s1) = Throw e' ->
  callIrisApi this funcName s = (Throw e', s1).
Proof.
  intros Hbody Hjson. unfold callIrisApi, try_catch. rewrite Hbody.
  unfold bind at 1. unfold on_failure.
  unfold bind, in_world, isDebuggable, gets, stringify_params.
  cbn [cs_world cs_params]. rewrite Hjson. now destruct s1.
Qed.

Lemma callIrisApi_total_when_serializable (this : value) (funcName : string)
      (s : call_state) :
  (forall v, is_return (JSON_stringify v) = true) ->
  is_return (fst (callIrisApi this funcName s)) = true.
Proof.
  intros Hser. unfold callIrisApi, try_catch.
  destruct (try_block this funcName s) as [[v|e] s1]; [reflexivity|].
  specialize (Hser (cs_params s1)).
  destruct (JSON_stringify (cs_params s1)) as [json|e'] eqn:Hjson;
    [|discriminate].
  unfold bind. now rewrite (on_failure_spec _ _ _ _ Hjson).
Qed.

(** Only the release call leaves the [try] block before the generic call. *)
Lemma marshal_returns_early (this : value) (funcName : string)
      (s : call_state) :
  fst (marshal this funcName s) = Return None ->
  funcName = "RtcEngine_release".
Proof.
  unfold marshal.
  destruct (String.eqb funcName "RtcEngine_release") eqn:Hrel;
    [intros _; now apply String.eqb_eq|].
  repeat match goal with
         | |- context [if ?b then _ else _] => destruct b
         end;
    unfold bind, param, lift_outcome, set_param, ret, in_world, perform,
      modify;
    repeat match goal with
           | |- context [match ?x with _ => _ end] => destruct x
           end;
    cbn; congruence.
Qed.

(** C5, as the code has it: for every method other than
    [RtcEngine_release], when marshaling raises no exception and the
    boundary endpoint answers with a numeric return code and a result text
    that is [undefined], [null] or empty, [callIrisApi] returns
    [{ result: returnCode }], and the one log line it writes after the
    boundary call is at error level in debug mode and at warning level
    otherwise. *)
Theorem C5_empty_result_synthesized
        (this : value) (funcName : string) (s s1 : call_state)
        (r : option (list value)) (json answer resultText : value)
        (code : Z) :
  funcName <> "RtcEngine_release" ->
  marshal this funcName s = (Return r, s1) ->
  JSON_stringify (cs_params s1) = Return json ->
  (forall buffers, r = Some buffers ->
     CallApi (cs_world (log_world
                (ECallApi funcName json buffers (Z.of_nat (length buffers))) s1))
             funcName json buffers (Z.of_nat (length buffers))
       = Return answer) ->
  get_prop answer "callApiReturnCode" = Return (VNum code) ->
  get_prop answer "callApiResult" = Return resultText ->
  present resultText = false ->
  exists buffers : list value,
    r = Some buffers /\
    callIrisApi this funcName s =
      (Return (VObj [("result", VNum code)]),
       log_world (ELog (failure_level (cs_world s1))
                       [VStr "callApi"; VStr funcName; json; VNum code])
         (log_world
            (ECallApi funcName json buffers (Z.of_nat (length buffers))) s1)).
Proof.
  intros Hrel Hm Hjson Hcall Hcode Hres Hempty.
  destruct r as [buffers|].
  2:{ exfalso. apply Hrel, (marshal_returns_early this funcName s).
      now rewrite Hm. }
  exists buffers. split; [reflexivity|].
  specialize (Hcall buffers eq_refl).
  unfold callIrisApi, try_catch, try_block. unfold bind at 1. rewrite Hm.
  unfold invoke. unfold bind at 1.
  rewrite (call_native_spec _ _ _ _ Hjson), Hcall.
  unfold bind at 1. unfold lift_outcome at 1. rewrite Hcode.
  unfold bind at 1. unfold lift_outcome at 1. rewrite Hres, Hempty.
  unfold bind, in_world, isDebuggable, gets, stringify_params,
    failure_level, debuggable.
  cbn [cs_world cs_params log_world env set_trace]. rewrite Hjson.
  destruct (AgoraEnv.enableLogging (env (cs_world s1)) &&
            AgoraEnv.enableDebugLogging (env (cs_world s1))); reflexivity.
Qed.

(** *** The registries *)

(** The states a registry goes through: it starts empty (and is emptied by
    [release]), and changes by registrations and unregistrations. *)
Inductive registry_state : list observer -> Prop :=
| registry_initial : registry_state []
| registry_registered o l :
    registry_state l -> registry_state (register_observer o l)
| registry_unregistered o l :
    registry_state l -> registry_state (unregister_observer o l).

Lemma register_observer_present (o : observer) (l : list observer) :
  o ∈ l -> register_observer o l = l.
Proof.
  intros Hin. unfold register_observer.
  destruct (find _ l) as [v|] eqn:Hf; [reflexivity|].
  apply find_none_iff with (x := o) in Hf; [|exact Hin].
  now rewrite bool_decide_eq_true_2 in Hf.
Qed.

Lemma register_observer_absent (o : observer) (l : list observer) :
  o ∉ l -> register_observer o l = l ++ [o].
Proof.
  intros Hout. unfold register_observer.
  destruct (find _ l) as [v|] eqn:Hf; [|reflexivity].
  apply find_some in Hf as [Hin Hv]. apply bool_decide_eq_true_1 in Hv.
  subst v. now apply list_elem_of_In in Hin.
Qed.

Lemma register_observer_elem (o : observer) (l : list observer) :
  o ∈ register_observer o l.
Proof.
  destruct (decide (o ∈ l)) as [Hin|Hout].
  - now rewrite register_observer_present.
  - rewrite register_observer_absent by assumption.
    apply elem_of_app. right. now apply list_elem_of_singleton.
Qed.

Lemma registry_state_NoDup (l : list observer) :
  registry_state l -> NoDup l.
Proof.
  induction 1 as [|o l _ IH|o l _ IH].
  - constructor.
  - destruct (decide (o ∈ l)) as [Hin|Hout].
    + now rewrite register_observer_present.
    + rewrite register_observer_absent by assumption.
      apply NoDup_app. repeat split; [exact IH| |apply NoDup_singleton].
      intros x Hx Hx'. apply list_elem_of_singleton in Hx'. now subst x.
  - now apply NoDup_filter.
Qed.

Lemma count_occ_NoDup_elem (o : observer) (l : list observer) :
  NoDup l -> o ∈ l -> count_occ observer_eq_dec l o = 1%nat.
Proof.
  induction 1 as [|x l Hx _ IH]; intros Hin; [inversion Hin|].
  simpl. destruct (observer_eq_dec x o) as [->|Hne].
  - f_equal. apply count_occ_not_In. now rewrite <- list_elem_of_In.
  - apply elem_of_cons in Hin as [->|Hin]; [congruence|auto].
Qed.

(** How often [o] is stored in a registry. *)
Definition entries (o : observer) (registry : list observer) : nat :=
  count_occ observer_eq_dec registry o.

Definition twice {A} (m : M world A) : M world A := (m;; m)%js.

(** C9: registering the same observer twice leaves the registry as one
    registration leaves it, with exactly one entry identical to the
    observer; shown for the list operation and for
    [registerEventHandler], [registerMediaMetadataObserver] and
    [registerAudioEncodedFrameObserver] on every state whose registries
    are in a state they can reach. *)
Theorem C9_registration_idempotent (o : observer) (w : world) :
  registry_state (RtcEngineExInternal._event_handlers (rtc w)) ->
  registry_state (RtcEngineExInternal._metadata_observer (rtc w)) ->
  registry_state (RtcEngineExInternal._audio_encoded_frame_observers (rtc w)) ->
  (forall l, registry_state l ->
     register_observer o (register_observer o l) = register_observer o l /\
     entries o (register_observer o (register_observer o l)) = 1%nat) /\
  (let once := snd (registerEventHandler o w) in
   let again := snd (twice (registerEventHandler o) w) in
   RtcEngineExInternal._event_handlers (rtc again)
     = RtcEngineExInternal._event_handlers (rtc once) /\
   entries o (RtcEngineExInternal._event_handlers (rtc again)) = 1%nat) /\
  (let once := snd (registerMediaMetadataObserver o w) in
   let again := snd (twice (registerMediaMetadataObserver o) w) in
   RtcEngineExInternal._metadata_observer (rtc again)
     = RtcEngineExInternal._metadata_observer (rtc once) /\
   entries o (RtcEngineExInternal._metadata_observer (rtc again)) = 1%nat) /\
  (let once := snd (registerAudioEncodedFrameObserver o w) in
   let again := snd (twice (registerAudioEncodedFrameObserver o) w) in
   RtcEngineExInternal._audio_encoded_frame_observers (rtc again)
     = RtcEngineExInternal._audio_encoded_frame_observers (rtc once) /\
   entries o (RtcEngineExInternal._audio_encoded_frame_observers (rtc again))
     = 1%nat).
Proof.
  intros H1 H2 H3.
  assert (Hlist : forall l, registry_state l ->
            register_observer o (register_observer o l) = register_observer o l /\
            entries o (register_observer o (register_observer o l)) = 1%nat).
  { intros l Hl.
    assert (Hidem : register_observer o (register_observer o l)
                    = register_observer o l)
      by apply register_observer_present, register_observer_elem.
    split; [exact Hidem|]. rewrite Hidem. unfold entries.
    apply count_occ_NoDup_elem; [|apply register_observer_elem].
    apply registry_state_NoDup. now constructor. }
  split; [exact Hlist|].
  repeat split; cbn; first [apply (Hlist _ H1) | apply (Hlist _ H2) | apply (Hlist _ H3)].
Qed.

(** *** Listeners *)

(** What holds of the bus and of the callbacks stored on listeners in
    every state the listener methods can produce: identities are below
    [next_id], the callback stored on a listener was built for it, and a
    subscription with the identity of a stored callback is that callback. *)
Record bus_wf (w : world) : Prop := {
  wf_bus_ids :
    forall sub, sub ∈ DeviceEventEmitter w ->
                (cb_id (snd sub) < next_id w)%nat;
  wf_stored :
    forall l c, agoraCallback w !! l = Some c ->
                cb_listener c = l /\ (cb_id c < next_id w)%nat;
  wf_identity :
    forall sub l c,
      sub ∈ DeviceEventEmitter w -> agoraCallback w !! l = Some c ->
      cb_id (snd sub) = cb_id c -> snd sub = c
}.

(** A computation is benign when it always returns, touches neither the
    bus nor the callbacks stored on listeners, and only takes new
    identities. *)
Definition benign {A} (m : M world A) : Prop :=
  forall w, exists (a : A) (w0 : world),
    m w = (Return a, w0) /\
    DeviceEventEmitter w0 = DeviceEventEmitter w /\
    agoraCallback w0 = agoraCallback w /\
    (next_id w <= next_id w0)%nat.

Lemma benign_ret {A} (a : A) : benign (ret a).
Proof. intros w. exists a, w. auto. Qed.

Lemma benign_gets {A} (f : world -> A) : benign (gets f).
Proof. intros w. exists (f w), w. auto. Qed.

Lemma benign_perform (e : effect) : benign (perform e).
Proof. intros w. eexists tt, _. repeat split; reflexivity. Qed.

Lemma benign_fresh : benign fresh.
Proof. intros w. eexists _, _. repeat split; cbn; lia. Qed.

Lemma benign_update_rtc f : benign (update_rtc f).
Proof. intros w. eexists tt, _. repeat split; reflexivity. Qed.

Lemma benign_bind {A B} (m : M world A) (k : A -> M world B) :
  benign m -> (forall a, benign (k a)) -> benign (bind m k).
Proof.
  intros Hm Hk w. destruct (Hm w) as (a & w0 & E & H1 & H2 & H3).
  destruct (Hk a w0) as (b & w1 & E' & H1' & H2' & H3').
  exists b, w1. unfold bind. rewrite E, E'.
  repeat split; [congruence | congruence | lia].
Qed.

Lemma benign_if {A} (b : bool) (m1 m2 : M world A) :
  benign m1 -> benign m2 -> benign (if b then m1 else m2).
Proof. destruct b; auto. Qed.

Ltac benign_steps :=
  repeat first
    [ apply benign_ret | apply benign_gets | apply benign_perform
    | apply benign_fresh | apply benign_update_rtc
    | apply benign_if
    | apply benign_bind; [|intros ?] ].

Lemma benign_registerEventHandler o : benign (registerEventHandler o).
Proof. unfold registerEventHandler, super. benign_steps. Qed.

Lemma benign_registerAudioSpectrumObserver o :
  benign (registerAudioSpectrumObserver o).
Proof. unfold registerAudioSpectrumObserver, super. benign_steps. Qed.

Lemma benign__addListenerPreCheck (eventType : string) :
  benign (_addListenerPreCheck eventType).
Proof.
  unfold _addListenerPreCheck, registry_empty.
  repeat first
    [ apply benign_registerEventHandler
    | apply benign_registerAudioSpectrumObserver
    | apply benign_ret | apply benign_gets | apply benign_perform
    | apply benign_fresh
    | apply benign_if
    | apply benign_bind; [|intros ?] ].
Qed.

Definition new_callback (eventType : string) (l : listener) (w0 : world)
  : callback :=
  {| cb_id := next_id w0; cb_kind := IRtcEngine;
     cb_eventType := eventType; cb_listener := l |}.

Lemma addListener_spec (eventType : string) (l : listener) (w : world) :
  exists (b : bool) (w0 : world),
    _addListenerPreCheck eventType w = (Return b, w0) /\
    DeviceEventEmitter w0 = DeviceEventEmitter w /\
    agoraCallback w0 = agoraCallback w /\
    (next_id w <= next_id w0)%nat /\
    addListener eventType l w =
      (Return tt,
       set_bus (DeviceEventEmitter w0 ++ [(eventType, new_callback eventType l w0)])
         (set_agoraCallback
            (<[l := new_callback eventType l w0]> (agoraCallback w0))
            (set_next_id (S (next_id w0)) w0))).
Proof.
  destruct (benign__addListenerPreCheck eventType w)
    as (b & w0 & E & H1 & H2 & H3).
  exists b, w0. repeat split; auto.
  unfold addListener. unfold bind at 1. rewrite E. reflexivity.
Qed.

Definition removal_key (l : option listener) (w : world) : option bus_fn :=
  match l with
  | None => None
  | Some l =>
      match agoraCallback w !! l with
      | Some c => Some (FnCallback c)
      | None => Some (FnListener l)
      end
  end.

Lemma removeListener_spec (eventType : string) (l : option listener)
      (w : world) :
  removeListener eventType l w =
    (Return tt,
     set_bus (filter (fun sub => negb (removed eventType (removal_key l w) sub))
                     (DeviceEventEmitter w)) w).
Proof. reflexivity. Qed.

Lemma subscribed_iff (event : string) (sub : string * callback) :
  subscribed event sub = true <-> fst sub = event.
Proof. unfold subscribed. apply String.eqb_eq. Qed.

Lemma no_subscription_left (event : string) (bus : list (string * callback)) :
  filter (fun sub => subscribed event sub)
         (filter (fun sub => negb (subscribed event sub)) bus) = [].
Proof.
  induction bus as [|sub bus IH]; [reflexivity|].
  rewrite (filter_cons (fun sub => negb (subscribed event sub))).
  destruct (decide (negb (subscribed event sub))) as [Hk|Hk]; [|exact IH].
  rewrite (filter_cons (fun sub => subscribed event sub)).
  destruct (decide (subscribed event sub)) as [Hs|Hs]; [|exact IH].
  destruct (subscribed event sub); contradiction.
Qed.

Lemma filter_keeps_all {A} (P : A -> Prop) `{forall x, Decision (P x)}
      (l : list A) :
  (forall x, x ∈ l -> P x) -> filter P l = l.
Proof.
  induction l as [|x l IH]; intros Hall; [reflexivity|].
  rewrite filter_cons. destruct (decide (P x)) as [_|Hx].
  - f_equal. apply IH. intros y Hy. apply Hall. now right.
  - exfalso. apply Hx, Hall. now left.
Qed.

(** Without subscriptions for its name an event is not published. *)
Lemma emitEvent_unheard (event : string) (p : EventProcessor) (data : value)
      (buffers : option (list (list Z))) (w : world) :
  filter (fun sub => subscribed event sub) (DeviceEventEmitter w) = [] ->
  emitEvent event p data buffers w = (Return tt, w).
Proof.
  intros Hnone. unfold emitEvent, bind, listenerCount, gets.
  now rewrite Hnone.
Qed.

Lemma filter_ext_elem {A} (P Q : A -> Prop)
      `{forall x, Decision (P x)} `{forall x, Decision (Q x)} (l : list A) :
  (forall x, x ∈ l -> P x <-> Q x) -> filter P l = filter Q l.
Proof.
induction l as [|x l IH]; intros Hall; [reflexivity|].
rewrite !filter_cons.
assert (Hx : P x <-> Q x) by (apply Hall; now left).
assert (Hl : filter P l = filter Q l)
  by (apply IH; intros y Hy; apply Hall; now right).
destruct (decide (P x)) as [HP|HP], (decide (Q x)) as [HQ|HQ];
  rewrite ?Hl; try reflexivity; exfalso; tauto.
Qed.

(** The subscriptions [removeListener(eventType, l)] takes away: those of
    [eventType] whose function is the callback now stored on [l]. *)
Lemma removed_stored (w : world) (eventType : string) (l : listener)
      (sub : string * callback) :
  bus_wf w -> sub ∈ DeviceEventEmitter w ->
  removed eventType (removal_key (Some l) w) sub = true <->
  fst sub = eventType /\ agoraCallback w !! l = Some (snd sub).
Proof.
intros Hwf Hin. cbn [removal_key].
destruct (agoraCallback w !! l) as [c|] eqn:Hc; cbn [removed same_fn].
- rewrite andb_true_iff, subscribed_iff, Nat.eqb_eq. split.
  + intros [Hs Hid]. split; [exact Hs|].
    now rewrite (wf_identity w Hwf sub l c Hin Hc (eq_sym Hid)).
  + intros [Hs [= ->]]. now split.
- rewrite andb_false_r. split; [discriminate | intros [_ [=]]].
Qed.

(** C7: [removeListener(eventType)] without a callback leaves on the bus
    exactly the subscriptions of the other event names, in their order, so
    that an event of that name published afterwards calls nobody.
    [removeListener(eventType, l)] takes away exactly the subscriptions of
    [eventType] whose function is the callback stored on [l], that is the
    one built by the latest [addListener] call for [l], whatever its event
    name: every other subscription stays, in its place, and nothing but the
    bus changes.  So a listener that was just added for [eventType] is
    removed again and the bus is as before; a subscription of [l] from an
    earlier registration stays, and when nothing is stored on [l], or what
    is stored was built for another event name, nothing is removed. *)
Theorem C7_removeListener (w : world) (eventType : string) :
  bus_wf w ->
  (let w' := snd (removeListener eventType None w) in
   DeviceEventEmitter w' =
     filter (fun sub => fst sub <> eventType) (DeviceEventEmitter w) /\
   forall p data buffers,
     emitEvent eventType p data buffers w' = (Return tt, w')) /\
  (forall l : listener,
      removeListener eventType (Some l) w =
        (Return tt,
         set_bus
           (filter (fun sub => ~ (fst sub = eventType /\
                                  agoraCallback w !! l = Some (snd sub)))
                   (DeviceEventEmitter w)) w)) /\
  (forall l : listener,
      let w1 := snd (addListener eventType l w) in
      let w2 := snd (removeListener eventType (Some l) w1) in
      DeviceEventEmitter w1 =
        DeviceEventEmitter w ++ [(eventType, new_callback eventType l
                                    (snd (_addListenerPreCheck eventType w)))] /\
      DeviceEventEmitter w2 = DeviceEventEmitter w).
Proof.
  intros Hwf. split; [|split].
  - cbn zeta. rewrite removeListener_spec. cbn [snd DeviceEventEmitter set_bus].
    split.
    + apply list_filter_iff. intros sub. cbn [removal_key removed].
      rewrite <- subscribed_iff. destruct (subscribed eventType sub); cbn.
      * split; [intros [] | intros H; now apply H].
      * split; [discriminate | constructor].
    + intros p data buffers. apply emitEvent_unheard.
      cbn [DeviceEventEmitter set_bus removal_key removed].
      apply no_subscription_left.
  - intros l. rewrite removeListener_spec. do 2 f_equal.
    apply filter_ext_elem. intros sub Hin.
    rewrite <- (removed_stored w eventType l sub Hwf Hin).
    destruct (removed eventType (removal_key (Some l) w) sub); cbn.
    + split; [intros [] | intros H; now apply H].
    + split; [discriminate | constructor].
  - intros l. cbn zeta.
    destruct (addListener_spec eventType l w)
      as (b & w0 & Hpre & Hbus & _ & Hid & ->).
    rewrite Hpre. cbn [snd]. split.
    { cbn [DeviceEventEmitter set_bus]. now rewrite Hbus. }
    rewrite removeListener_spec.
    cbn [snd DeviceEventEmitter set_bus set_agoraCallback set_next_id
             agoraCallback removal_key].
    rewrite lookup_insert_eq, filter_app, Hbus.
    rewrite filter_keeps_all.
    + rewrite filter_cons, filter_nil.
      destruct (decide _) as [Hkeep|_]; [|apply app_nil_r].
      exfalso. revert Hkeep.
      cbn [removed same_fn snd fst new_callback cb_id]. unfold subscribed.
      cbn [fst]. now rewrite String.eqb_refl, Nat.eqb_refl.
    + intros sub Hin. pose proof (wf_bus_ids w Hwf sub Hin) as Hlt.
      cbn [removed same_fn new_callback cb_id].
      replace (Nat.eqb (next_id w0) (cb_id (snd sub))) with false
        by (symmetry; apply Nat.eqb_neq; lia).
      now rewrite andb_false_r.
Qed.

(** [bus_wf] holds when nothing is subscribed or stored, and the listener
    methods keep it. *)
Lemma bus_wf_initial (w : world) :
  DeviceEventEmitter w = [] -> agoraCallback w = ∅ -> bus_wf w.
Proof.
  intros Hbus Hstored. split.
  - intros sub Hin. rewrite Hbus in Hin. inversion Hin.
  - intros l c Hc. rewrite Hstored, lookup_empty in Hc. discriminate.
  - intros sub l c Hin. rewrite Hbus in Hin. inversion Hin.
Qed.

Lemma bus_wf_addListener (eventType : string) (l : listener) (w : world) :
  bus_wf w -> bus_wf (snd (addListener eventType l w)).
Proof.
  intros Hwf.
  destruct (addListener_spec eventType l w)
    as (b & w0 & _ & Hbus & Hstored & Hid & ->).
  cbn [snd]. split;
    cbn [DeviceEventEmitter agoraCallback next_id set_bus set_agoraCallback
           set_next_id];
    rewrite ?Hbus, ?Hstored.
  - intros sub Hin. apply elem_of_app in Hin as [Hin|Hin].
    + pose proof (wf_bus_ids w Hwf sub Hin). lia.
    + apply list_elem_of_singleton in Hin. subst sub. cbn. lia.
  - intros l' c Hc. apply lookup_insert_Some in Hc as [[<- <-]|[Hne Hc]].
    + cbn. split; [reflexivity | lia].
    + destruct (wf_stored w Hwf l' c Hc). split; [assumption | lia].
  - intros sub l' c Hin Hc Heq.
    apply lookup_insert_Some in Hc as [[<- <-]|[Hne Hc]];
      apply elem_of_app in Hin as [Hin|Hin].
    + pose proof (wf_bus_ids w Hwf sub Hin). cbn in Heq. lia.
    + apply list_elem_of_singleton in Hin. now subst sub.
    + now apply (wf_identity w Hwf sub l' c).
    + apply list_elem_of_singleton in Hin. subst sub. cbn in Heq.
      destruct (wf_stored w Hwf l' c Hc). lia.
Qed.

Lemma bus_wf_removeListener (eventType : string) (l : option listener)
      (w : world) :
  bus_wf w -> bus_wf (snd (removeListener eventType l w)).
Proof.
  intros Hwf. rewrite removeListener_spec. cbn [snd]. split;
    cbn [DeviceEventEmitter agoraCallback next_id set_bus].
  - intros sub Hin. apply list_elem_of_filter in Hin as [_ Hin].
    now apply (wf_bus_ids w Hwf).
  - apply (wf_stored w Hwf).
  - intros sub l' c Hin. apply list_elem_of_filter in Hin as [_ Hin].
    now apply (wf_identity w Hwf).
Qed.

(** Whatever the pre-check answered, [addListener] subscribes the
    listener. *)
Lemma addListener_always_subscribes (eventType : string) (l : listener)
      (w : world) :
  exists c : callback,
    cb_listener c = l /\ cb_eventType c = eventType /\
    cb_kind c = IRtcEngine /\
    (eventType, c) ∈ DeviceEventEmitter (snd (addListener eventType l w)).
Proof.
  destruct (addListener_spec eventType l w) as (b & w0 & _ & _ & _ & _ & ->).
  exists (new_callback eventType l w0). repeat split.
  cbn. apply elem_of_app. right. now apply list_elem_of_singleton.
Qed.

(** ** More of the bridge *)

(** *** Event names *)

Lemma prefix_append (p s : string) : String.prefix p (p +:+ s) = true.
Proof.
induction p as [|c p IH]; simpl; [now destruct s|].
destruct (Ascii.ascii_dec c c) as [_|Hne]; [exact IH | congruence].
Qed.

(** Two prefixes of one string: one is a prefix of the other. *)
Lemma prefix_comparable (p1 p2 s : string) :
  String.prefix p1 s = true -> String.prefix p2 s = true ->
  String.prefix p1 p2 = true \/ String.prefix p2 p1 = true.
Proof.
revert p1 p2. induction s as [|c s IH]; intros p1 p2 H1 H2.
- destruct p1; [|discriminate]. left. now destruct p2.
- destruct p1 as [|c1 p1]; [left; now destruct p2|].
  destruct p2 as [|c2 p2]; [right; reflexivity|].
  simpl in H1, H2.
  destruct (Ascii.ascii_dec c1 c) as [->|]; [|discriminate].
  destruct (Ascii.ascii_dec c2 c) as [->|]; [|discriminate].
  simpl. destruct (Ascii.ascii_dec c c) as [_|Hne]; [|congruence].
  now apply IH.
Qed.

(** No prefix of the table starts another one. *)
Lemma suffixes_incomparable (k1 k2 : family) :
  String.prefix (suffix (EVENT_PROCESSORS k1)) (suffix (EVENT_PROCESSORS k2))
    = true ->
  k1 = k2.
Proof. destruct k1, k2; simpl; intros H; first [reflexivity | discriminate H]. Qed.

Lemma matching_family_unique (event : string) (k1 k2 : family) :
  startsWith event (suffix (EVENT_PROCESSORS k1)) = true ->
  startsWith event (suffix (EVENT_PROCESSORS k2)) = true ->
  k1 = k2.
Proof.
unfold startsWith. intros H1 H2.
destruct (prefix_comparable _ _ _ H1 H2) as [H|H].
- now apply suffixes_incomparable.
- symmetry. now apply suffixes_incomparable.
Qed.

Lemma find_processor_of_match (event : string) (k : family) :
  startsWith event (suffix (EVENT_PROCESSORS k)) = true ->
  find_processor event = Some (EVENT_PROCESSORS k).
Proof.
intros Hk. destruct (find_processor event) as [p|] eqn:Hfind.
- destruct (find_processor_family _ _ Hfind) as (k' & -> & Hk').
  now rewrite (matching_family_unique event k k' Hk Hk').
- unfold find_processor in Hfind.
  rewrite find_none_iff in Hfind.
  rewrite (Hfind (EVENT_PROCESSORS k)) in Hk; [discriminate|].
  apply EVENT_PROCESSORS_values_spec. now exists k.
Qed.

(** X1: the prefixes of the thirteen families exclude each other: an event
    name starts with the prefix of at most one family, so that the family
    [handleEvent] finds is the only one that matches, whatever the order of
    the table. *)
Theorem X1_family_prefixes_exclusive (event : string) (k : family) :
  startsWith event (suffix (EVENT_PROCESSORS k)) = true ->
  find_processor event = Some (EVENT_PROCESSORS k) /\
  forall k' : family,
    startsWith event (suffix (EVENT_PROCESSORS k')) = true -> k' = k.
Proof.
intros Hk. split; [now apply find_processor_of_match|].
intros k' Hk'. now apply (matching_family_unique event).
Qed.

Lemma substring_whole (s : string) : String.substring 0 (String.length s) s = s.
Proof. induction s as [|c s IH]; simpl; [reflexivity | now rewrite IH]. Qed.

Lemma drop_prefix_append (p s : string) : drop_prefix p (p +:+ s) = s.
Proof.
unfold drop_prefix. induction p as [|c p IH]; simpl.
- rewrite Nat.sub_0_r. apply substring_whole.
- exact IH.
Qed.

Lemma length_append (s1 s2 : string) :
  String.length (s1 +:+ s2) = (String.length s1 + String.length s2)%nat.
Proof. induction s1 as [|c s1 IH]; simpl; [reflexivity | now rewrite IH]. Qed.

Lemma substring_skip (s1 s2 : string) (m : nat) :
  String.substring (String.length s1) m (s1 +:+ s2) = String.substring 0 m s2.
Proof. induction s1 as [|c s1 IH]; simpl; [reflexivity | exact IH]. Qed.

Lemma substring_keep (s1 s2 : string) :
  String.substring 0 (String.length s1) (s1 +:+ s2) = s1.
Proof. induction s1 as [|c s1 IH]; simpl; [now destruct s2 | now rewrite IH]. Qed.

Lemma endsWith_append (s p : string) : endsWith (s +:+ p) p = true.
Proof.
unfold endsWith. rewrite length_append.
apply andb_true_iff. split; [apply Nat.leb_le; lia|].
replace (String.length s + String.length p - String.length p)%nat
  with (String.length s) by lia.
rewrite substring_skip, substring_whole. apply String.eqb_refl.
Qed.

Lemma drop_suffix_append (s p : string) : drop_suffix p (s +:+ p) = s.
Proof.
unfold drop_suffix. rewrite length_append.
replace (String.length s + String.length p - String.length p)%nat
  with (String.length s) by lia.
apply substring_keep.
Qed.

Lemma normalize_base (k : family) (n : string) :
  endsWith n "Ex" = false ->
  normalize (EVENT_PROCESSORS k) (suffix (EVENT_PROCESSORS k) +:+ n) = n.
Proof. intros Hn. unfold normalize. rewrite drop_prefix_append. now rewrite Hn. Qed.

Lemma normalize_Ex (k : family) (n : string) :
  normalize (EVENT_PROCESSORS k) (suffix (EVENT_PROCESSORS k) +:+ n +:+ "Ex") = n.
Proof.
unfold normalize. rewrite drop_prefix_append, endsWith_append.
apply drop_suffix_append.
Qed.

(** X2: the name an event is dispatched under is the raw name without the
    family prefix and without one final [Ex]: a raw name made of the prefix,
    a name [n] and [Ex] is normalized to [n], and so is the raw name made of
    the prefix and [n] when [n] does not itself end in [Ex]. *)
Theorem X2_normalized_event_name (k : family) (n : string) :
  normalize (EVENT_PROCESSORS k) (suffix (EVENT_PROCESSORS k) +:+ n +:+ "Ex") = n /\
  (endsWith n "Ex" = false ->
   normalize (EVENT_PROCESSORS k) (suffix (EVENT_PROCESSORS k) +:+ n) = n).
Proof. split; [apply normalize_Ex | apply normalize_base]. Qed.

Lemma debug_off_log (event data : string) (buffers : list (list Z)) (w : world) :
  debuggable w = false ->
  set_trace (trace w ++ onEvent_log event data buffers w) w = w.
Proof.
unfold debuggable, onEvent_log. intros ->. rewrite app_nil_r. now destruct w.
Qed.

(** X3: outside debug mode, the [Ex] variant of an event is dispatched
    exactly as the event itself: same family, same name, hence the same
    calls, the same state and the same outcome. *)
Theorem X3_Ex_variant_dispatched_as_base
        (k : family) (n data : string) (buffers : list (list Z)) (w : world) :
  debuggable w = false ->
  endsWith n "Ex" = false ->
  handleEvent (suffix (EVENT_PROCESSORS k) +:+ n +:+ "Ex") data buffers w =
  handleEvent (suffix (EVENT_PROCESSORS k) +:+ n) data buffers w.
Proof.
intros Hdbg Hn.
rewrite !handleEvent_after_log, !debug_off_log by assumption.
rewrite !(find_processor_of_match _ k) by apply prefix_append.
now rewrite normalize_Ex, normalize_base.
Qed.

(** *** What a dispatch leaves alone *)

Lemma set_trace_same (w : world) : set_trace (trace w) w = w.
Proof. now destruct w. Qed.

Lemma set_trace_nil (w : world) : set_trace (trace w ++ []) w = w.
Proof. rewrite app_nil_r. apply set_trace_same. Qed.

Lemma set_trace_twice (t1 t2 : list effect) (w : world) :
  set_trace t2 (set_trace t1 w) = set_trace t2 w.
Proof. reflexivity. Qed.

(** [only_logs m]: whatever [m] does and however it ends, the state after
    it is the state before it with a longer trace. *)
Definition only_logs {A} (m : M world A) : Prop :=
  forall w, exists d, snd (m w) = set_trace (trace w ++ d) w.

Lemma only_logs_ret {A} (a : A) : only_logs (ret a).
Proof. intros w. exists []. symmetry. apply set_trace_nil. Qed.

Lemma only_logs_lift_outcome {A} (o : outcome A) : only_logs (lift_outcome o).
Proof. intros w. exists []. symmetry. apply set_trace_nil. Qed.

Lemma only_logs_gets {A} (f : world -> A) : only_logs (gets f).
Proof. intros w. exists []. symmetry. apply set_trace_nil. Qed.

Lemma only_logs_read {A} (f : world -> outcome A) :
  only_logs (fun w => (f w, w)).
Proof. intros w. exists []. symmetry. apply set_trace_nil. Qed.

Lemma only_logs_perform (e : effect) : only_logs (perform e).
Proof. intros w. now exists [e]. Qed.

Lemma only_logs_bind {A B} (m : M world A) (k : A -> M world B) :
  only_logs m -> (forall a, only_logs (k a)) -> only_logs (bind m k).
Proof.
intros Hm Hk w. unfold bind. destruct (Hm w) as (d1 & E1).
destruct (m w) as [[a|e] w1]; simpl in E1; subst w1.
- destruct (Hk a (set_trace (trace w ++ d1) w)) as (d2 & E2).
  exists (d1 ++ d2). rewrite E2. cbn [trace set_trace].
  now rewrite app_assoc.
- now exists d1.
Qed.

Lemma only_logs_for_each {A} (f : A -> M world unit) (xs : list A) :
  (forall x, only_logs (f x)) -> only_logs (for_each f xs).
Proof.
intros Hf. induction xs as [|x xs IH]; simpl.
- apply only_logs_ret.
- apply only_logs_bind; [apply Hf | intros _; exact IH].
Qed.

Lemma only_logs_if {A} (b : bool) (m1 m2 : M world A) :
  only_logs m1 -> only_logs m2 -> only_logs (if b then m1 else m2).
Proof. now destruct b. Qed.

Lemma only_logs_apply_fn it t event data : only_logs (apply_fn it t event data).
Proof.
unfold apply_fn. apply only_logs_bind; [apply only_logs_perform|].
intros _. apply (only_logs_read (fun w => process w it t event data)).
Qed.

Lemma only_logs_emit event p data : only_logs (emit event p data).
Proof.
unfold emit. apply only_logs_bind; [apply only_logs_perform|]. intros _.
apply only_logs_bind; [apply only_logs_gets|]. intros subs.
apply only_logs_for_each. intros sub. unfold run_callback.
apply only_logs_bind; [apply only_logs_lift_outcome|]. intros t.
apply only_logs_if; [|apply only_logs_ret].
apply only_logs_for_each. intros it. apply only_logs_apply_fn.
Qed.

Lemma only_logs_run_preprocess f p event data buffers :
  only_logs (run_preprocess f p event data buffers).
Proof.
unfold run_preprocess. apply only_logs_bind; [apply only_logs_perform|].
intros _. apply only_logs_lift_outcome.
Qed.

Lemma only_logs_emitEvent event p data buffers :
  only_logs (emitEvent event p data buffers).
Proof.
unfold emitEvent, listenerCount.
apply only_logs_bind; [apply only_logs_gets|]. intros n.
apply only_logs_if; [apply only_logs_ret|].
destruct (preprocess p) as [pp|]; [|apply only_logs_emit].
apply only_logs_bind; [apply only_logs_run_preprocess|].
intros d. apply only_logs_emit.
Qed.

Lemma only_logs_handlers (k : family) (event : string) (data : value) :
  only_logs (handlers (EVENT_PROCESSORS k) event data).
Proof.
intros w. exists [].
rewrite <- (set_trace_same w) at 1. rewrite handlers_reads. cbn [snd].
rewrite set_trace_same. symmetry. apply set_trace_nil.
Qed.

Lemma only_logs_handleEvent (event data : string) (buffers : list (list Z)) :
  only_logs (handleEvent event data buffers).
Proof.
unfold handleEvent.
apply only_logs_bind; [apply only_logs_gets|]. intros dbg.
apply only_logs_bind;
  [apply only_logs_if; [apply only_logs_perform | apply only_logs_ret]|].
intros _. destruct (find_processor event) as [p|] eqn:Hfind;
  [|apply only_logs_ret].
destruct (find_processor_family _ _ Hfind) as (k & -> & _). cbv zeta.
apply only_logs_bind; [apply only_logs_handlers|]. intros hs.
apply only_logs_bind; [|intros pd; apply only_logs_emitEvent].
destruct hs as [hs|]; [|apply only_logs_ret].
apply only_logs_bind.
- destruct (preprocess (EVENT_PROCESSORS k)) as [pp|]; [|apply only_logs_ret].
  apply only_logs_bind; [apply only_logs_run_preprocess|].
  intros d. apply only_logs_ret.
- intros pd. apply only_logs_bind; [|intros _; apply only_logs_ret].
  apply only_logs_for_each. intros [o|]; [|apply only_logs_ret].
  apply only_logs_for_each. intros it. apply only_logs_apply_fn.
Qed.

(** X4: the dispatch itself writes to nothing but the record of calls and
    log lines.  The observers and listeners it calls are user code, which is
    taken here as not calling back into the bridge; for such callbacks,
    whatever the event and its payload are, whatever the callbacks return
    or throw, and whether the dispatch returns or throws, the registries,
    the bus, the callbacks stored on listeners and the logging flags after
    [handleEvent] are those before it.  The same holds of [emitEvent]. *)
Theorem X4_dispatch_changes_only_the_trace
        (event data : string) (buffers : list (list Z)) (w : world) :
  (exists d : list effect,
      snd (handleEvent event data buffers w) = set_trace (trace w ++ d) w) /\
  (forall (p : EventProcessor) (payload : value)
          (bufs : option (list (list Z))),
      exists d : list effect,
        snd (emitEvent event p payload bufs w) = set_trace (trace w ++ d) w).
Proof.
split.
- apply only_logs_handleEvent.
- intros p payload bufs. apply only_logs_emitEvent.
Qed.

(** *** Who is called *)

Lemma appends_for_each_elem (P : effect -> Prop) {A}
      (f : A -> M world unit) (xs : list A) :
  (forall x, x ∈ xs -> appends P (f x)) -> appends P (for_each f xs).
Proof.
induction xs as [|x xs IH]; intros Hf; simpl.
- apply appends_ret.
- apply appends_bind; [apply Hf; now left|].
  intros _. apply IH. intros y Hy. apply Hf. now right.
Qed.

(** The actions of a dispatch all satisfy [P] as soon as log lines, calls
    of [preprocess], the actions of the bus, and the calls on resolved
    targets with the family's functions do. *)
Lemma handleEvent_appends (P : effect -> Prop)
      (event data : string) (buffers : list (list Z)) (w : world) :
  (forall lvl args, P (ELog lvl args)) ->
  (forall f ev, P (EPreprocess f ev)) ->
  (forall ev, P (EEmit ev)) ->
  (forall it eventType l ev d, P (EApply it (TListener eventType l) ev d)) ->
  (forall p hs it o d,
      find_processor event = Some p ->
      fst (handlers p (normalize p event) (parse_payload data) w)
        = Return (Some hs) ->
      Some o ∈ hs -> it ∈ func p ->
      P (EApply it (TObserver o) (normalize p event) d)) ->
  exists delta : list effect,
    trace (snd (handleEvent event data buffers w)) = trace w ++ delta /\
    Forall P delta.
Proof.
intros Plog Ppre Pemit Plistener Pobserver.
rewrite handleEvent_after_log.
assert (Hlog : Forall P (onEvent_log event data buffers w)).
{ unfold onEvent_log. destruct (_ && _); repeat constructor. apply Plog. }
set (w1 := set_trace _ w).
assert (Hfinish : forall (m : M world unit),
           appends P m ->
           exists delta, trace (snd (m w1)) = trace w ++ delta /\ Forall P delta).
{ intros m Hm. destruct (Hm w1) as (d & E & R).
  exists (onEvent_log event data buffers w ++ d). rewrite E.
  subst w1. rewrite trace_set_trace, app_assoc. split; [reflexivity|].
  now apply Forall_app. }
destruct (find_processor event) as [p|] eqn:Hfind;
  [|apply Hfinish, appends_ret].
destruct (find_processor_family _ _ Hfind) as (k & Hk & _). cbv zeta.
assert (Hr : handlers p (normalize p event) (parse_payload data) w1 =
             (fst (handlers p (normalize p event) (parse_payload data) w), w1))
  by (subst w1; rewrite Hk; apply handlers_reads).
unfold bind at 1. rewrite Hr.
destruct (fst (handlers p (normalize p event) (parse_payload data) w))
  as [[hs|]|e] eqn:Hhs.
- apply Hfinish. apply appends_bind; [|intros pd; now apply appends_emitEvent].
  apply appends_bind.
  + destruct (preprocess p) as [pp|]; [|apply appends_ret].
    apply appends_bind; [|intros d; apply appends_ret].
    unfold run_preprocess.
    apply appends_bind; [apply appends_perform, Ppre|].
    intros _. apply appends_lift_outcome.
  + intros pd. apply appends_bind; [|intros _; apply appends_ret].
    apply appends_for_each_elem. intros [o|] Ho; [|apply appends_ret].
    apply appends_for_each_elem. intros it Hit.
    apply appends_apply_fn. now apply (Pobserver p hs).
- apply Hfinish. now apply appends_emitEvent.
- exists (onEvent_log event data buffers w). cbn [snd]. subst w1.
  now rewrite trace_set_trace.
Qed.

(** The observers target resolution names for an event in a state. *)
Definition resolved_targets (event data : string) (w : world) : list observer :=
  match find_processor event with
  | None => []
  | Some p =>
      match fst (handlers p (normalize p event) (parse_payload data) w) with
      | Return (Some hs) => omap id hs
      | _ => []
      end
  end.

(** The functions of the family of an event. *)
Definition family_functions (event : string) : list process_fn :=
  match find_processor event with
  | None => []
  | Some p => func p
  end.

Definition calls_resolved_target (event data : string) (w : world)
           (e : effect) : Prop :=
  match e with
  | EApply it (TObserver o) _ _ =>
      o ∈ resolved_targets event data w /\ it ∈ family_functions event
  | _ => True
  end.

(** X5: a dispatch calls no observer besides the ones target resolution
    returned for this event, and calls them with no function besides the
    ones of the event's family: every call on an observer that
    [handleEvent] adds to the trace has its target in the resolved list and
    its function in the family's [func] array.  In particular no observer
    is called when no family matches, when target resolution returns
    [undefined], or when it throws. *)
Theorem X5_only_resolved_targets_are_called
        (event data : string) (buffers : list (list Z)) (w : world) :
  exists delta : list effect,
    trace (snd (handleEvent event data buffers w)) = trace w ++ delta /\
    Forall (calls_resolved_target event data w) delta.
Proof.
apply handleEvent_appends; try (intros; exact I).
intros p hs it o d Hfind Hhs Ho Hit.
unfold calls_resolved_target, resolved_targets, family_functions.
rewrite Hfind, Hhs. split; [|exact Hit].
apply list_elem_of_omap. now exists (Some o).
Qed.

Definition never_calls (o : observer) (e : effect) : Prop :=
  forall it ev d, e <> EApply it (TObserver o) ev d.

Lemma unregistered_not_called
      (k : family) (registry : world -> list observer) (o : observer)
      (event data : string) (buffers : list (list Z)) (w : world) :
  startsWith event (suffix (EVENT_PROCESSORS k)) = true ->
  (forall ev d hs,
      fst (handlers (EVENT_PROCESSORS k) ev d w) = Return (Some hs) ->
      hs = map Some (registry w)) ->
  o ∉ registry w ->
  exists delta : list effect,
    trace (snd (handleEvent event data buffers w)) = trace w ++ delta /\
    Forall (never_calls o) delta.
Proof.
intros Hk Hreg Hout.
apply handleEvent_appends; try (intros; intros ? ? ?; discriminate).
intros p hs it o' d Hfind Hhs Ho' _ it' ev' d' [= _ <- _ _].
rewrite (find_processor_of_match _ _ Hk) in Hfind. injection Hfind as <-.
rewrite (Hreg _ _ _ Hhs) in Ho'.
apply list_elem_of_fmap in Ho' as (o'' & [= <-] & Hin). contradiction.
Qed.

Lemma not_elem_of_unregister (o : observer) (l : list observer) :
  o ∉ unregister_observer o l.
Proof.
unfold unregister_observer. intros Hin.
apply list_elem_of_filter in Hin as [Hne _]. now apply Hne.
Qed.

(** X6: an observer that was unregistered is not called any more: after
    [unregisterEventHandler], [unregisterMediaMetadataObserver] or
    [unregisterAudioEncodedFrameObserver], no event of the corresponding
    family leads to a call on that observer, whatever its payload. *)
Theorem X6_unregistered_observer_not_called
        (o : observer) (w : world) (event data : string)
        (buffers : list (list Z)) :
  (startsWith event "RtcEngineEventHandler_" = true ->
   let w1 := snd (unregisterEventHandler o w) in
   exists delta : list effect,
     trace (snd (handleEvent event data buffers w1)) = trace w1 ++ delta /\
     Forall (never_calls o) delta) /\
  (startsWith event "MetadataObserver_" = true ->
   let w1 := snd (unregisterMediaMetadataObserver o w) in
   exists delta : list effect,
     trace (snd (handleEvent event data buffers w1)) = trace w1 ++ delta /\
     Forall (never_calls o) delta) /\
  (startsWith event "AudioEncodedFrameObserver_" = true ->
   let w1 := snd (unregisterAudioEncodedFrameObserver o w) in
   exists delta : list effect,
     trace (snd (handleEvent event data buffers w1)) = trace w1 ++ delta /\
     Forall (never_calls o) delta).
Proof.
split; [|split]; intros Hk w1.
- apply (unregistered_not_called IRtcEngineEventHandler
           (fun w => RtcEngineExInternal._event_handlers (rtc w)));
    [exact Hk| |apply not_elem_of_unregister].
  intros ev d hs. cbn.
  unfold static_handlers, bind, lift_outcome, gets, ret.
  destruct (String.eqb ev "onLocalVideoStats");
    [destruct (has_prop "connection" d) as [[|]|]|]; cbn; congruence.
- apply (unregistered_not_called IMetadataObserver
           (fun w => RtcEngineExInternal._metadata_observer (rtc w)));
    [exact Hk| |apply not_elem_of_unregister].
  intros ev d hs. cbn. congruence.
- apply (unregistered_not_called IAudioEncodedFrameObserver
           (fun w => RtcEngineExInternal._audio_encoded_frame_observers (rtc w)));
    [exact Hk| |apply not_elem_of_unregister].
  intros ev d hs. cbn. congruence.
Qed.

(** *** The order of the calls *)

(** The calls of the functions [fs], in their order, on one target. *)
Definition applies (fs : list process_fn) (t : target) (event : string)
           (data : value) : list effect :=
  map (fun it => EApply it t event data) fs.

(** The calls on the resolved targets, in their order; an [undefined] entry
    is passed over. *)
Definition observer_applies (fs : list process_fn) (event : string)
           (data : value) (hs : list (option observer)) : list effect :=
  flat_map (fun v : option observer =>
              match v with
              | Some o => applies fs (TObserver o) event data
              | None => []
              end) hs.

(** What one subscription contributes when an event of type [t] is
    published. *)
Definition callback_applies (p : EventProcessor) (data : value)
           (t : EVENT_TYPE) (sub : string * callback) : list effect :=
  if bool_decide (t = cb_kind (snd sub))
  then applies (func p) (TListener (cb_eventType (snd sub))
                                   (cb_listener (snd sub)))
               (cb_eventType (snd sub)) data
  else [].

(** What publishing on the bus contributes: nothing without subscriptions
    of that name, else the [emit] and the calls of the subscriptions in the
    order they were added. *)
Definition published (event : string) (p : EventProcessor) (data : value)
           (t : EVENT_TYPE) (w : world) : list effect :=
  match filter (fun sub => subscribed event sub) (DeviceEventEmitter w) with
  | [] => []
  | subs => EEmit event :: flat_map (callback_applies p data t) subs
  end.

Lemma published_set_trace event p data t (tr : list effect) (w : world) :
  published event p data t (set_trace tr w) = published event p data t w.
Proof. reflexivity. Qed.

Lemma published_clear event p data t (w : world) :
  published event (clear_preprocess p) data t w = published event p data t w.
Proof. reflexivity. Qed.

Definition preprocess_call (p : EventProcessor) (event : string) : list effect :=
  match preprocess p with
  | Some _ => [EPreprocess (name p) event]
  | None => []
  end.

(** [logs m d]: from every state, [m] returns and adds exactly [d] to the
    trace. *)
Definition logs (m : M world unit) (d : list effect) : Prop :=
  forall w, m w = (Return tt, set_trace (trace w ++ d) w).

Lemma logs_ret : logs (ret tt) [].
Proof. intros w. unfold ret. now rewrite set_trace_nil. Qed.

Lemma logs_bind (m : M world unit) (k : unit -> M world unit)
      (d1 d2 : list effect) :
  logs m d1 -> logs (k tt) d2 -> logs (bind m k) (d1 ++ d2).
Proof.
intros Hm Hk w. unfold bind. rewrite Hm, Hk. cbn [trace set_trace].
now rewrite app_assoc.
Qed.

Lemma logs_for_each {A} (f : A -> M world unit) (g : A -> list effect)
      (xs : list A) :
  (forall x, logs (f x) (g x)) -> logs (for_each f xs) (flat_map g xs).
Proof.
intros Hf. induction xs as [|x xs IH]; simpl.
- apply logs_ret.
- apply logs_bind; [apply Hf | exact IH].
Qed.

Section Returning.

(** The generated functions and the user code they call return. *)
Hypothesis process_returns :
  forall w it t event data, process w it t event data = Return tt.

Lemma logs_apply_fn it t event data :
  logs (apply_fn it t event data) [EApply it t event data].
Proof using process_returns.
intros w. unfold apply_fn, bind, perform, modify. now rewrite process_returns.
Qed.

Lemma logs_applies fs t event data :
  logs (for_each (fun it => apply_fn it t event data) fs)
       (applies fs t event data).
Proof using process_returns.
induction fs as [|it fs IH]; simpl; [apply logs_ret|].
apply (logs_bind _ _ [EApply it t event data]); [apply logs_apply_fn | exact IH].
Qed.

Lemma logs_observer_applies fs event data hs :
  logs (for_each (fun v : option observer =>
          match v with
          | Some o => for_each (fun it => apply_fn it (TObserver o) event data) fs
          | None => ret tt
          end) hs)
       (observer_applies fs event data hs).
Proof using process_returns.
apply logs_for_each. intros [o|]; [apply logs_applies | apply logs_ret].
Qed.

Lemma logs_run_callback (p : EventProcessor) (data : value) (t : EVENT_TYPE)
      (sub : string * callback) :
  type p data = Return t ->
  logs (run_callback (snd sub) p data) (callback_applies p data t sub).
Proof using process_returns.
intros Ht w. unfold run_callback, callback_applies.
unfold bind at 1. unfold lift_outcome. rewrite Ht.
destruct (bool_decide (t = cb_kind (snd sub))).
- apply logs_applies.
- apply logs_ret.
Qed.

Lemma emit_published (event : string) (p : EventProcessor) (data : value)
      (t : EVENT_TYPE) (w : world) :
  type p data = Return t ->
  emit event p data w =
    (Return tt,
     set_trace (trace w ++ EEmit event ::
                  flat_map (callback_applies p data t)
                    (filter (fun sub => subscribed event sub)
                            (DeviceEventEmitter w))) w).
Proof using process_returns.
intros Ht. unfold emit. unfold bind at 1. unfold perform at 1, modify at 1.
unfold bind at 1. unfold gets at 1. cbn [DeviceEventEmitter set_trace].
rewrite (logs_for_each _ (callback_applies p data t));
  [|intros sub; now apply logs_run_callback].
cbn [trace set_trace]. now rewrite <- app_assoc.
Qed.

(** Republishing with the [preprocess] reference cleared or absent. *)
Lemma emitEvent_published (event : string) (p : EventProcessor) (data : value)
      (buffers : option (list (list Z))) (t : EVENT_TYPE) (w : world) :
  preprocess p = None ->
  type p data = Return t ->
  emitEvent event p data buffers w =
    (Return tt, set_trace (trace w ++ published event p data t w) w).
Proof using process_returns.
intros Hp Ht. unfold emitEvent, published. unfold bind at 1.
unfold listenerCount, gets.
destruct (filter _ (DeviceEventEmitter w)) as [|sub subs] eqn:Hsubs.
- cbn. unfold ret. now rewrite set_trace_nil.
- cbn [length Nat.eqb]. rewrite Hp, (emit_published _ _ _ t) by assumption.
  now rewrite Hsubs.
Qed.

(** What republishing contributes when the [preprocess] reference is still
    set: the call of [preprocess] comes first, and only if somebody
    listens. *)
Definition republished (event : string) (p : EventProcessor) (data : value)
           (t : EVENT_TYPE) (w : world) : list effect :=
  match published event p data t w with
  | [] => []
  | calls => preprocess_call p event ++ calls
  end.

(** X8: when the functions it calls return, [emitEvent] does nothing if
    nobody is subscribed to the event name; otherwise it calls the family's
    [preprocess] once, if there is one, publishes the event, and calls the
    subscriptions of that name in the order they were added, each
    subscription once with every function of the family, all with the
    preprocessed payload; a subscription whose callback is for another
    event type is passed over.  A listener subscribed twice is thus called
    twice. *)
Theorem X8_emitEvent_calls_subscriptions_in_order
        (event : string) (p : EventProcessor) (data data' : value)
        (buffers : option (list (list Z))) (t : EVENT_TYPE) (w : world) :
  preprocessed p event data (default [] buffers) = Return data' ->
  type p data' = Return t ->
  emitEvent event p data buffers w =
    (Return tt, set_trace (trace w ++ republished event p data' t w) w).
Proof using process_returns.
intros Hpre Ht. unfold preprocessed in Hpre.
destruct (preprocess p) as [pp|] eqn:Hp.
- unfold emitEvent, republished, published, preprocess_call.
  unfold bind at 1. unfold listenerCount, gets. rewrite Hp.
  destruct (filter _ (DeviceEventEmitter w)) as [|sub subs] eqn:Hsubs.
  + cbn. unfold ret. now rewrite set_trace_nil.
  + cbn [length Nat.eqb]. unfold bind at 1. unfold run_preprocess at 1.
    unfold bind at 1. unfold perform at 1, modify at 1.
    unfold lift_outcome at 1. rewrite Hpre.
    rewrite (emit_published _ _ _ t) by exact Ht.
    cbn [DeviceEventEmitter trace set_trace]. rewrite Hsubs.
    now rewrite <- app_assoc.
- injection Hpre as ->. rewrite (emitEvent_published _ _ _ _ t) by assumption.
  unfold republished, preprocess_call. rewrite Hp.
  now destruct (published event p data' t w).
Qed.

(** X7: when the functions it calls return, a dispatch with resolved
    targets does, in this order: the debug log; the one call of the
    family's [preprocess], if it has one; for each target in the order of
    the resolved list, the functions of the family in the order of [func],
    an [undefined] target being passed over; then the publication on the
    bus with the calls of the subscriptions of the normalized name in the
    order they were added.  Observers and listeners all receive the
    preprocessed payload, and nothing but the trace changes. *)
Theorem X7_dispatch_calls_in_order
        (w : world) (event data : string) (buffers : list (list Z))
        (p : EventProcessor) (hs : list (option observer))
        (data' : value) (t : EVENT_TYPE) :
  find_processor event = Some p ->
  fst (handlers p (normalize p event) (parse_payload data) w)
    = Return (Some hs) ->
  preprocessed p (normalize p event) (parse_payload data) buffers
    = Return data' ->
  type p data' = Return t ->
  handleEvent event data buffers w =
    (Return tt,
     set_trace
       (trace w ++ onEvent_log event data buffers w
                ++ preprocess_call p (normalize p event)
                ++ observer_applies (func p) (normalize p event) data' hs
                ++ published (normalize p event) p data' t w) w).
Proof using process_returns.
intros Hfind Hhs Hpre Ht.
destruct (find_processor_family _ _ Hfind) as (k & Hk & _).
rewrite handleEvent_after_log, Hfind. cbv zeta.
assert (Hr : forall ev d t,
           handlers p ev d (set_trace t w) =
             (fst (handlers p ev d w), set_trace t w))
  by (intros; rewrite Hk; apply handlers_reads).
unfold bind at 1. rewrite Hr, Hhs.
unfold preprocessed in Hpre. unfold preprocess_call.
destruct (preprocess p) as [pp|] eqn:Hp.
- unfold bind at 1. unfold bind at 1. unfold bind at 1.
  unfold run_preprocess at 1. unfold bind at 1.
  unfold perform at 1, modify at 1. unfold lift_outcome at 1.
  rewrite Hpre. unfold ret at 1. cbn [fst snd].
  unfold bind at 1. rewrite logs_observer_applies. unfold ret at 1.
  cbn [fst snd].
  rewrite (emitEvent_published _ (clear_preprocess p) _ _ t)
    by (reflexivity || exact Ht).
  rewrite published_clear.
  repeat rewrite ?published_set_trace, ?trace_set_trace, ?set_trace_twice.
  now rewrite <- !app_assoc.
- injection Hpre as ->.
  unfold bind at 1. unfold bind at 1. unfold ret at 1. cbn [fst snd].
  unfold bind at 1. rewrite logs_observer_applies. unfold ret at 1.
  cbn [fst snd].
  rewrite (emitEvent_published _ p _ _ t) by assumption.
  repeat rewrite ?published_set_trace, ?trace_set_trace, ?set_trace_twice.
  now rewrite <- !app_assoc.
Qed.

(** The whole of a dispatch with resolved targets, when the functions it
    calls return. *)
Lemma handleEvent_in_order
      (w : world) (event data : string) (buffers : list (list Z))
      (p : EventProcessor) (hs : list (option observer))
      (data' : value) (t : EVENT_TYPE) :
  find_processor event = Some p ->
  fst (handlers p (normalize p event) (parse_payload data) w)
    = Return (Some hs) ->
  preprocessed p (normalize p event) (parse_payload data) buffers
    = Return data' ->
  type p data' = Return t ->
  handleEvent event data buffers w =
    (Return tt,
     set_trace
       (trace w ++ onEvent_log event data buffers w
                ++ preprocess_call p (normalize p event)
                ++ observer_applies (func p) (normalize p event) data' hs
                ++ published (normalize p event) p data' t w) w).
Proof using process_returns.
intros Hfind Hhs Hpre Ht.
destruct (find_processor_family _ _ Hfind) as (k & Hk & _).
rewrite handleEvent_after_log, Hfind. cbv zeta.
assert (Hr : forall ev d t,
           handlers p ev d (set_trace t w) =
             (fst (handlers p ev d w), set_trace t w))
  by (intros; rewrite Hk; apply handlers_reads).
unfold bind at 1. rewrite Hr, Hhs.
unfold preprocessed in Hpre. unfold preprocess_call.
destruct (preprocess p) as [pp|] eqn:Hp.
- unfold bind at 1. unfold bind at 1. unfold bind at 1.
  unfold run_preprocess at 1. unfold bind at 1.
  unfold perform at 1, modify at 1. unfold lift_outcome at 1.
  rewrite Hpre. unfold ret at 1. cbn [fst snd].
  unfold bind at 1. rewrite logs_observer_applies. unfold ret at 1.
  cbn [fst snd].
  rewrite (emitEvent_published _ (clear_preprocess p) _ _ t)
    by (reflexivity || exact Ht).
  rewrite published_clear.
  repeat rewrite ?published_set_trace, ?trace_set_trace, ?set_trace_twice.
  now rewrite <- !app_assoc.
- injection Hpre as ->.
  unfold bind at 1. unfold bind at 1. unfold ret at 1. cbn [fst snd].
  unfold bind at 1. rewrite logs_observer_applies. unfold ret at 1.
  cbn [fst snd].
  rewrite (emitEvent_published _ p _ _ t) by assumption.
  repeat rewrite ?published_set_trace, ?trace_set_trace, ?set_trace_twice.
  now rewrite <- !app_assoc.
Qed.

End Returning.

(** *** Registration and the pre-check *)

Lemma unregister_registered (o : observer) (l : list observer) :
  o ∉ l -> unregister_observer o (register_observer o l) = l.
Proof.
intros Hout. rewrite register_observer_absent by assumption.
unfold unregister_observer. rewrite filter_app.
rewrite filter_keeps_all by (intros x Hx ->; contradiction).
rewrite filter_cons, filter_nil.
destruct (decide (o <> o)) as [Hne|_]; [congruence | apply app_nil_r].
Qed.

Lemma elem_of_unregister (o o' : observer) (l : list observer) :
  o' ∈ unregister_observer o l <-> o' <> o /\ o' ∈ l.
Proof. unfold unregister_observer. now rewrite list_elem_of_filter. Qed.

(** X9: unregistering removes every entry identical to the observer and no
    other entry; registering an observer that was not registered and then
    unregistering it gives the registry back as it was, for the list
    operations and for [registerEventHandler] followed by
    [unregisterEventHandler]. *)
Theorem X9_unregister_undoes_register (o : observer) (w : world) :
  o ∉ RtcEngineExInternal._event_handlers (rtc w) ->
  (forall l : list observer,
      (forall o', o' ∈ unregister_observer o l <-> o' <> o /\ o' ∈ l) /\
      (o ∉ l -> unregister_observer o (register_observer o l) = l)) /\
  RtcEngineExInternal._event_handlers
    (rtc (snd ((registerEventHandler o;; unregisterEventHandler o)%js w)))
    = RtcEngineExInternal._event_handlers (rtc w).
Proof.
intros Hout. split.
- intros l. split; [intros o'; apply elem_of_unregister|].
  apply unregister_registered.
- cbn. now apply unregister_registered.
Qed.

(** The messages handed to [console.error]. *)
Fixpoint diagnostics (t : list effect) : list value :=
  match t with
  | [] => []
  | EConsoleError v :: t' => v :: diagnostics t'
  | _ :: t' => diagnostics t'
  end.

Lemma diagnostics_app (t1 t2 : list effect) :
  diagnostics (t1 ++ t2) = diagnostics t1 ++ diagnostics t2.
Proof.
induction t1 as [|e t1 IH]; simpl; [reflexivity|].
destruct e; simpl; now rewrite IH.
Qed.

Definition is_empty (l : list observer) : bool := Nat.eqb (length l) 0.

(** The registration call a listener of this event type is told to make
    first, if any: the first of the three strict categories the event type
    belongs to whose registry is empty. *)
Definition missing_registration (eventType : string) (w : world)
  : option string :=
  if strictTest IDirectCdnStreamingEventHandler eventType
     && is_empty (RtcEngineExInternal._direct_cdn_streaming_event_handler (rtc w))
  then Some "startDirectCdnStreaming"
  else if strictTest IMetadataObserver eventType
          && is_empty (RtcEngineExInternal._metadata_observer (rtc w))
  then Some "registerMediaMetadataObserver"
  else if strictTest IAudioEncodedFrameObserver eventType
          && is_empty (RtcEngineExInternal._audio_encoded_frame_observers (rtc w))
  then Some "registerAudioEncodedFrameObserver"
  else None.

(** X10: [_addListenerPreCheck] answers [false] exactly when the event type
    belongs to a strict category whose registry is empty, and then reports
    one diagnostic naming the registration call to make; otherwise it
    answers [true] and reports nothing.  It never changes the registries of
    the strict categories.  For an event type of [IRtcEngineEventHandler]
    the registry of event handlers is not empty afterwards, whatever the
    answer; for one of [IAudioSpectrumObserver] the registry of spectrum
    observers is not empty afterwards when the answer is [true]. *)
Theorem X10_precheck_answer (eventType : string) (w : world) :
  let r := _addListenerPreCheck eventType w in
  fst r = Return (bool_decide (missing_registration eventType w = None)) /\
  diagnostics (trace (snd r)) =
    diagnostics (trace w) ++
      match missing_registration eventType w with
      | Some api => [diagnostic api]
      | None => []
      end /\
  RtcEngineExInternal._direct_cdn_streaming_event_handler (rtc (snd r))
    = RtcEngineExInternal._direct_cdn_streaming_event_handler (rtc w) /\
  RtcEngineExInternal._metadata_observer (rtc (snd r))
    = RtcEngineExInternal._metadata_observer (rtc w) /\
  RtcEngineExInternal._audio_encoded_frame_observers (rtc (snd r))
    = RtcEngineExInternal._audio_encoded_frame_observers (rtc w) /\
  (strictTest IRtcEngineEventHandler eventType = true ->
   RtcEngineExInternal._event_handlers (rtc (snd r)) <> []) /\
  (strictTest IAudioSpectrumObserver eventType = true ->
   missing_registration eventType w = None ->
   RtcEngineExInternal._audio_spectrum_observers (rtc (snd r)) <> []).
Proof.
unfold missing_registration, _addListenerPreCheck, registry_empty.
destruct w as [e [eh cdn md ae sp] me mp mr mu bus stored n tr].
destruct (strictTest IRtcEngineEventHandler eventType);
  destruct (strictTest IDirectCdnStreamingEventHandler eventType);
  destruct (strictTest IMetadataObserver eventType);
  destruct (strictTest IAudioEncodedFrameObserver eventType);
  destruct (strictTest IAudioSpectrumObserver eventType);
  destruct eh, cdn, md, ae, sp; cbn;
  rewrite ?diagnostics_app; cbn; rewrite ?app_nil_r;
  repeat split; try discriminate; try reflexivity; try (intros; discriminate).
Qed.

(** *** Removing all listeners, and releasing the engine *)

Lemma removeAllListeners_spec (eventType : option string) (w : world) :
  removeAllListeners eventType w =
    (Return tt,
     set_bus match eventType with
             | Some ev => filter (fun sub => negb (subscribed ev sub))
                                 (DeviceEventEmitter w)
             | None => []
             end w).
Proof. reflexivity. Qed.

Lemma other_names_kept (event : string) (bus : list (string * callback)) :
  filter (fun sub => negb (subscribed event sub)) bus =
  filter (fun sub => fst sub <> event) bus.
Proof.
apply list_filter_iff. intros sub. rewrite <- subscribed_iff.
destruct (subscribed event sub); cbn.
- split; [intros [] | intros H; now apply H].
- split; [discriminate | constructor].
Qed.

(** X11: [removeAllListeners(eventType)] leaves on the bus exactly the
    subscriptions of the other event names, in their order, and an event of
    that name published afterwards calls nobody; [removeAllListeners()]
    empties the bus, and no event published afterwards calls anybody. *)
Theorem X11_removeAllListeners (w : world) :
  (forall eventType : string,
      let w' := snd (removeAllListeners (Some eventType) w) in
      DeviceEventEmitter w' =
        filter (fun sub => fst sub <> eventType) (DeviceEventEmitter w) /\
      forall p data buffers,
        emitEvent eventType p data buffers w' = (Return tt, w')) /\
  (let w' := snd (removeAllListeners None w) in
   DeviceEventEmitter w' = [] /\
   forall event p data buffers,
     emitEvent event p data buffers w' = (Return tt, w')).
Proof.
split.
- intros eventType. cbn zeta. rewrite removeAllListeners_spec.
  cbn [snd DeviceEventEmitter set_bus]. split; [apply other_names_kept|].
  intros p data buffers. apply emitEvent_unheard.
  cbn [DeviceEventEmitter set_bus]. apply no_subscription_left.
- cbn zeta. rewrite removeAllListeners_spec.
  cbn [snd DeviceEventEmitter set_bus]. split; [reflexivity|].
  intros event p data buffers. now apply emitEvent_unheard.
Qed.

Definition set_media_player (m : MediaPlayerInternal.statics) (w : world)
  : world :=
  Build_world (env w) (rtc w) (media_engine w) m (media_recorder w) (music w)
    (DeviceEventEmitter w) (agoraCallback w) (next_id w) (trace w).

Definition set_media_recorder (m : MediaRecorderInternal.statics) (w : world)
  : world :=
  Build_world (env w) (rtc w) (media_engine w) (media_player w) m (music w)
    (DeviceEventEmitter w) (agoraCallback w) (next_id w) (trace w).

(** The components [release] calls into before it clears the registries:
    the native renderer bridge, the renderer manager, the two device
    managers, the media engine and the spatial audio engine.  Such a call
    may throw; what it does to the component is outside this model. *)
Variable collaborator : world -> string -> outcome unit.

Definition call_collaborator (method : string) : M world unit :=
  (perform (ESuper method);;
   fun w => (collaborator w method, w))%js.

(** [RtcEngineExInternal.release(sync)] *)
Definition release : M world unit :=
  (call_collaborator "AgoraElectronBridge.ReleaseRenderer";;
   call_collaborator "AgoraRendererManager?.clear";;
   call_collaborator "_audio_device_manager.release";;
   call_collaborator "_video_device_manager.release";;
   call_collaborator "_media_engine.release";;
   call_collaborator "_local_spatial_audio_engine.release";;
   modify (set_rtc RtcEngineExInternal.empty);;
   modify (set_media_player MediaPlayerInternal.empty);;
   modify (set_media_recorder MediaRecorderInternal.empty);;
   removeAllListeners None;;
   super "release";;
   ret tt)%js.

(** The registries [release] clears, and the bus. *)
Definition cleared (w : world) : Prop :=
  rtc w = RtcEngineExInternal.empty /\
  media_player w = MediaPlayerInternal.empty /\
  media_recorder w = MediaRecorderInternal.empty /\
  DeviceEventEmitter w = [].

(** The families whose targets live in those registries. *)
Definition released_family (k : family) : bool :=
  match k with
  | IAudioFrameObserver | IVideoFrameObserver | IVideoEncodedFrameObserver
  | IMusicContentCenterEventHandler => false
  | _ => true
  end.

Definition is_call (e : effect) : bool :=
  match e with
  | EApply _ _ _ _ | EEmit _ => true
  | _ => false
  end.

Lemma collaborator_then (method : string) (rest : M world unit)
      (Q : world -> Prop) (w : world) :
  (forall w1, fst (rest w1) = Return tt -> Q (snd (rest w1))) ->
  fst ((call_collaborator method;; rest)%js w) = Return tt ->
  Q (snd ((call_collaborator method;; rest)%js w)).
Proof.
intros Hrest. unfold call_collaborator.
unfold bind at 1 3. unfold bind at 1 2. unfold perform, modify.
destruct (collaborator _ method) as [[]|e]; cbn [fst snd];
  [apply Hrest | discriminate].
Qed.

Lemma release_clears (w : world) :
  fst (release w) = Return tt -> cleared (snd (release w)).
Proof.
unfold release. revert w.
do 6 (intros w; apply collaborator_then; clear w).
intros w _. cbn. repeat split.
Qed.

Lemma for_each_passed_over (fs : list process_fn) (event : string)
      (data : value) (hs : list (option observer)) (w : world) :
  Forall (fun v => v = None) hs ->
  for_each (fun v : option observer =>
              match v with
              | Some o => for_each (fun it => apply_fn it (TObserver o) event data) fs
              | None => ret tt
              end) hs w = (Return tt, w).
Proof.
induction 1 as [|v hs -> _ IH]; simpl; [reflexivity|].
unfold bind. unfold ret at 1. exact IH.
Qed.

(** With an empty bus and no target, an event only leaves its log line and
    the call of [preprocess] in the trace. *)
Lemma handleEvent_reaches_nobody
      (event data : string) (buffers : list (list Z)) (w : world) :
  DeviceEventEmitter w = [] ->
  (forall p hs,
      find_processor event = Some p ->
      fst (handlers p (normalize p event) (parse_payload data) w)
        = Return (Some hs) ->
      Forall (fun v => v = None) hs) ->
  exists delta : list effect,
    trace (snd (handleEvent event data buffers w)) = trace w ++ delta /\
    Forall (fun e => is_call e = false) delta.
Proof.
intros Hbus Hnone. rewrite handleEvent_after_log.
assert (Hlog : Forall (fun e => is_call e = false)
                      (onEvent_log event data buffers w)).
{ unfold onEvent_log. destruct (_ && _); repeat constructor. }
set (w1 := set_trace _ w).
assert (Hunheard : forall ev p d b (w2 : world),
           DeviceEventEmitter w2 = [] ->
           emitEvent ev p d b w2 = (Return tt, w2)).
{ intros ev p0 d b w2 Hw2. apply emitEvent_unheard. now rewrite Hw2. }
destruct (find_processor event) as [p|] eqn:Hfind.
2:{ exists (onEvent_log event data buffers w). cbn. auto. }
destruct (find_processor_family _ _ Hfind) as (k & Hk & _). cbv zeta.
assert (Hr : handlers p (normalize p event) (parse_payload data) w1 =
             (fst (handlers p (normalize p event) (parse_payload data) w), w1))
  by (subst w1; rewrite Hk; apply handlers_reads).
unfold bind at 1. rewrite Hr.
destruct (fst (handlers p (normalize p event) (parse_payload data) w))
  as [[hs|]|e] eqn:Hhs.
- specialize (Hnone p hs eq_refl Hhs).
  destruct (preprocess p) as [pp|].
  + unfold bind at 1. unfold bind at 1. unfold bind at 1.
    unfold run_preprocess at 1. unfold bind at 1.
    unfold perform at 1, modify at 1. unfold lift_outcome at 1.
    destruct (pp _ _ _) as [d|e].
    * unfold ret at 1. cbn [fst snd]. unfold bind at 1.
      rewrite for_each_passed_over by assumption.
      unfold ret at 1. cbn [fst snd]. rewrite Hunheard by exact Hbus.
      exists (onEvent_log event data buffers w ++
              [EPreprocess (name p) (normalize p event)]).
      cbn [snd]. subst w1. rewrite !trace_set_trace, app_assoc.
      split; [reflexivity|]. apply Forall_app. split; [exact Hlog|].
      now repeat constructor.
    * exists (onEvent_log event data buffers w ++
              [EPreprocess (name p) (normalize p event)]).
      cbn [snd]. subst w1. rewrite !trace_set_trace, app_assoc.
      split; [reflexivity|]. apply Forall_app. split; [exact Hlog|].
      now repeat constructor.
  + unfold bind at 1. unfold bind at 1. unfold ret at 1. cbn [fst snd].
    unfold bind at 1. rewrite for_each_passed_over by assumption.
    unfold ret at 1. cbn [fst snd].
    rewrite Hunheard by exact Hbus.
    exists (onEvent_log event data buffers w). cbn [snd]. subst w1.
    now rewrite trace_set_trace.
- unfold bind at 1. unfold ret at 1. cbn [fst snd].
  rewrite Hunheard by exact Hbus.
  exists (onEvent_log event data buffers w). cbn [snd]. subst w1.
  now rewrite trace_set_trace.
- exists (onEvent_log event data buffers w). cbn [snd]. subst w1.
  now rewrite trace_set_trace.
Qed.

Lemma cleared_targets (k : family) (event : string) (data : value)
      (w : world) (hs : list (option observer)) :
  released_family k = true ->
  cleared w ->
  fst (handlers (EVENT_PROCESSORS k) event data w) = Return (Some hs) ->
  Forall (fun v => v = None) hs.
Proof.
intros Hk (Hrtc & Hmp & Hmr & _).
destruct w as [e r me mp mr mu bus stored n tr].
cbn in Hrtc, Hmp, Hmr. subst r mp mr.
destruct k; try discriminate Hk; cbn;
  unfold static_handlers, player_handlers, bind, lift_outcome, gets, ret;
  repeat first
    [ progress cbn
    | rewrite lookup_empty
    | match goal with
      | |- context [match get_prop ?d ?f with _ => _ end] =>
          destruct (get_prop d f) as [[]|]
      | |- context [match has_prop ?f ?d with _ => _ end] =>
          destruct (has_prop f d) as [[|]|]
      | |- context [if ?b then _ else _] => destruct b
      end ];
  intros H; try discriminate H; inversion H; subst;
  repeat constructor.
Qed.

(** X12: when [release] returns, the five registries of the engine, the
    four registries of the media players, the registry of the recorders and
    the bus are empty; an event of a family whose targets live in these
    registries then calls no observer and no listener and is not published,
    whatever its name and payload. *)
Theorem X12_release_clears_registries_and_bus (w : world) :
  fst (release w) = Return tt ->
  let w' := snd (release w) in
  cleared w' /\
  forall (k : family) (event data : string) (buffers : list (list Z)),
    released_family k = true ->
    startsWith event (suffix (EVENT_PROCESSORS k)) = true ->
    exists delta : list effect,
      trace (snd (handleEvent event data buffers w')) = trace w' ++ delta /\
      Forall (fun e => is_call e = false) delta.
Proof.
intros Hret w'. pose proof (release_clears w Hret) as Hclear.
split; [exact Hclear|].
intros k event data buffers Hk Hstart.
apply handleEvent_reaches_nobody; [apply Hclear|].
intros p hs Hfind Hhs.
rewrite (find_processor_of_match _ _ Hstart) in Hfind. injection Hfind as <-.
exact (cleared_targets k _ _ w' hs Hk Hclear Hhs).
Qed.

(** *** An observer that throws *)

(** X13: an exception thrown by the first function called on the first
    target ends the dispatch there: no other function, target or listener
    is called and the event is not published; the callback registered with
    [OnEvent] catches the exception, hands it to [console.error] and
    returns. *)
Theorem X13_throwing_observer_ends_the_dispatch
        (w : world) (event data : string) (buffers : list (list Z))
        (p : EventProcessor) (o : observer) (hs : list (option observer))
        (it : process_fn) (fs : list process_fn) (data' e : value) :
  find_processor event = Some p ->
  fst (handlers p (normalize p event) (parse_payload data) w)
    = Return (Some (Some o :: hs)) ->
  preprocessed p (normalize p event) (parse_payload data) buffers
    = Return data' ->
  func p = it :: fs ->
  let before := onEvent_log event data buffers w
                  ++ preprocess_call p (normalize p event)
                  ++ [EApply it (TObserver o) (normalize p event) data'] in
  process (set_trace (trace w ++ before) w) it (TObserver o)
          (normalize p event) data' = Throw e ->
  call_back_with_buffer event data buffers w =
    (Return tt, set_trace (trace w ++ before ++ [EConsoleError e]) w).
Proof.
intros Hfind Hhs Hpre Hfunc before Hthrow. subst before.
destruct (find_processor_family _ _ Hfind) as (k & Hk & _).
unfold call_back_with_buffer, try_catch.
rewrite handleEvent_after_log, Hfind. cbv zeta.
assert (Hr : forall ev d t,
           handlers p ev d (set_trace t w) =
             (fst (handlers p ev d w), set_trace t w))
  by (intros; rewrite Hk; apply handlers_reads).
unfold bind at 1. rewrite Hr, Hhs, Hfunc.
unfold preprocessed in Hpre. unfold preprocess_call in *.
destruct (preprocess p) as [pp|] eqn:Hp.
- unfold bind at 1. unfold bind at 1. unfold bind at 1.
  unfold run_preprocess at 1. unfold bind at 1.
  unfold perform at 1, modify at 1. unfold lift_outcome at 1.
  rewrite Hpre. unfold ret at 1. cbn [fst snd for_each].
  unfold bind at 1. unfold bind at 1. unfold bind at 1.
  unfold apply_fn at 1. unfold bind at 1. unfold perform at 1, modify at 1.
  repeat rewrite ?trace_set_trace, ?set_trace_twice.
  rewrite <- !app_assoc in *. cbn [app] in *. rewrite Hthrow.
  unfold perform, modify.
  repeat rewrite ?trace_set_trace, ?set_trace_twice.
  rewrite <- !app_assoc. reflexivity.
- injection Hpre as ->.
  unfold bind at 1. unfold bind at 1. unfold ret at 1.
  cbn [fst snd for_each].
  unfold bind at 1. unfold bind at 1. unfold bind at 1.
  unfold apply_fn at 1. unfold bind at 1. unfold perform at 1, modify at 1.
  repeat rewrite ?trace_set_trace, ?set_trace_twice.
  rewrite <- !app_assoc in *. cbn [app] in *. rewrite Hthrow.
  unfold perform, modify.
  repeat rewrite ?trace_set_trace, ?set_trace_twice.
  rewrite <- !app_assoc. reflexivity.
Qed.

(** *** More of the call dispatcher *)

Lemma lookup_assign_eq (k : string) (v : value) (ps : list (string * value)) :
  lookup_prop k (assign_prop k v ps) = Some v.
Proof.
induction ps as [|[k' v'] ps IH]; simpl.
- now rewrite String.eqb_refl.
- destruct (String.eqb k k') eqn:E; simpl.
  + now rewrite String.eqb_refl.
  + now rewrite E.
Qed.

Lemma lookup_assign_ne (k k' : string) (v : value) (ps : list (string * value)) :
  k <> k' -> lookup_prop k' (assign_prop k v ps) = lookup_prop k' ps.
Proof.
intros Hne. induction ps as [|[k0 v0] ps IH]; simpl.
- destruct (String.eqb k' k) eqn:E; [|reflexivity].
  apply String.eqb_eq in E. congruence.
- destruct (String.eqb k k0) eqn:E; simpl.
  + apply String.eqb_eq in E. subst k0.
    destruct (String.eqb k' k) eqn:E'; [|reflexivity].
    apply String.eqb_eq in E'. congruence.
  + now rewrite IH.
Qed.

(** The field a method takes its buffer from, for the methods that read it
    from an object inside [params]. *)
Definition buffer_holder (funcName : string) : option string :=
  if one_of funcName ["MediaEngine_pushAudioFrame";
                      "MediaEngine_pushCaptureAudioFrame";
                      "MediaEngine_pushReverseAudioFrame";
                      "MediaEngine_pushDirectAudioFrame";
                      "MediaEngine_pushVideoFrame"]
  then Some "frame"
  else if String.eqb funcName "RtcEngine_sendMetaData"
  then Some "metadata"
  else None.

Lemma one_of_elim (s : string) (names : list string) :
  one_of s names = true -> In s names.
Proof.
unfold one_of. intros H. apply existsb_exists in H as (x & Hin & Hx).
apply String.eqb_eq in Hx. now subst x.
Qed.

Lemma try_block_without_holder
      (this : value) (funcName holder : string) (s : call_state) (e : value) :
  buffer_holder funcName = Some holder ->
  on_outcome (get_prop (cs_params s) holder) (fun o => get_prop o "buffer")
    = Throw e ->
  try_block this funcName s = (Throw e, s).
Proof.
unfold buffer_holder. intros Hholder Hthrow.
destruct (one_of funcName _) eqn:Hone.
- injection Hholder as <-.
  apply one_of_elim in Hone.
  repeat (destruct Hone as [<-|Hone]; [|]); try contradiction;
    unfold try_block, marshal; simpl;
    unfold bind, param, lift_outcome;
    destruct (get_prop (cs_params s) "frame") as [f|e']; simpl in *;
    try (injection Hthrow as ->; reflexivity);
    rewrite Hthrow; reflexivity.
- destruct (String.eqb funcName "RtcEngine_sendMetaData") eqn:Hmeta;
    [|discriminate].
  injection Hholder as <-. apply String.eqb_eq in Hmeta. subst funcName.
  unfold try_block, marshal; simpl.
  unfold bind, param, lift_outcome.
  destruct (get_prop (cs_params s) "metadata") as [f|e']; simpl in *.
  + now rewrite Hthrow.
  + now injection Hthrow as ->.
Qed.

(** X14: for the methods that take a buffer from [params.frame] or
    [params.metadata], an argument object without that field (or no
    argument object at all) never reaches the boundary endpoint: reading
    the buffer throws, the exception is logged at error level in debug mode
    and at warning level otherwise, and the call returns [{}]. *)
Theorem X14_missing_buffer_holder_is_not_forwarded
        (this : value) (funcName holder : string) (s : call_state)
        (e json : value) :
  buffer_holder funcName = Some holder ->
  on_outcome (get_prop (cs_params s) holder) (fun o => get_prop o "buffer")
    = Throw e ->
  JSON_stringify (cs_params s) = Return json ->
  callIrisApi this funcName s =
    (Return (VObj []),
     log_world (ELog (failure_level (cs_world s))
                     [VStr "callApi"; VStr funcName; json; e]) s).
Proof.
intros Hholder Hthrow Hjson.
apply callIrisApi_catches; [|exact Hjson].
now apply (try_block_without_holder this funcName holder).
Qed.

(** The log line of a decoded answer, which only debug mode writes. *)
Definition answer_log (w : world) (funcName : string)
           (json resultText result : value) : list effect :=
  if debuggable w
  then [ELog (if negative_number result then LError else LDebug)
             [VStr "callApi"; VStr funcName; json; resultText]]
  else [].

Definition logs_world (d : list effect) (s : call_state) : call_state :=
  {| cs_world := set_trace (trace (cs_world s) ++ d) (cs_world s);
     cs_params := cs_params s |}.

(** X15: when the boundary endpoint answers with a result text that is not
    empty, [callIrisApi] returns what the text parses to, be its [result]
    field negative or not; outside debug mode it logs nothing, in debug
    mode it logs the answer at error level if [result] is a negative number
    and at debug level otherwise.  When the text does not parse, the call
    returns [{}] and logs the parse error like any other failure. *)
Theorem X15_answer_decoded
        (this : value) (funcName : string) (s s1 : call_state)
        (buffers : list value) (json answer code resultText : value) :
  marshal this funcName s = (Return (Some buffers), s1) ->
  JSON_stringify (cs_params s1) = Return json ->
  let called :=
    log_world (ECallApi funcName json buffers (Z.of_nat (length buffers))) s1 in
  CallApi (cs_world called) funcName json buffers (Z.of_nat (length buffers))
    = Return answer ->
  get_prop answer "callApiReturnCode" = Return code ->
  get_prop answer "callApiResult" = Return resultText ->
  present resultText = true ->
  (forall retObj result : value,
      JSON_parse resultText = Return retObj ->
      get_prop retObj "result" = Return result ->
      callIrisApi this funcName s =
        (Return retObj,
         logs_world (answer_log (cs_world s1) funcName json resultText result)
                    called)) /\
  (forall e : value,
      JSON_parse resultText = Throw e ->
      callIrisApi this funcName s =
        (Return (VObj []),
         log_world (ELog (failure_level (cs_world s1))
                         [VStr "callApi"; VStr funcName; json; e]) called)).
Proof.
intros Hm Hjson called Hcall Hcode Hres Hpresent.
split.
- intros retObj result Hparse Hresult.
  unfold callIrisApi, try_catch, try_block. unfold bind at 1. rewrite Hm.
  unfold invoke. unfold bind at 1.
  rewrite (call_native_spec _ _ _ _ Hjson). fold called. rewrite Hcall.
  unfold bind at 1. unfold lift_outcome at 1. rewrite Hcode.
  unfold bind at 1. unfold lift_outcome at 1. rewrite Hres, Hpresent.
  unfold bind at 1. unfold lift_outcome at 1. rewrite Hparse.
  unfold answer_log, logs_world, debuggable.
  unfold bind, in_world, isDebuggable, gets, stringify_params, lift_outcome,
    ret, logError, logDebug, perform, modify.
  subst called. cbn [cs_world cs_params log_world env set_trace trace].
  destruct (AgoraEnv.enableLogging (env (cs_world s1)) &&
            AgoraEnv.enableDebugLogging (env (cs_world s1))).
  + rewrite Hresult. cbn [cs_world cs_params]. rewrite Hjson.
    now destruct (negative_number result).
  + cbn. rewrite app_nil_r. now destruct s1 as [[] ?].
- intros e Hparse.
  rewrite (callIrisApi_catches this funcName s called e json);
    [reflexivity| |exact Hjson].
  unfold try_block. unfold bind at 1. rewrite Hm.
  unfold invoke. unfold bind at 1.
  rewrite (call_native_spec _ _ _ _ Hjson). fold called. rewrite Hcall.
  unfold bind at 1. unfold lift_outcome at 1. rewrite Hcode.
  unfold bind at 1. unfold lift_outcome at 1. rewrite Hres, Hpresent.
  unfold bind at 1. unfold lift_outcome at 1. now rewrite Hparse.
Qed.

(** X16: the release call.  [RtcEngine_release] is forwarded without
    buffers; when the endpoint returns, whatever it answers, the
    environment is torn down and the call returns [undefined] without a log
    line; when the endpoint throws, the environment is not torn down, and
    the call logs the failure and returns [{}]. *)
Theorem X16_release_call
        (this : value) (s : call_state) (json : value) :
  JSON_stringify (cs_params s) = Return json ->
  let called := log_world (ECallApi "RtcEngine_release" json [] 0) s in
  (forall answer : value,
      CallApi (cs_world called) "RtcEngine_release" json [] 0 = Return answer ->
      callIrisApi this "RtcEngine_release" s =
        (Return VUndefined, log_world EReleaseEnv called)) /\
  (forall e : value,
      CallApi (cs_world called) "RtcEngine_release" json [] 0 = Throw e ->
      callIrisApi this "RtcEngine_release" s =
        (Return (VObj []),
         log_world (ELog (failure_level (cs_world s))
                         [VStr "callApi"; VStr "RtcEngine_release"; json; e])
                   called)).
Proof.
intros Hjson called.
assert (Hnative : call_native "RtcEngine_release" [] s =
                  (CallApi (cs_world called) "RtcEngine_release" json [] 0,
                   called))
  by exact (call_native_spec "RtcEngine_release" [] s json Hjson).
split.
- intros answer Hcall.
  unfold callIrisApi, try_catch, try_block, marshal. simpl.
  unfold bind at 1. unfold bind at 1. rewrite Hnative, Hcall.
  reflexivity.
- intros e Hcall.
  rewrite (callIrisApi_catches this "RtcEngine_release" s called e json);
    [reflexivity| |exact Hjson].
  unfold try_block, marshal. simpl.
  unfold bind at 1. unfold bind at 1. now rewrite Hnative, Hcall.
Qed.

(** *** Calls on a media player *)

Definition for_player (funcName : string) : bool :=
  startsWith funcName "MediaPlayer_" || startsWith funcName "MusicPlayer_".

Lemma for_player_not_engine (funcName : string) :
  for_player funcName = true -> startsWith funcName "MediaEngine_" = false.
Proof.
unfold for_player, startsWith. intros H.
destruct (String.prefix "MediaEngine_" funcName) eqn:He; [|reflexivity].
apply orb_true_iff in H as [H|H];
  destruct (prefix_comparable _ _ _ He H); discriminate.
Qed.

(** X17: a call on a media player carries the player's id.  For a method
    name starting with [MediaPlayer_] or [MusicPlayer_], with [this] a
    player whose [getMediaPlayerId] returns [id], marshaling extracts no
    buffer and leaves the world alone; afterwards [params.mediaPlayerId] is
    [id] and [params.toJSON()] returns the fields the original [toJSON]
    returned (none when there was no [toJSON]) with [playerId] set to [id];
    every other field of [params] is as it was. *)
Theorem X17_player_id_injected
        (this getter id : value) (funcName : string) (w : world)
        (ps js : list (string * value)) :
  for_player funcName = true ->
  get_prop this "getMediaPlayerId" = Return getter ->
  call_fn getter = Return id ->
  lookup_prop "toJSON" ps = None /\ js = [] \/
  lookup_prop "toJSON" ps = Some (VFun (Some (VObj js))) ->
  exists (ps' js' : list (string * value)),
    marshal this funcName {| cs_world := w; cs_params := VObj ps |} =
      (Return (Some []), {| cs_world := w; cs_params := VObj ps' |}) /\
    lookup_prop "mediaPlayerId" ps' = Some id /\
    lookup_prop "toJSON" ps' = Some (VFun (Some (VObj js'))) /\
    lookup_prop "playerId" js' = Some id /\
    (forall k, k <> "playerId" -> lookup_prop k js' = lookup_prop k js) /\
    (forall k, k <> "mediaPlayerId" -> k <> "toJSON" ->
               lookup_prop k ps' = lookup_prop k ps).
Proof.
intros Hplayer Hgetter Hid HtoJSON.
pose proof (for_player_not_engine _ Hplayer) as Hengine.
unfold for_player in Hplayer.
set (ps1 := assign_prop "mediaPlayerId" id ps).
assert (H1 : lookup_prop "toJSON" ps1 = lookup_prop "toJSON" ps)
  by (apply lookup_assign_ne; discriminate).
exists (assign_prop "toJSON"
          (VFun (Some (VObj (assign_prop "playerId" id js)))) ps1),
       (assign_prop "playerId" id js).
split; [|repeat split].
- unfold marshal. rewrite Hengine, Hplayer.
  unfold bind at 1. unfold lift_outcome at 1. rewrite Hgetter.
  unfold bind at 1. unfold lift_outcome at 1. rewrite Hid.
  unfold bind at 1. unfold set_param at 1. cbn [cs_params cs_world set_prop].
  fold ps1.
  unfold bind at 1. unfold param at 1. cbn [cs_params get_prop]. rewrite H1.
  destruct HtoJSON as [[Hnone Hjs] | Hsome]; [rewrite Hnone; subst js|rewrite Hsome]; reflexivity.
- rewrite lookup_assign_ne by discriminate. apply lookup_assign_eq.
- apply lookup_assign_eq.
- apply lookup_assign_eq.
- intros k Hk. apply lookup_assign_ne. congruence.
- intros k Hk1 Hk2. rewrite lookup_assign_ne by congruence.
  apply lookup_assign_ne. congruence.
Qed.

(** *** What [preprocess] does to the payload *)

(** The one field of the payload a family's [preprocess] assigns to or
    under. *)
Definition touched (k : family) : option string :=
  match k with
  | IAudioFrameObserver => Some "audioFrame"
  | IVideoFrameObserver => Some "videoFrame"
  | IAudioEncodedFrameObserver => Some "frameBuffer"
  | IVideoEncodedFrameObserver => Some "imageBuffer"
  | IAudioPcmFrameSink | IMediaPlayerVideoFrameObserver => Some "frame"
  | IMetadataObserver => Some "metadata"
  | IRtcEngineEventHandler => Some "data"
  | IMusicContentCenterEventHandler => Some "result"
  | IAudioSpectrumObserver | IMediaPlayerSourceObserver
  | IMediaRecorderObserver | IDirectCdnStreamingEventHandler => None
  end.

(** The payload [d'] is an object with the fields of [ps], the field [f]
    apart. *)
Definition same_but (f : option string) (ps : list (string * value))
           (d' : value) : Prop :=
  exists ps', d' = VObj ps' /\
    forall g, f <> Some g -> lookup_prop g ps' = lookup_prop g ps.

Lemma same_but_refl f ps : same_but f ps (VObj ps).
Proof. now exists ps. Qed.

Lemma same_but_set_prop f v ps d' :
  set_prop (VObj ps) f v = Return d' -> same_but (Some f) ps d'.
Proof.
intros [= <-]. eexists. split; [reflexivity|].
intros g Hg. apply lookup_assign_ne. congruence.
Qed.

Lemma same_but_assign_under f kvs ps d' :
  assign_under (VObj ps) f kvs = Return d' -> same_but (Some f) ps d'.
Proof.
unfold assign_under. cbn [get_prop on_outcome].
destruct (truthy _); [|intros [= <-]; apply same_but_refl].
destruct (assign_all _ kvs) as [child'|e]; cbn [on_outcome]; [|discriminate].
intros [= <-]. eexists. split; [reflexivity|].
intros g Hg. apply lookup_assign_ne. congruence.
Qed.

(** X18: a family's [preprocess] assigns to one field of the payload.
    Whatever the event name and the buffers, when [preprocess] returns on an
    object payload, the payload is still an object and every field other
    than the family's own ([audioFrame], [videoFrame], [frameBuffer],
    [imageBuffer], [frame], [metadata], [data], [result]) reads as before;
    a family without [preprocess] leaves every field as it was. *)
Theorem X18_preprocess_touches_one_field
        (k : family) (event : string) (ps : list (string * value))
        (buffers : list (list Z)) (d' : value) :
  preprocessed (EVENT_PROCESSORS k) event (VObj ps) buffers = Return d' ->
  same_but (touched k) ps d'.
Proof.
unfold preprocessed.
destruct k; cbn [EVENT_PROCESSORS preprocess touched];
  try (intros [= <-]; apply same_but_refl);
  try apply same_but_assign_under;
  try (destruct (_ : bool);
       [first [apply same_but_set_prop | apply same_but_assign_under]
       |intros [= <-]; apply same_but_refl]).
destruct (String.eqb event _); [|intros [= <-]; apply same_but_refl].
cbn [get_prop on_outcome].
destruct (MusicCollectionInternal _) as [c|e]; cbn [on_outcome];
  [apply same_but_set_prop|discriminate].
Qed.

Lemma assign_all_object (kvs : list (string * value))
      (fs : list (string * value)) :
  assign_all (VObj fs) kvs =
    Return (VObj (fold_left (fun acc kv => assign_prop kv.1 kv.2 acc) kvs fs)).
Proof.
revert fs. induction kvs as [|[k v] kvs IH]; intros fs; [reflexivity|].
cbn [assign_all set_prop on_outcome fold_left]. apply IH.
Qed.

(** Where the raw buffers of a video frame event go: the frame object is
    found under [videoFrame] for the engine's video frame observers and
    under [frame] for a media player's. *)
Definition frame_field (k : family) : option string :=
  match k with
  | IVideoFrameObserver => Some "videoFrame"
  | IMediaPlayerVideoFrameObserver => Some "frame"
  | _ => None
  end.

(** X19: the five buffers of a video frame.  For the two video frame
    families, a payload with a frame object comes out of [preprocess] with
    the frame's [yBuffer], [uBuffer], [vBuffer], [metadata_buffer] and
    [alphaBuffer] reading as the raw buffers 0 to 4 ([undefined] where the
    event carries fewer), the frame's other fields as they were, and the
    frame still in its place; a payload without the frame field comes out
    unchanged. *)
Theorem X19_video_frame_buffers
        (k : family) (field event : string) (ps : list (string * value))
        (buffers : list (list Z)) :
  frame_field k = Some field ->
  (forall fs, lookup_prop field ps = Some (VObj fs) ->
     exists fs',
       preprocessed (EVENT_PROCESSORS k) event (VObj ps) buffers =
         Return (VObj (assign_prop field (VObj fs') ps)) /\
       lookup_prop "yBuffer" fs' = Some (buffer_at buffers 0) /\
       lookup_prop "uBuffer" fs' = Some (buffer_at buffers 1) /\
       lookup_prop "vBuffer" fs' = Some (buffer_at buffers 2) /\
       lookup_prop "metadata_buffer" fs' = Some (buffer_at buffers 3) /\
       lookup_prop "alphaBuffer" fs' = Some (buffer_at buffers 4) /\
       forall g, g ∉ fst <$> frame_buffers buffers ->
                 lookup_prop g fs' = lookup_prop g fs) /\
  (lookup_prop field ps = None ->
   preprocessed (EVENT_PROCESSORS k) event (VObj ps) buffers =
     Return (VObj ps)).
Proof.
intros Hk.
assert (Hpre : preprocessed (EVENT_PROCESSORS k) event (VObj ps) buffers =
               assign_under (VObj ps) field (frame_buffers buffers))
  by (destruct k; try discriminate Hk; injection Hk as <-; reflexivity).
rewrite Hpre. clear Hpre Hk. split.
- intros fs Hfs.
  exists (fold_left (fun acc kv => assign_prop kv.1 kv.2 acc)
                    (frame_buffers buffers) fs).
  split; [|cbn [frame_buffers fold_left fst snd]; repeat apply conj].
  + unfold assign_under. cbn [get_prop on_outcome]. rewrite Hfs.
    change (default VUndefined (Some (VObj fs))) with (VObj fs).
    cbn [truthy]. now rewrite assign_all_object.
  + now rewrite !lookup_assign_ne by discriminate; apply lookup_assign_eq.
  + now rewrite !lookup_assign_ne by discriminate; apply lookup_assign_eq.
  + now rewrite !lookup_assign_ne by discriminate; apply lookup_assign_eq.
  + now rewrite !lookup_assign_ne by discriminate; apply lookup_assign_eq.
  + apply lookup_assign_eq.
  + intros g Hg. cbn [fmap list_fmap fst] in Hg.
    rewrite !lookup_assign_ne; [reflexivity|..];
      intros <-; apply Hg; repeat constructor.
- intros Hnone. unfold assign_under. cbn [get_prop on_outcome].
  now rewrite Hnone.
Qed.

End Bridge.

(** ** Properties that compare two codecs, and the properties at work *)

(** C8: an event whose payload text does not parse, or parses to [null],
    is dispatched with the payload [{}], and dispatched in full.  The
    payload handed on is the empty object.  With it the dispatch goes on as
    for any payload: target resolution is asked with [{}], and when it
    returns a list and the functions called return, the family's
    [preprocess] runs once on [{}], every target is called with every
    function of the family, and the event is republished to the
    subscriptions of its name, all with the preprocessed [{}], and
    [handleEvent] returns.  Whatever the observers do, outcome, state and
    trace are those of a run whose parser answers [{}] for this text: the
    parse error itself is seen by nobody. *)
Theorem C8_malformed_payload_dispatched_as_empty_object
        (JSON_parse JSON_parse' MusicCollectionInternal : value -> outcome value)
        (process : world -> process_fn -> target -> string -> value -> outcome unit)
        (event data : string) (buffers : list (list Z)) (w : world) :
  (exists e, JSON_parse (VStr data) = Throw e) \/
  (exists v, JSON_parse (VStr data) = Return v /\ nullish v = true) ->
  parse_payload JSON_parse data = VObj [] /\
  (forall (p : EventProcessor) (hs : list (option observer))
          (data' : value) (t : EVENT_TYPE),
      (forall w it t event d, process w it t event d = Return tt) ->
      find_processor MusicCollectionInternal event = Some p ->
      fst (handlers p (normalize p event) (VObj []) w) = Return (Some hs) ->
      preprocessed p (normalize p event) (VObj []) buffers = Return data' ->
      type p data' = Return t ->
      handleEvent JSON_parse MusicCollectionInternal process event data
                  buffers w =
        (Return tt,
         set_trace
           (trace w ++ onEvent_log event data buffers w
                    ++ preprocess_call p (normalize p event)
                    ++ observer_applies (func p) (normalize p event) data' hs
                    ++ published (normalize p event) p data' t w) w)) /\
  (JSON_parse' (VStr data) = Return (VObj []) ->
   handleEvent JSON_parse MusicCollectionInternal process event data buffers w =
   handleEvent JSON_parse' MusicCollectionInternal process event data buffers w).
Proof.
  intros Hbad.
  assert (H1 : parse_payload JSON_parse data = VObj []).
  { unfold parse_payload, coalesce.
    destruct Hbad as [[e ->]|(v & -> & ->)]; reflexivity. }
  split; [exact H1|]. split.
  - intros p hs data' t Hreturns Hfind Hhs Hpre Ht.
    apply (handleEvent_in_order JSON_parse MusicCollectionInternal process
             Hreturns w event data buffers p hs data' t Hfind);
      rewrite ?H1; assumption.
  - intros Hempty.
    assert (H2 : parse_payload JSON_parse' data = VObj []).
    { unfold parse_payload. now rewrite Hempty. }
    unfold handleEvent. now rewrite H1, H2.
Qed.

(** A text that does not parse, two observers, one listener: the observers
    and the listener are all called, with [{}]. *)
Lemma C8_witness :
  Sample.JSON_parse (VStr "{not json") = Throw (VStr "SyntaxError") /\
  handleEvent Sample.JSON_parse Sample.MusicCollectionInternal Sample.process
    "AudioFrameObserver_onRecordAudioFrame" "{not json" [[1; 2; 3]]
    Sample.two_observers =
  (Return tt,
   set_trace
     [ EPreprocess IAudioFrameObserver "onRecordAudioFrame";
       EApply processIAudioFrameObserver (TObserver (UserObserver 1))
              "onRecordAudioFrame" (VObj []);
       EApply processIAudioFrameObserverBase (TObserver (UserObserver 1))
              "onRecordAudioFrame" (VObj []);
       EApply processIAudioFrameObserver (TObserver (UserObserver 2))
              "onRecordAudioFrame" (VObj []);
       EApply processIAudioFrameObserverBase (TObserver (UserObserver 2))
              "onRecordAudioFrame" (VObj []);
       EEmit "onRecordAudioFrame";
       EApply processIAudioFrameObserver (TListener "onRecordAudioFrame" 7%nat)
              "onRecordAudioFrame" (VObj []);
       EApply processIAudioFrameObserverBase
              (TListener "onRecordAudioFrame" 7%nat)
              "onRecordAudioFrame" (VObj []) ]
     Sample.two_observers).
Proof.
  split; [reflexivity|].
  apply (proj1 (proj2 (C8_malformed_payload_dispatched_as_empty_object
           Sample.JSON_parse Sample.JSON_parse_empty
           Sample.MusicCollectionInternal Sample.process
           "AudioFrameObserver_onRecordAudioFrame" "{not json" [[1; 2; 3]]
           Sample.two_observers
           (or_introl (ex_intro _ (VStr "SyntaxError") eq_refl))))
         (EVENT_PROCESSORS Sample.MusicCollectionInternal IAudioFrameObserver)
         [Some (UserObserver 1); Some (UserObserver 2)]
         (VObj []) IMediaEngine);
    reflexivity.
Defined.

(** Two observers, two functions in [func], one listener on the bus, the
    table untouched: one run of [preprocess], and the first observer is
    called with the frame that carries the raw buffer.  And a [preprocess]
    that throws, here because the constructor of [MusicCollectionInternal]
    does: the dispatch ends with its exception. *)
Lemma C1_witness :
  let s := {| ss_world := Sample.two_observers; ss_cleared := [] |} in
  let r := handleEvent_session Sample.JSON_parse Sample.MusicCollectionInternal
             Sample.process "AudioFrameObserver_onRecordAudioFrame"
             "{audioFrame:{}}" [[1; 2; 3]] s in
  let frame := VObj [("audioFrame", VObj [("buffer", VBytes [1; 2; 3])])] in
  (ss_cleared (snd r) = [] /\
   exists after : list effect,
     trace (ss_world (snd r)) =
       EPreprocess IAudioFrameObserver "onRecordAudioFrame" :: after /\
     preprocess_runs after = 0%nat /\
     Forall (carries frame) after /\
     exists rest : list effect,
       after = EApply processIAudioFrameObserver (TObserver (UserObserver 1))
                      "onRecordAudioFrame" frame :: rest) /\
  handleEvent_session Sample.JSON_parse (fun _ => Throw (VStr "boom"))
    Sample.process "MusicContentCenterEventHandler_onMusicCollectionResult"
    "{}" [] {| ss_world := Sample.initial; ss_cleared := [] |} =
  (Throw (VStr "boom"),
   {| ss_world :=
        set_trace [EPreprocess IMusicContentCenterEventHandler
                               "onMusicCollectionResult"] Sample.initial;
      ss_cleared := [] |}).
Proof.
  intros s r frame. split.
  - destruct (C1_preprocess_exactly_once
                Sample.JSON_parse Sample.MusicCollectionInternal Sample.process
                s "AudioFrameObserver_onRecordAudioFrame"
                "{audioFrame:{}}" [[1; 2; 3]]
                (EVENT_PROCESSORS Sample.MusicCollectionInternal
                                  IAudioFrameObserver)
                (fun event data buffers =>
                   assign_under data "audioFrame"
                                [("buffer", buffer_at buffers 0)])
                [Some (UserObserver 1); Some (UserObserver 2)]
                eq_refl eq_refl eq_refl)
      as (Hkeep & Hreturn & _).
    split; [exact Hkeep|].
    destruct (Hreturn frame eq_refl) as (after & E & R & Hcarries & Hfirst).
    exists after. split; [exact E|]. split; [exact R|].
    split; [exact Hcarries|].
    exact (Hfirst (UserObserver 1) [Some (UserObserver 2)]
                  processIAudioFrameObserver [processIAudioFrameObserverBase]
                  eq_refl eq_refl).
  - exact (proj2 (proj2 (C1_preprocess_exactly_once
                           Sample.JSON_parse (fun _ => Throw (VStr "boom"))
                           Sample.process
                           {| ss_world := Sample.initial; ss_cleared := [] |}
                           "MusicContentCenterEventHandler_onMusicCollectionResult"
                           "{}" []
                           (EVENT_PROCESSORS (fun _ => Throw (VStr "boom"))
                                             IMusicContentCenterEventHandler)
                           _ [] eq_refl eq_refl eq_refl))
                 (VStr "boom") eq_refl).
Defined.

(** C1, as the claim words it, fails once [emitEvent] has been called with
    the table entry itself while a listener was subscribed, as the tests of
    the repository call it: that call runs [preprocess] and clears it on
    the entry.  A later inbound event of the family, whose name matches and
    whose targets are resolved, is dispatched without any run of
    [preprocess]: the observers receive the frame without its buffer. *)
Lemma C1_counterexample :
  let s0 := {| ss_world := Sample.two_observers; ss_cleared := [] |} in
  let s1 := snd (emitEvent_entry Sample.MusicCollectionInternal Sample.process
                   "onRecordAudioFrame" IAudioFrameObserver (VObj []) None
                   s0) in
  let r := handleEvent_session Sample.JSON_parse Sample.MusicCollectionInternal
             Sample.process "AudioFrameObserver_onRecordAudioFrame"
             "{audioFrame:{}}" [[1; 2; 3]] s1 in
  let frame := VObj [("audioFrame", VObj [])] in
  preprocess (EVENT_PROCESSORS Sample.MusicCollectionInternal
                               IAudioFrameObserver) <> None /\
  ss_cleared s1 = [IAudioFrameObserver] /\
  trace (ss_world s1) =
    [ EPreprocess IAudioFrameObserver "onRecordAudioFrame";
      EEmit "onRecordAudioFrame";
      EApply processIAudioFrameObserver (TListener "onRecordAudioFrame" 7%nat)
             "onRecordAudioFrame" (VObj []);
      EApply processIAudioFrameObserverBase
             (TListener "onRecordAudioFrame" 7%nat)
             "onRecordAudioFrame" (VObj []) ] /\
  name <$> find_entry Sample.MusicCollectionInternal (ss_cleared s1)
                      "AudioFrameObserver_onRecordAudioFrame" =
    Some IAudioFrameObserver /\
  fst (handlers (entry Sample.MusicCollectionInternal (ss_cleared s1)
                       IAudioFrameObserver)
                "onRecordAudioFrame" frame (ss_world s1)) =
    Return (Some [Some (UserObserver 1); Some (UserObserver 2)]) /\
  trace (ss_world (snd r)) =
    trace (ss_world s1) ++
    [ EApply processIAudioFrameObserver (TObserver (UserObserver 1))
             "onRecordAudioFrame" frame;
      EApply processIAudioFrameObserverBase (TObserver (UserObserver 1))
             "onRecordAudioFrame" frame;
      EApply processIAudioFrameObserver (TObserver (UserObserver 2))
             "onRecordAudioFrame" frame;
      EApply processIAudioFrameObserverBase (TObserver (UserObserver 2))
             "onRecordAudioFrame" frame;
      EEmit "onRecordAudioFrame";
      EApply processIAudioFrameObserver (TListener "onRecordAudioFrame" 7%nat)
             "onRecordAudioFrame" frame;
      EApply processIAudioFrameObserverBase
             (TListener "onRecordAudioFrame" 7%nat)
             "onRecordAudioFrame" frame ] /\
  preprocess_runs (drop (length (trace (ss_world s1)))
                        (trace (ss_world (snd r)))) = 0%nat.
Proof. repeat split; try reflexivity. discriminate. Qed.

Example two_observers_trace :
  trace (snd (handleEvent Sample.JSON_parse Sample.MusicCollectionInternal
                Sample.process "AudioFrameObserver_onRecordAudioFrame"
                "{audioFrame:{}}" [[1; 2; 3]] Sample.two_observers)) =
    let data := VObj [("audioFrame", VObj [("buffer", VBytes [1; 2; 3])])] in
    [ EPreprocess IAudioFrameObserver "onRecordAudioFrame";
      EApply processIAudioFrameObserver (TObserver (UserObserver 1))
             "onRecordAudioFrame" data;
      EApply processIAudioFrameObserverBase (TObserver (UserObserver 1))
             "onRecordAudioFrame" data;
      EApply processIAudioFrameObserver (TObserver (UserObserver 2))
             "onRecordAudioFrame" data;
      EApply processIAudioFrameObserverBase (TObserver (UserObserver 2))
             "onRecordAudioFrame" data;
      EEmit "onRecordAudioFrame";
      EApply processIAudioFrameObserver (TListener "onRecordAudioFrame" 7%nat)
             "onRecordAudioFrame" data;
      EApply processIAudioFrameObserverBase
             (TListener "onRecordAudioFrame" 7%nat)
             "onRecordAudioFrame" data ].
Proof. reflexivity. Qed.

Lemma C2_witness :
  (forall k : family,
      startsWith "Unknown_onFoo"
                 (suffix (EVENT_PROCESSORS Sample.MusicCollectionInternal k))
        = false) /\
  handleEvent Sample.JSON_parse Sample.MusicCollectionInternal Sample.process
    "Unknown_onFoo" "{}" [] Sample.two_observers =
    (Return tt, Sample.two_observers).
Proof.
  assert (H : forall k : family,
             startsWith "Unknown_onFoo"
               (suffix (EVENT_PROCESSORS Sample.MusicCollectionInternal k))
               = false)
    by (intros []; reflexivity).
  split; [exact H|].
  exact (proj2 (C2_first_matching_family_or_drop
                  Sample.JSON_parse Sample.MusicCollectionInternal
                  Sample.process "Unknown_onFoo")
               "{}" [] Sample.two_observers H).
Defined.

(** C3, as the claim words it, fails: for a frame without [alphaBuffer] the
    fourth slot is [undefined], where the claim has a third empty
    placeholder, and the empty placeholder that closes the list is not the
    alpha slot. *)
Lemma C3_counterexample :
  fst (marshal Sample.JSON_stringify Sample.CallApi VUndefined
               "MediaEngine_pushVideoFrame" (Sample.call Sample.video_frame))
    = Return (Some [VBytes [1; 2; 3]; VBytes []; VBytes []; VUndefined;
                    VBytes []]) /\
  fst (marshal Sample.JSON_stringify Sample.CallApi VUndefined
               "MediaEngine_pushVideoFrame" (Sample.call Sample.video_frame))
    <> Return (Some (claimed_pushVideoFrame_slots
                       [("buffer", VBytes [1; 2; 3])])).
Proof. split; [reflexivity | discriminate]. Qed.

Lemma C3_witness :
  marshal Sample.JSON_stringify Sample.CallApi VUndefined
          "MediaEngine_pushVideoFrame" (Sample.call Sample.video_frame)
    = (Return (Some [VBytes [1; 2; 3]; VBytes []; VBytes []; VUndefined;
                     VBytes []]),
       Sample.call Sample.video_frame).
Proof.
  exact (proj1 (C3_pushVideoFrame_five_slots
                  Sample.JSON_parse Sample.JSON_stringify Sample.CallApi
                  VUndefined (Sample.call Sample.video_frame)
                  [("buffer", VBytes [1; 2; 3])] (VStr "<json>")
                  eq_refl eq_refl)).
Defined.

(** With an [alphaBuffer] the order shows: the alpha buffer is the fourth
    slot and an empty placeholder the fifth. *)
Example pushVideoFrame_with_alphaBuffer :
  fst (marshal Sample.JSON_stringify Sample.CallApi VUndefined
               "MediaEngine_pushVideoFrame"
               (Sample.call
                  (VObj [("frame", VObj [("buffer", VBytes [1; 2; 3]);
                                         ("alphaBuffer", VBytes [9])])])))
    = Return (Some [VBytes [1; 2; 3]; VBytes []; VBytes []; VBytes [9];
                    VBytes []]).
Proof. reflexivity. Qed.

(** C4: an argument object whose serialization throws.  The [try] block
    throws at [JSON.stringify(params)], the [catch] block calls
    [JSON.stringify(params)] again for its log line, and that exception
    leaves [callIrisApi]: nothing is logged and no [{}] is returned. *)
Theorem C4_exception_escapes_the_catch_block :
  callIrisApi Sample.JSON_parse Sample.JSON_stringify Sample.CallApi VUndefined
              "RtcEngine_setParameters" (Sample.call Sample.unserializable)
    = (Throw Error, Sample.call Sample.unserializable).
Proof. reflexivity. Qed.

(** C5, as the claim words it, fails for [RtcEngine_release]: the endpoint
    answers with the code [-7] and an empty text, and the call returns
    [undefined] without a log line. *)
Lemma C5_counterexample :
  Sample.CallApi Sample.initial "RtcEngine_release" (VStr "<json>") [] 0
    = Return (VObj [("callApiReturnCode", VNum (-7));
                    ("callApiResult", VStr EmptyString)]) /\
  fst (callIrisApi Sample.JSON_parse Sample.JSON_stringify Sample.CallApi
                   VUndefined "RtcEngine_release" (Sample.call (VObj [])))
    = Return VUndefined /\
  fst (callIrisApi Sample.JSON_parse Sample.JSON_stringify Sample.CallApi
                   VUndefined "RtcEngine_release" (Sample.call (VObj [])))
    <> Return (VObj [("result", VNum (-7))]) /\
  trace (cs_world (snd
    (callIrisApi Sample.JSON_parse Sample.JSON_stringify Sample.CallApi
                 VUndefined "RtcEngine_release" (Sample.call (VObj [])))))
    = [ECallApi "RtcEngine_release" (VStr "<json>") [] 0; EReleaseEnv].
Proof. repeat split. discriminate. Qed.

Lemma C5_witness :
  callIrisApi Sample.JSON_parse Sample.JSON_stringify Sample.CallApi VUndefined
              "RtcEngine_enableVideo" (Sample.call (VObj []))
    = (Return (VObj [("result", VNum (-7))]),
       {| cs_world :=
            set_trace
              [ECallApi "RtcEngine_enableVideo" (VStr "<json>") [] 0;
               ELog LWarn [VStr "callApi"; VStr "RtcEngine_enableVideo";
                           VStr "<json>"; VNum (-7)]]
              Sample.initial;
          cs_params := VObj [] |}).
Proof.
  destruct (C5_empty_result_synthesized
              Sample.JSON_parse Sample.JSON_stringify Sample.CallApi
              VUndefined "RtcEngine_enableVideo"
              (Sample.call (VObj [])) (Sample.call (VObj []))
              (Some []) (VStr "<json>")
              (VObj [("callApiReturnCode", VNum (-7));
                     ("callApiResult", VStr EmptyString)])
              (VStr EmptyString) (-7)
              ltac:(discriminate) eq_refl eq_refl
              (fun _ _ => eq_refl) eq_refl eq_refl eq_refl)
    as (buffers & Hr & Hcall).
  injection Hr as <-. exact Hcall.
Defined.

(** C6: [onMetadataReceived] belongs to a strict category and no metadata
    observer is registered.  The pre-check reports the diagnostic and
    answers [false]; [addListener] subscribes the listener all the same, and
    a matching event then calls it. *)
Theorem C6_strict_listener_attached_anyway :
  let w1 := snd (addListener Sample.strictTest Sample.super_result
                             "onMetadataReceived" 7%nat Sample.initial) in
  RtcEngineExInternal._metadata_observer (rtc Sample.initial) = [] /\
  fst (_addListenerPreCheck Sample.strictTest Sample.super_result
                            "onMetadataReceived" Sample.initial)
    = Return false /\
  trace w1 = [EConsoleError (diagnostic "registerMediaMetadataObserver")] /\
  DeviceEventEmitter w1 =
    [("onMetadataReceived",
      {| cb_id := 0; cb_kind := IRtcEngine;
         cb_eventType := "onMetadataReceived"; cb_listener := 7%nat |})] /\
  trace (snd (handleEvent Sample.JSON_parse Sample.MusicCollectionInternal
                Sample.process "MetadataObserver_onMetadataReceived" "{}"
                [[1; 2]] w1)) =
    [ EConsoleError (diagnostic "registerMediaMetadataObserver");
      EPreprocess IMetadataObserver "onMetadataReceived";
      EEmit "onMetadataReceived";
      EApply processIMetadataObserver (TListener "onMetadataReceived" 7%nat)
             "onMetadataReceived" (VObj []) ].
Proof. repeat split. Qed.

(** The permissive side of the pre-check: with no engine event handler
    registered, an empty handler is registered and the listener is
    subscribed. *)
Example permissive_listener_attached :
  let w1 := snd (addListener Sample.strictTest Sample.super_result
                             "onLocalVideoStats" 7%nat Sample.initial) in
  RtcEngineExInternal._event_handlers (rtc w1) = [EmptyObserver 0] /\
  DeviceEventEmitter w1 =
    [("onLocalVideoStats",
      {| cb_id := 1; cb_kind := IRtcEngine;
         cb_eventType := "onLocalVideoStats"; cb_listener := 7%nat |})].
Proof. repeat split. Qed.

(** One listener added for [onJoinChannelSuccess], then another one for
    [onLeaveChannel]: removing the first takes its subscription away, which
    is not the latest on the bus, and leaves the other one. *)
Lemma C7_witness :
  let add := addListener Sample.strictTest Sample.super_result in
  let w := snd (add "onLeaveChannel" 8%nat
                    (snd (add "onJoinChannelSuccess" 7%nat Sample.initial))) in
  bus_wf w /\
  DeviceEventEmitter w =
    [("onJoinChannelSuccess",
      {| cb_id := 0; cb_kind := IRtcEngine;
         cb_eventType := "onJoinChannelSuccess"; cb_listener := 7%nat |});
     ("onLeaveChannel",
      {| cb_id := 1; cb_kind := IRtcEngine;
         cb_eventType := "onLeaveChannel"; cb_listener := 8%nat |})] /\
  removeListener "onJoinChannelSuccess" (Some 7%nat) w =
    (Return tt,
     set_bus
       [("onLeaveChannel",
         {| cb_id := 1; cb_kind := IRtcEngine;
            cb_eventType := "onLeaveChannel"; cb_listener := 8%nat |})] w).
Proof.
  intros add w.
  assert (Hwf : bus_wf w).
  { apply bus_wf_addListener, bus_wf_addListener, bus_wf_initial;
      reflexivity. }
  split; [exact Hwf|]. split; [reflexivity|].
  refine (eq_trans
            (proj1 (proj2 (C7_removeListener Sample.process Sample.strictTest
                             Sample.super_result w "onJoinChannelSuccess" Hwf))
                   7%nat) _).
  reflexivity.
Defined.

(** C7, as the claim words it, fails for a listener that was registered
    again after the registration to be undone.  Here the listener is added
    for [onJoinChannelSuccess] and then for [onLeaveChannel]:
    [removeListener('onJoinChannelSuccess', listener)] removes nothing, and
    an [onJoinChannelSuccess] event published afterwards still calls it. *)
Lemma C7_counterexample :
  let add := addListener Sample.strictTest Sample.super_result in
  let w := snd (add "onLeaveChannel" 7%nat
                    (snd (add "onJoinChannelSuccess" 7%nat Sample.initial))) in
  let w' := snd (removeListener "onJoinChannelSuccess" (Some 7%nat) w) in
  DeviceEventEmitter w =
    [("onJoinChannelSuccess",
      {| cb_id := 0; cb_kind := IRtcEngine;
         cb_eventType := "onJoinChannelSuccess"; cb_listener := 7%nat |});
     ("onLeaveChannel",
      {| cb_id := 1; cb_kind := IRtcEngine;
         cb_eventType := "onLeaveChannel"; cb_listener := 7%nat |})] /\
  DeviceEventEmitter w' = DeviceEventEmitter w /\
  trace (snd (emitEvent Sample.process "onJoinChannelSuccess"
                (EVENT_PROCESSORS Sample.MusicCollectionInternal
                                  IRtcEngineEventHandler)
                (VObj []) None w')) =
    trace w' ++
    [ EPreprocess IRtcEngineEventHandler "onJoinChannelSuccess";
      EEmit "onJoinChannelSuccess";
      EApply processIRtcEngineEventHandler
             (TListener "onJoinChannelSuccess" 7%nat)
             "onJoinChannelSuccess" (VObj []) ].
Proof. repeat split. Qed.

(** The callback stored on a listener is the one of its latest
    registration: after two registrations of the same listener, one
    [removeListener] takes the later subscription away and the earlier one
    stays. *)
Example removeListener_after_two_registrations :
  let add := addListener Sample.strictTest Sample.super_result
                         "onJoinChannelSuccess" 7%nat in
  let w := snd (add (snd (add Sample.initial))) in
  DeviceEventEmitter (snd (removeListener "onJoinChannelSuccess" (Some 7%nat) w))
    = [("onJoinChannelSuccess",
        {| cb_id := 0; cb_kind := IRtcEngine;
           cb_eventType := "onJoinChannelSuccess"; cb_listener := 7%nat |})].
Proof. reflexivity. Qed.

Lemma C9_witness :
  registry_state (RtcEngineExInternal._event_handlers (rtc Sample.initial)) /\
  entries (UserObserver 1)
    (RtcEngineExInternal._event_handlers
       (rtc (snd (twice (registerEventHandler Sample.super_result
                                              (UserObserver 1))
                        Sample.initial)))) = 1%nat.
Proof.
  split; [constructor|].
  destruct (C9_registration_idempotent Sample.super_result (UserObserver 1)
              Sample.initial ltac:(constructor) ltac:(constructor)
              ltac:(constructor))
    as (_ & [_ H] & _).
  exact H.
Defined.

(** An [onLocalVideoStats] event whose payload has a [connection] field: the
    registered handler is passed over, [preprocess] runs on the republishing
    path, and the listener is called. *)
Lemma C10_witness :
  fst (handlers (EVENT_PROCESSORS Sample.MusicCollectionInternal
                                  IRtcEngineEventHandler)
                "onLocalVideoStats" (VObj [("connection", VObj [])])
                Sample.stats_listener) = Return None /\
  trace (snd (handleEvent Sample.JSON_parse Sample.MusicCollectionInternal
                Sample.process "RtcEngineEventHandler_onLocalVideoStats"
                "{connection:{}}" [] Sample.stats_listener)) =
    [ EPreprocess IRtcEngineEventHandler "onLocalVideoStats";
      EEmit "onLocalVideoStats";
      EApply processIRtcEngineEventHandler
             (TListener "onLocalVideoStats" 7%nat) "onLocalVideoStats"
             (VObj [("connection", VObj [])]) ].
Proof.
  split; [reflexivity|].
  rewrite (proj1 (C10_no_targets_still_republished
                    Sample.JSON_parse Sample.MusicCollectionInternal
                    Sample.process Sample.stats_listener
                    "RtcEngineEventHandler_onLocalVideoStats"
                    "{connection:{}}" []
                    (EVENT_PROCESSORS Sample.MusicCollectionInternal
                                      IRtcEngineEventHandler)
                    eq_refl eq_refl)).
  reflexivity.
Defined.


(** ** The further properties at work *)

(** More sample collaborators: an observer callback that throws, a native
    side that answers with a result text, a media player object, and
    collaborators of [release] that return. *)
Module Probe.

Definition process (w : world) (it : process_fn) (t : target)
           (event : string) (data : value) : outcome unit :=
  match t with
  | TObserver (UserObserver 1) => Throw (VStr "boom")
  | _ => Return tt
  end.

Definition CallApi (w : world) (funcName : string) (json : value)
           (buffers : list value) (n : Z) : outcome value :=
  Return (VObj [("callApiReturnCode", VNum 0); ("callApiResult", VStr "{}")]).

Definition player : value :=
  VObj [("getMediaPlayerId", VFun (Some (VNum 3)))].

Definition collaborator (w : world) (method : string) : outcome unit :=
  Return tt.

Definition audio_frame : value :=
  VObj [("audioFrame", VObj [("buffer", VBytes [1; 2; 3])])].

End Probe.

Lemma X1_witness :
  find_processor Sample.MusicCollectionInternal
                 "RtcEngineEventHandler_onJoinChannelSuccess" =
    Some (EVENT_PROCESSORS Sample.MusicCollectionInternal
                           IRtcEngineEventHandler) /\
  forall k' : family,
    startsWith "RtcEngineEventHandler_onJoinChannelSuccess"
               (suffix (EVENT_PROCESSORS Sample.MusicCollectionInternal k'))
      = true ->
    k' = IRtcEngineEventHandler.
Proof.
  apply (X1_family_prefixes_exclusive
           Sample.MusicCollectionInternal
           "RtcEngineEventHandler_onJoinChannelSuccess"
           IRtcEngineEventHandler).
  reflexivity.
Defined.

Lemma X2_witness :
  normalize (EVENT_PROCESSORS Sample.MusicCollectionInternal
                              IRtcEngineEventHandler)
            "RtcEngineEventHandler_onLeaveChannel" = "onLeaveChannel".
Proof.
  exact (proj2 (X2_normalized_event_name
                  Sample.MusicCollectionInternal IRtcEngineEventHandler
                  "onLeaveChannel") eq_refl).
Defined.

Lemma X3_witness :
  handleEvent Sample.JSON_parse Sample.MusicCollectionInternal Sample.process
    "RtcEngineEventHandler_onLocalVideoStatsEx" "{}" [] Sample.stats_listener =
  handleEvent Sample.JSON_parse Sample.MusicCollectionInternal Sample.process
    "RtcEngineEventHandler_onLocalVideoStats" "{}" [] Sample.stats_listener.
Proof.
  apply (X3_Ex_variant_dispatched_as_base
           Sample.JSON_parse Sample.MusicCollectionInternal Sample.process
           IRtcEngineEventHandler "onLocalVideoStats" "{}" []
           Sample.stats_listener);
    reflexivity.
Defined.

Lemma X6_witness :
  let w1 := snd (unregisterEventHandler Sample.super_result (UserObserver 1)
                                        Sample.stats_listener) in
  exists delta : list effect,
    trace (snd (handleEvent Sample.JSON_parse Sample.MusicCollectionInternal
                  Sample.process "RtcEngineEventHandler_onJoinChannelSuccess"
                  "{}" [] w1)) = trace w1 ++ delta /\
    Forall (never_calls (UserObserver 1)) delta.
Proof.
  exact (proj1 (X6_unregistered_observer_not_called
                  Sample.JSON_parse Sample.MusicCollectionInternal
                  Sample.process Sample.super_result (UserObserver 1)
                  Sample.stats_listener
                  "RtcEngineEventHandler_onJoinChannelSuccess" "{}" [])
               eq_refl).
Defined.

Lemma X7_witness :
  let p := EVENT_PROCESSORS Sample.MusicCollectionInternal
                            IAudioFrameObserver in
  handleEvent Sample.JSON_parse Sample.MusicCollectionInternal Sample.process
    "AudioFrameObserver_onRecordAudioFrame" "{audioFrame:{}}" [[1; 2; 3]]
    Sample.two_observers =
  (Return tt,
   set_trace
     (trace Sample.two_observers ++
      onEvent_log "AudioFrameObserver_onRecordAudioFrame" "{audioFrame:{}}"
                  [[1; 2; 3]] Sample.two_observers ++
      preprocess_call p "onRecordAudioFrame" ++
      observer_applies (func p) "onRecordAudioFrame" Probe.audio_frame
                       [Some (UserObserver 1); Some (UserObserver 2)] ++
      published "onRecordAudioFrame" p Probe.audio_frame IMediaEngine
                Sample.two_observers)
     Sample.two_observers).
Proof.
  apply (X7_dispatch_calls_in_order
           Sample.JSON_parse Sample.MusicCollectionInternal Sample.process
           (fun _ _ _ _ _ => eq_refl)
           Sample.two_observers "AudioFrameObserver_onRecordAudioFrame"
           "{audioFrame:{}}" [[1; 2; 3]]
           (EVENT_PROCESSORS Sample.MusicCollectionInternal
                             IAudioFrameObserver)
           [Some (UserObserver 1); Some (UserObserver 2)]
           Probe.audio_frame IMediaEngine);
    reflexivity.
Defined.

Lemma X8_witness :
  let p := EVENT_PROCESSORS Sample.MusicCollectionInternal
                            IAudioFrameObserver in
  emitEvent Sample.process "onRecordAudioFrame" p
            (VObj [("audioFrame", VObj [])]) (Some [[1; 2; 3]])
            Sample.two_observers =
  (Return tt,
   set_trace
     (trace Sample.two_observers ++
      republished "onRecordAudioFrame" p Probe.audio_frame IMediaEngine
                  Sample.two_observers)
     Sample.two_observers).
Proof.
  apply (X8_emitEvent_calls_subscriptions_in_order
           Sample.process (fun _ _ _ _ _ => eq_refl)
           "onRecordAudioFrame"
           (EVENT_PROCESSORS Sample.MusicCollectionInternal
                             IAudioFrameObserver)
           (VObj [("audioFrame", VObj [])]) Probe.audio_frame
           (Some [[1; 2; 3]]) IMediaEngine Sample.two_observers);
    reflexivity.
Defined.

Lemma X9_witness :
  RtcEngineExInternal._event_handlers
    (rtc (snd ((registerEventHandler Sample.super_result (UserObserver 2);;
                unregisterEventHandler Sample.super_result (UserObserver 2))%js
                 Sample.stats_listener))) =
  RtcEngineExInternal._event_handlers (rtc Sample.stats_listener).
Proof.
  refine (proj2 (X9_unregister_undoes_register
                   Sample.super_result (UserObserver 2)
                   Sample.stats_listener _)).
  intros H. inversion H as [|? ? ? H']; subst. inversion H'.
Defined.

Lemma X10_witness :
  RtcEngineExInternal._event_handlers
    (rtc (snd (_addListenerPreCheck Sample.strictTest Sample.super_result
                                    "onLocalVideoStats" Sample.initial)))
    <> [].
Proof.
  exact (proj1 (proj2 (proj2 (proj2 (proj2 (proj2
           (X10_precheck_answer Sample.strictTest Sample.super_result
                                "onLocalVideoStats" Sample.initial))))))
               eq_refl).
Defined.

Lemma X12_witness :
  cleared (snd (release Sample.super_result Probe.collaborator
                        Sample.stats_listener)).
Proof.
  exact (proj1 (X12_release_clears_registries_and_bus
                  Sample.JSON_parse Sample.MusicCollectionInternal
                  Sample.process Sample.super_result Probe.collaborator
                  Sample.stats_listener eq_refl)).
Defined.

Lemma X13_witness :
  call_back_with_buffer Sample.JSON_parse Sample.MusicCollectionInternal
    Probe.process "AudioFrameObserver_onRecordAudioFrame" "{audioFrame:{}}"
    [[1; 2; 3]] Sample.two_observers =
  (Return tt,
   set_trace
     [ EPreprocess IAudioFrameObserver "onRecordAudioFrame";
       EApply processIAudioFrameObserver (TObserver (UserObserver 1))
              "onRecordAudioFrame" Probe.audio_frame;
       EConsoleError (VStr "boom") ]
     Sample.two_observers).
Proof.
  apply (X13_throwing_observer_ends_the_dispatch
           Sample.JSON_parse Sample.MusicCollectionInternal Probe.process
           Sample.two_observers "AudioFrameObserver_onRecordAudioFrame"
           "{audioFrame:{}}" [[1; 2; 3]]
           (EVENT_PROCESSORS Sample.MusicCollectionInternal
                             IAudioFrameObserver)
           (UserObserver 1) [Some (UserObserver 2)]
           processIAudioFrameObserver [processIAudioFrameObserverBase]
           Probe.audio_frame (VStr "boom"));
    reflexivity.
Defined.

Lemma X14_witness :
  callIrisApi Sample.JSON_parse Sample.JSON_stringify Sample.CallApi
              VUndefined "MediaEngine_pushAudioFrame" (Sample.call (VObj [])) =
  (Return (VObj []),
   log_world
     (ELog (failure_level Sample.initial)
           [VStr "callApi"; VStr "MediaEngine_pushAudioFrame"; VStr "<json>";
            TypeError])
     (Sample.call (VObj []))).
Proof.
  apply (X14_missing_buffer_holder_is_not_forwarded
           Sample.JSON_parse Sample.JSON_stringify Sample.CallApi
           VUndefined "MediaEngine_pushAudioFrame" "frame"
           (Sample.call (VObj [])) TypeError (VStr "<json>"));
    reflexivity.
Defined.

Lemma X15_witness :
  callIrisApi Sample.JSON_parse Sample.JSON_stringify Probe.CallApi
              VUndefined "RtcEngine_joinChannel" (Sample.call (VObj [])) =
  (Return (VObj []),
   logs_world
     (answer_log Sample.initial "RtcEngine_joinChannel" (VStr "<json>")
                 (VStr "{}") VUndefined)
     (log_world (ECallApi "RtcEngine_joinChannel" (VStr "<json>") [] 0)
                (Sample.call (VObj [])))).
Proof.
  exact (proj1 (X15_answer_decoded
                  Sample.JSON_parse Sample.JSON_stringify Probe.CallApi
                  VUndefined "RtcEngine_joinChannel"
                  (Sample.call (VObj [])) (Sample.call (VObj [])) []
                  (VStr "<json>")
                  (VObj [("callApiReturnCode", VNum 0);
                         ("callApiResult", VStr "{}")])
                  (VNum 0) (VStr "{}")
                  eq_refl eq_refl eq_refl eq_refl eq_refl eq_refl)
               (VObj []) VUndefined eq_refl eq_refl).
Defined.

Lemma X16_witness :
  callIrisApi Sample.JSON_parse Sample.JSON_stringify Sample.CallApi
              VUndefined "RtcEngine_release" (Sample.call (VObj [])) =
  (Return VUndefined,
   log_world EReleaseEnv
     (log_world (ECallApi "RtcEngine_release" (VStr "<json>") [] 0)
                (Sample.call (VObj [])))).
Proof.
  exact (proj1 (X16_release_call
                  Sample.JSON_parse Sample.JSON_stringify Sample.CallApi
                  VUndefined (Sample.call (VObj [])) (VStr "<json>") eq_refl)
               _ eq_refl).
Defined.

Lemma X17_witness :
  exists ps' js' : list (string * value),
    marshal Sample.JSON_stringify Sample.CallApi Probe.player
            "MediaPlayer_open"
            {| cs_world := Sample.initial;
               cs_params := VObj [("url", VStr "a")] |} =
      (Return (Some []),
       {| cs_world := Sample.initial; cs_params := VObj ps' |}) /\
    lookup_prop "mediaPlayerId" ps' = Some (VNum 3) /\
    lookup_prop "toJSON" ps' = Some (VFun (Some (VObj js'))) /\
    lookup_prop "playerId" js' = Some (VNum 3) /\
    (forall k, k <> "playerId" -> lookup_prop k js' = lookup_prop k []) /\
    (forall k, k <> "mediaPlayerId" -> k <> "toJSON" ->
               lookup_prop k ps' = lookup_prop k [("url", VStr "a")]).
Proof.
  apply (X17_player_id_injected
           Sample.JSON_stringify Sample.CallApi Probe.player
           (VFun (Some (VNum 3))) (VNum 3) "MediaPlayer_open" Sample.initial
           [("url", VStr "a")] []);
    try reflexivity.
  left. split; reflexivity.
Defined.

Lemma X18_witness :
  same_but (Some "data") [("streamId", VNum 1)]
           (VObj [("streamId", VNum 1); ("data", VBytes [1; 2])]).
Proof.
  apply (X18_preprocess_touches_one_field
           Sample.MusicCollectionInternal IRtcEngineEventHandler
           "onStreamMessage" [("streamId", VNum 1)] [[1; 2]]).
  reflexivity.
Defined.

(** A frame with a width and an event that carries two raw buffers: the
    first two fields are the buffers, the other three are [undefined], and
    the width stays. *)
Lemma X19_witness :
  exists fs' : list (string * value),
    preprocessed (EVENT_PROCESSORS Sample.MusicCollectionInternal
                                   IVideoFrameObserver)
                 "onCaptureVideoFrame"
                 (VObj [("sourceType", VNum 0);
                        ("videoFrame", VObj [("width", VNum 2)])])
                 [[1]; [2; 3]] =
      Return (VObj [("sourceType", VNum 0); ("videoFrame", VObj fs')]) /\
    lookup_prop "yBuffer" fs' = Some (VBytes [1]) /\
    lookup_prop "uBuffer" fs' = Some (VBytes [2; 3]) /\
    lookup_prop "vBuffer" fs' = Some VUndefined /\
    lookup_prop "metadata_buffer" fs' = Some VUndefined /\
    lookup_prop "alphaBuffer" fs' = Some VUndefined /\
    lookup_prop "width" fs' = Some (VNum 2).
Proof.
  destruct (proj1 (X19_video_frame_buffers
                     Sample.MusicCollectionInternal IVideoFrameObserver
                     "videoFrame" "onCaptureVideoFrame"
                     [("sourceType", VNum 0);
                      ("videoFrame", VObj [("width", VNum 2)])]
                     [[1]; [2; 3]] eq_refl)
                  [("width", VNum 2)] eq_refl)
    as (fs' & E & Hy & Hu & Hv & Hm & Ha & Hother).
  exists fs'. repeat apply conj; try assumption.
  rewrite Hother; [reflexivity|].
  cbn [frame_buffers fmap list_fmap fst]. intros Hin.
  repeat (apply elem_of_cons in Hin as [Hin|Hin]; [discriminate Hin|]).
  inversion Hin.
Defined.
